(** * Node.js script factory and template-testing handler of the Jitsu server

    A shallow embedding of [server/script/node] (the factory that provisions
    a private directory, installs the npm dependencies, renders [main.cjs]
    and hands the process to a governor) and of
    [server/handlers/templates.go] (the HTTP handler that evaluates a
    template expression against a sample object).

    Go strings are byte sequences: they are modelled by [string], whose
    characters are the 8-bit [ascii] values.  A Go [error] value is an
    [option] of its message, [None] standing for [nil].  Go maps are
    [gmap]s; where a map is shared by reference it lives in a heap of map
    objects.  Effects (file system, processes, panics) are threaded through
    a small state monad over a [World]. *)

From Stdlib Require Import ZArith Ascii String List Lia Permutation.
From stdpp Require Import base option list gmap strings.

Local Open Scope string_scope.
Local Open Scope Z_scope.

(** ** Bytes and strings *)

Definition byte_val (c : ascii) : Z := Z.of_N (N_of_ascii c).

Definition dquote : ascii := "034"%char.
Definition backslash : ascii := "092"%char.
Definition newline : ascii := "010"%char.

Definition str1 (c : ascii) : string := String c EmptyString.

(** A Go [error]: [None] is [nil], [Some msg] an error whose [Error()]
    text is [msg]. *)
Definition error := option string.

(** ** github.com/pkg/errors *)
Module errors.

(** [errors.Errorf]: always a non-nil error. *)
Definition Errorf (msg : string) : error := Some msg.

(** [errors.New] of the standard library has the same shape. *)
Definition New (msg : string) : error := Some msg.

(** [errors.Wrap(err, message)]: annotates [err] with [message]; when
    [err] is [nil], [Wrap] returns [nil]. *)
Definition Wrap (err : error) (message : string) : error :=
  match err with
  | None => None
  | Some cause => Some (message ++ ": " ++ cause)
  end.

(** [errors.Wrapf] is [Wrap] over the formatted message; it too returns
    [nil] for a [nil] cause. *)
Definition Wrapf (err : error) (formatted : string) : error :=
  Wrap err formatted.

End errors.

(** ** package strings *)
Module strings.

Fixpoint trimLeftByte (s : string) (c : ascii) : string :=
  match s with
  | String b t => if Ascii.eqb b c then trimLeftByte t c else s
  | EmptyString => EmptyString
  end.

Fixpoint trimRightByte (s : string) (c : ascii) : string :=
  match s with
  | EmptyString => EmptyString
  | String b t =>
      match trimRightByte t c with
      | EmptyString => if Ascii.eqb b c then EmptyString else str1 b
      | t' => String b t'
      end
  end.

(** [strings.Trim(s, cutset)] for a cutset of one ASCII byte, the only
    use in this package: every leading and every trailing occurrence of
    the byte is removed. *)
Definition Trim (s : string) (c : ascii) : string :=
  trimLeftByte (trimRightByte s c) c.

(** [strings.Join]. *)
Fixpoint Join (elems : list string) (sep : string) : string :=
  match elems with
  | [] => ""
  | [e] => e
  | e :: rest => e ++ sep ++ Join rest sep
  end.

End strings.

(** ** package unicode/utf8 *)
Module utf8.

Definition RuneError : Z := 0xFFFD.
Definition RuneSelf : Z := 0x80.

Definition xx : Z := 0xF1.
Definition as_ : Z := 0xF0.
Definition s1 : Z := 0x02.
Definition s2 : Z := 0x13.
Definition s3 : Z := 0x03.
Definition s4 : Z := 0x23.
Definition s5 : Z := 0x34.
Definition s6 : Z := 0x04.
Definition s7 : Z := 0x44.

Definition locb : Z := 0x80.
Definition hicb : Z := 0xBF.

(** The table [first], by ranges of the leading byte. *)
Definition first (b : Z) : Z :=
  if b <? 0x80 then as_
  else if b <? 0xC2 then xx
  else if b <? 0xE0 then s1
  else if b =? 0xE0 then s2
  else if b <? 0xED then s3
  else if b =? 0xED then s4
  else if b <? 0xF0 then s3
  else if b =? 0xF0 then s5
  else if b <? 0xF4 then s6
  else if b =? 0xF4 then s7
  else xx.

(** [acceptRanges]: bounds of the second byte. *)
Definition acceptRanges (i : Z) : Z * Z :=
  if i =? 0 then (locb, hicb)
  else if i =? 1 then (0xA0, hicb)
  else if i =? 2 then (locb, 0x9F)
  else if i =? 3 then (0x90, hicb)
  else if i =? 4 then (locb, 0x8F)
  else (0, 0).

Definition maskx : Z := 0x3F.
Definition mask2 : Z := 0x1F.
Definition mask3 : Z := 0x0F.
Definition mask4 : Z := 0x07.

(** [utf8.DecodeRuneInString]: the first rune of [s] and its width. *)
Definition DecodeRuneInString (s : string) : Z * nat :=
  match s with
  | EmptyString => (RuneError, 0%nat)
  | String c0 t =>
      let s0 := byte_val c0 in
      let x := first s0 in
      if as_ <=? x then
        (* mask := rune(x) << 31 >> 31: all ones exactly when bit 0 is set *)
        let mask := if Z.testbit x 0 then (-1) else 0 in
        (Z.lor (Z.land s0 (Z.lnot mask)) (Z.land RuneError mask), 1%nat)
      else
        let sz := Z.land x 7 in
        let accept := acceptRanges (Z.shiftr x 4) in
        match t with
        | EmptyString => (RuneError, 1%nat)
        | String c1 t1 =>
            let b1 := byte_val c1 in
            if (b1 <? accept.1) || (accept.2 <? b1) then (RuneError, 1%nat)
            else if sz <=? 2 then
              (Z.lor (Z.shiftl (Z.land s0 mask2) 6) (Z.land b1 maskx), 2%nat)
            else
              match t1 with
              | EmptyString => (RuneError, 1%nat)
              | String c2 t2 =>
                  let b2 := byte_val c2 in
                  if (b2 <? locb) || (hicb <? b2) then (RuneError, 1%nat)
                  else if sz <=? 3 then
                    (Z.lor (Z.lor (Z.shiftl (Z.land s0 mask3) 12)
                                  (Z.shiftl (Z.land b1 maskx) 6))
                           (Z.land b2 maskx), 3%nat)
                  else
                    match t2 with
                    | EmptyString => (RuneError, 1%nat)
                    | String c3 _ =>
                        let b3 := byte_val c3 in
                        if (b3 <? locb) || (hicb <? b3) then (RuneError, 1%nat)
                        else
                          (Z.lor (Z.lor (Z.lor (Z.shiftl (Z.land s0 mask4) 18)
                                               (Z.shiftl (Z.land b1 maskx) 12))
                                        (Z.shiftl (Z.land b2 maskx) 6))
                                 (Z.land b3 maskx), 4%nat)
                    end
              end
        end
  end.

Definition chr (n : Z) : ascii := ascii_of_N (Z.to_N n).

(** [utf8.AppendRune]: the UTF-8 bytes of a rune; surrogates and values
    out of range are written as [RuneError]. *)
Definition EncodeRune (r : Z) : string :=
  let enc3 (r : Z) :=
    String (chr (Z.lor 0xE0 (Z.shiftr r 12)))
      (String (chr (Z.lor 0x80 (Z.land (Z.shiftr r 6) maskx)))
         (str1 (chr (Z.lor 0x80 (Z.land r maskx))))) in
  if (r <? 0) then enc3 RuneError
  else if r <=? 0x7F then str1 (chr r)
  else if r <=? 0x7FF then
    String (chr (Z.lor 0xC0 (Z.shiftr r 6)))
      (str1 (chr (Z.lor 0x80 (Z.land r maskx))))
  else if (0x10FFFF <? r) || ((0xD800 <=? r) && (r <=? 0xDFFF)) then
    enc3 RuneError
  else if r <=? 0xFFFF then enc3 r
  else
    String (chr (Z.lor 0xF0 (Z.shiftr r 18)))
      (String (chr (Z.lor 0x80 (Z.land (Z.shiftr r 12) maskx)))
         (String (chr (Z.lor 0x80 (Z.land (Z.shiftr r 6) maskx)))
            (str1 (chr (Z.lor 0x80 (Z.land r maskx)))))).

End utf8.

(** ** package encoding/json, strings only *)
Module json.

Definition hex : string := "0123456789abcdef".

Definition hex_at (i : Z) : ascii :=
  match String.get (Z.to_nat i) hex with
  | Some c => c
  | None => "0"%char
  end.

(** [htmlSafeSet]: the ASCII bytes written without escaping when HTML
    escaping is on, as it is for [json.Marshal]. *)
Definition htmlSafeSet (b : Z) : bool :=
  (0x20 <=? b) && (b <=? 0x7F)
  && negb ((b =? 0x22) || (b =? 0x5C) || (b =? 0x3C) || (b =? 0x3E) || (b =? 0x26)).

(** The escape written for an ASCII byte outside [htmlSafeSet], as in
    the Go releases of the time of this code; later releases write
    backspace and form feed as [\b] and [\f] instead of [\u0008] and
    [\u000c], which decode to the same bytes. *)
Definition escapeByte (c : ascii) : string :=
  let b := byte_val c in
  if (b =? 0x5C) || (b =? 0x22) then String backslash (str1 c)
  else if b =? 0x0A then String backslash "n"
  else if b =? 0x0D then String backslash "r"
  else if b =? 0x09 then String backslash "t"
  else String backslash
         ("u00" ++ String (hex_at (Z.shiftr b 4)) (str1 (hex_at (Z.land b 0xF)))).

(** The loop of [encodeState.string] with [escapeHTML = true].  The Go
    loop advances its index by the width of the rune it has just
    decoded; here [keep] counts the continuation bytes of a valid rune
    still to be copied and [drop] those of a rune already replaced by
    an escape. *)
Fixpoint encodeString_loop (keep drop : nat) (s : string) : string :=
  match s with
  | EmptyString => ""
  | String c t =>
      match keep, drop with
      | S k, _ => String c (encodeString_loop k drop t)
      | O, S d => encodeString_loop O d t
      | O, O =>
          let b := byte_val c in
          if b <? utf8.RuneSelf then
            (if htmlSafeSet b then str1 c else escapeByte c)
              ++ encodeString_loop O O t
          else
            let '(r, size) := utf8.DecodeRuneInString s in
            if (r =? utf8.RuneError) && (size =? 1)%nat then
              String backslash "ufffd" ++ encodeString_loop O O t
            else if (r =? 0x2028) || (r =? 0x2029) then
              String backslash ("u202" ++ str1 (hex_at (Z.land r 0xF)))
                ++ encodeString_loop O (size - 1) t
            else String c (encodeString_loop (size - 1) O t)
      end
  end.

(** [json.Marshal] of a Go string: the quoted, escaped literal.  It
    never fails. *)
Definition Marshal_string (s : string) : string :=
  String dquote (encodeString_loop O O s ++ str1 dquote).

Definition unhex (c : ascii) : option Z :=
  let b := byte_val c in
  if (0x30 <=? b) && (b <=? 0x39) then Some (b - 0x30)
  else if (0x61 <=? b) && (b <=? 0x66) then Some (b - 0x61 + 10)
  else if (0x41 <=? b) && (b <=? 0x46) then Some (b - 0x41 + 10)
  else None.

(** [getu4]: the value of four hexadecimal digits. *)
Definition getu4 (h1 h2 h3 h4 : ascii) : option Z :=
  match unhex h1, unhex h2, unhex h3, unhex h4 with
  | Some a, Some b, Some c, Some d => Some (((a * 16 + b) * 16 + c) * 16 + d)
  | _, _, _, _ => None
  end.

Definition IsSurrogate (r : Z) : bool := (0xD800 <=? r) && (r <? 0xE000).

(** [utf16.DecodeRune]. *)
Definition utf16_DecodeRune (r1 r2 : Z) : Z :=
  if (0xD800 <=? r1) && (r1 <? 0xDC00) && (0xDC00 <=? r2) && (r2 <? 0xE000)
  then Z.lor (Z.shiftl (r1 - 0xD800) 10) (r2 - 0xDC00) + 0x10000
  else utf8.RuneError.

(** The character a one-letter escape stands for. *)
Definition simpleEscape (e : ascii) : option ascii :=
  let b := byte_val e in
  if (b =? 0x22) || (b =? 0x5C) || (b =? 0x2F) then Some e
  else if b =? 0x62 then Some "008"%char
  else if b =? 0x66 then Some "012"%char
  else if b =? 0x6E then Some "010"%char
  else if b =? 0x72 then Some "013"%char
  else if b =? 0x74 then Some "009"%char
  else None.

(** Decoding of the inside of a JSON string literal up to its closing
    quote, which must be the last byte ([unquoteBytes] of the decoder):
    an unescaped control character, an unknown or cut escape, or a
    missing closing quote make it fail. *)
Fixpoint unquote_loop (keep : nat) (s : string) : option string :=
  match s with
  | EmptyString => None
  | String c t =>
      match keep with
      | S k => String c <$> unquote_loop k t
      | O =>
          let b := byte_val c in
          if b =? 0x22 then
            match t with EmptyString => Some "" | _ => None end
          else if b =? 0x5C then
            match t with
            | EmptyString => None
            | String e t1 =>
                match simpleEscape e with
                | Some ch => String ch <$> unquote_loop O t1
                | None =>
                    if byte_val e =? 0x75 then
                      match t1 with
                      | String h1 (String h2 (String h3 (String h4 t2))) =>
                          match getu4 h1 h2 h3 h4 with
                          | None => None
                          | Some rr =>
                              if IsSurrogate rr then
                                match t2 with
                                | String b0 (String u0 (String g1 (String g2
                                    (String g3 (String g4 t3))))) =>
                                    match
                                      (if (byte_val b0 =? 0x5C) && (byte_val u0 =? 0x75)
                                       then getu4 g1 g2 g3 g4 else None)
                                    with
                                    | Some rr1 =>
                                        let dec := utf16_DecodeRune rr rr1 in
                                        if dec =? utf8.RuneError then
                                          String.app (utf8.EncodeRune utf8.RuneError)
                                            <$> unquote_loop O t2
                                        else
                                          String.app (utf8.EncodeRune dec)
                                            <$> unquote_loop O t3
                                    | None =>
                                        String.app (utf8.EncodeRune utf8.RuneError)
                                          <$> unquote_loop O t2
                                    end
                                | _ =>
                                    String.app (utf8.EncodeRune utf8.RuneError)
                                      <$> unquote_loop O t2
                                end
                              else String.app (utf8.EncodeRune rr) <$> unquote_loop O t2
                          end
                      | _ => None
                      end
                    else None
                end
            end
          else if b <? 0x20 then None
          else if b <? utf8.RuneSelf then String c <$> unquote_loop O t
          else
            let '(r, size) := utf8.DecodeRuneInString s in
            if (r =? utf8.RuneError) && (size =? 1)%nat then
              String.app (utf8.EncodeRune utf8.RuneError) <$> unquote_loop O t
            else String c <$> unquote_loop (size - 1) t
      end
  end.

(** Decoding of a complete JSON string literal, quotes included. *)
Definition Unquote (lit : string) : option string :=
  match lit with
  | String q body => if Ascii.eqb q dquote then unquote_loop O body else None
  | EmptyString => None
  end.

End json.

(** Embedding an escaped literal back between quotes and decoding it:
    the reading of the slot [escapeJSON] fills in the harness. *)
Definition decodeEmbedded (escaped : string) : option string :=
  json.Unquote (String dquote (escaped ++ str1 dquote)).

(** ** package path/filepath (Unix) *)
Module filepath.

Definition slash : ascii := "/"%char.

(** The elements of a path between its separators. *)
Fixpoint split (s : string) : list string :=
  match s with
  | EmptyString => [""]
  | String c t =>
      if Ascii.eqb c slash then "" :: split t
      else match split t with
           | h :: r => String c h :: r
           | [] => [str1 c]
           end
  end.

(** One step of [Clean] over the elements kept so far, innermost first:
    a [..] removes the element before it, is dropped at the root and is
    kept at the start of a relative path. *)
Definition clean_step (rooted : bool) (kept : list string) (elem : string)
  : list string :=
  if String.eqb elem "" || String.eqb elem "." then kept
  else if String.eqb elem ".." then
    match kept with
    | top :: rest => if String.eqb top ".." then elem :: kept else rest
    | [] => if rooted then [] else [elem]
    end
  else elem :: kept.

(** [filepath.Clean]. *)
Definition Clean (path : string) : string :=
  let rooted := String.prefix "/" path in
  let kept := fold_left (clean_step rooted) (split path) [] in
  let body := strings.Join (rev kept) "/" in
  if rooted then "/" ++ body
  else if String.eqb body "" then "." else body.

(** [filepath.Join]: the elements from the first non-empty one on,
    separated by slashes, cleaned; the empty string when there is none. *)
Fixpoint Join (elem : list string) : string :=
  match elem with
  | [] => ""
  | e :: rest => if String.eqb e "" then Join rest
                 else Clean (strings.Join elem "/")
  end.

End filepath.

(** ** package time *)
Module time.
Definition Nanosecond : Z := 1.
Definition Microsecond : Z := 1000 * Nanosecond.
Definition Millisecond : Z := 1000 * Microsecond.
Definition Second : Z := 1000 * Millisecond.
Definition Minute : Z := 60 * Second.
End time.

(** ** package reflect *)
Module reflect.

Inductive Kind :=
| Invalid | Bool | Int | Int8 | Int16 | Int32 | Int64
| Uint | Uint8 | Uint16 | Uint32 | Uint64 | Uintptr
| Float32 | Float64 | Complex64 | Complex128
| Array | Chan | Func | Interface | Map | Pointer | Slice
| String | Struct | UnsafePointer.

#[global] Instance Kind_eq_dec : EqDecision Kind.
Proof. solve_decision. Defined.

(** A type descriptor, as far as this package looks at it. *)
Record rtype := { type_kind : Kind; type_name : string }.

(** An [interface{}] value: the nil interface, or a dynamic type and
    the data word. *)
Inductive eface :=
| nil
| iface (typ : rtype) (data : Z).

(** [reflect.TypeOf]: the dynamic type, [None] (a nil [Type]) for the
    nil interface. *)
Definition TypeOf (v : eface) : option rtype :=
  match v with
  | nil => None
  | iface t _ => Some t
  end.

End reflect.

(** ** The data of the packages *)

(** Modelled from the spec: the interface [script.Executable] and its
    variants [script.Expression] (the source text of a function body) and
    [script.Package] (the name of an installable package) are declared in
    package [script]; both are converted with [string(e)] here.
    [OtherExecutable] stands for a value of any other dynamic type, with
    the name [%T] prints. *)
Inductive Executable :=
| Expression (src : string)
| Package (name : string)
| OtherExecutable (type_name : string).

Definition executableScriptName : string := "main.cjs".
Definition node : string := "node".
Definition npm : string := "npm".

Record scriptTemplateValues := {
  tv_Executable : string;
  tv_Variables : string;
  tv_Includes : string;
}.

Record factory := { packages : gmap string string }.

Record packageJSON := {
  Main : string;
  Dependencies : gmap string string;
}.

(** Modelled from the spec: [ipc.StdIO], declared in package [ipc], the
    description of the process handed to the governor, with the three
    fields [CreateScript] sets. *)
Record StdIO := {
  io_Dir : string;
  io_Path : string;
  io_Args : list string;
}.

(** Modelled from the spec: [Script], declared in another file of the
    package, with the two fields [CreateScript] sets: the governor
    (described by the process it governs) and the provisioned
    directory. *)
Record Script := {
  governor : StdIO;
  dir : string;
}.

(** [exec.Cmd] as built by [exec.CommandContext]: the deadline of the
    context in nanoseconds, the program, its arguments after the program
    name, and the working directory. *)
Record Cmd := {
  cmd_timeout : Z;
  cmd_name : string;
  cmd_args : list string;
  cmd_Dir : string;
}.

(** What [escapeJSON] is called on: a string or a variable map. *)
Inductive jsonArg :=
| JString (s : string)
| JMap (m : gmap string reflect.eface).

(** ** The world outside the process *)

Inductive Node :=
| Dir
| File (content : string).

(** The calls to the operating system, as recorded in the trace. *)
Inductive Event :=
| EvLookPath (file : string)
| EvRemoveAll (path : string)
| EvMkdirAll (path : string)
| EvCreate (path : string)
| EvWrite (path data : string)
| EvOpen (path : string)
| EvRead (path : string)
| EvClose (path : string)
| EvRun (c : Cmd)
| EvGovern (p : StdIO).

(** A child process: how long it runs, how it exits ([None] for status
    0), and the file system it leaves when stopped after a given time. *)
Record Process := {
  runtime : Z;
  exit : error;
  effect : Z -> gmap string Node;
}.

(** The state: the file system by cleaned path, the Go maps by address,
    and the calls made so far, oldest first. *)
Record World := {
  fs : gmap string Node;
  maps : gmap nat (gmap string reflect.eface);
  trace : list Event;
}.

(** What the code does not decide: the search path, the temporary
    directory, the generated UUID, failures of system calls, the number
    from which the visiting order of a [range] over a map is drawn (it
    may differ at every point of the run, so it is given for the calls
    made so far), the behaviour of child processes, the JSON decoder and
    encoder of the standard library on manifests and variable maps, the
    embedded template [script.js] and the governor. *)
Record Env := {
  path_lookup : string -> error;
  TempDir : string;
  NewV4 : string;
  io_fault : Event -> error;
  range_seed : list Event -> nat;
  spawn : Cmd -> gmap string Node -> Process;
  decode_packageJSON : string -> packageJSON * error;
  Marshal_map : gmap string reflect.eface -> string * error;
  scriptTemplate_Execute : scriptTemplateValues -> string * error;
  Govern : StdIO -> gmap string Node -> error;
}.

(** ** The monad of effects: state and panics *)

Inductive outcome (A : Type) :=
| Ret (a : A)
| Panic (msg : string).
Arguments Ret {A} a.
Arguments Panic {A} msg.

Definition M (A : Type) : Type := World -> outcome A * World.

Definition ret {A} (a : A) : M A := fun w => (Ret a, w).

Definition bind {A B} (m : M A) (k : A -> M B) : M B :=
  fun w =>
    match m w with
    | (Ret a, w') => k a w'
    | (Panic msg, w') => (Panic msg, w')
    end.

Definition panic {A} (msg : string) : M A := fun w => (Panic msg, w).

Notation "'let*' x ':=' m 'in' k" := (bind m (fun x => k))
  (at level 10, x pattern, m at level 100, k at level 200).

Definition log (e : Event) : M unit :=
  fun w => (Ret tt, {| fs := fs w; maps := maps w; trace := (trace w ++ [e])%list |}).

Definition get_fs : M (gmap string Node) := fun w => (Ret (fs w), w).

Definition put_fs (s : gmap string Node) : M unit :=
  fun w => (Ret tt, {| fs := s; maps := maps w; trace := trace w |}).

Definition get_maps : M (gmap nat (gmap string reflect.eface)) :=
  fun w => (Ret (maps w), w).

Definition put_maps (h : gmap nat (gmap string reflect.eface)) : M unit :=
  fun w => (Ret tt, {| fs := fs w; maps := h; trace := trace w |}).

Definition nil_dereference : string :=
  "runtime error: invalid memory address or nil pointer dereference".

(** ** The order of a [range] over a map *)

(** Go does not specify the order in which a [range] visits the entries
    of a map, and the order differs between runs.  [visiting_order]
    draws an order from a number: the entry at the position the number
    selects is visited first, and the rest in the order drawn from what
    is left of the number. *)
Fixpoint pick_order {A} (fuel seed : nat) (l : list A) : list A :=
  match fuel with
  | O => []
  | S fuel' =>
      match l !! (seed mod length l)%nat with
      | Some x =>
          x :: pick_order fuel' (seed / length l)%nat
                 (delete (seed mod length l)%nat l)
      | None => []
      end
  end.

Definition visiting_order {A} (seed : nat) (l : list A) : list A :=
  pick_order (length l) seed l.

(** ** Paths and their parents *)

Fixpoint drop_while {A} (P : A -> bool) (l : list A) : list A :=
  match l with
  | [] => []
  | x :: t => if P x then drop_while P t else l
  end.

Definition is_separator (c : ascii) : bool := Ascii.eqb c "/".

(** The parent [os.MkdirAll] computes for a path: trailing separators
    and then the last element are dropped, and what is left without its
    last separator is the parent; there is none when at most one byte is
    left, which is the root or the working directory. *)
Definition parent (path : string) : option string :=
  match drop_while (fun c => negb (is_separator c))
          (drop_while is_separator (rev (list_ascii_of_string path))) with
  | _ :: (_ :: _) as rest => Some (string_of_list_ascii (rev rest))
  | _ => None
  end.

(** The parents of a path, the nearest first. *)
Fixpoint lineage (fuel : nat) (path : string) : list string :=
  match fuel with
  | O => []
  | S fuel' =>
      match parent path with
      | Some p => p :: lineage fuel' p
      | None => []
      end
  end.

Definition ancestors (path : string) : list string :=
  lineage (String.length path) path.

(** The error of making an entry at [path], by the state of the
    directory that is to hold it: that directory has to exist.  The root
    and the working directory always do. *)
Definition holder_error (op path : string) (s : gmap string Node) : error :=
  if String.eqb path "" then Some (op ++ " " ++ path ++ ": no such file or directory")
  else
    match parent path with
    | None => None
    | Some p =>
        match s !! p with
        | Some Dir => None
        | Some (File _) => Some (op ++ " " ++ path ++ ": not a directory")
        | None => Some (op ++ " " ++ path ++ ": no such file or directory")
        end
    end.

(** [os.Mkdir] on a file system. *)
Definition Mkdir (path : string) (s : gmap string Node)
  : gmap string Node * error :=
  match s !! path with
  | Some _ => (s, Some ("mkdir " ++ path ++ ": file exists"))
  | None =>
      match holder_error "mkdir" path s with
      | Some e => (s, Some e)
      | None => (<[path := Dir]> s, None)
      end
  end.

(** The recursion of [os.MkdirAll] on a path followed by its parents: a
    directory that exists ends it, a file in its place is an error, and
    otherwise the parents are made first and then the directory itself;
    when making it fails and it is there all the same, there is no
    error. *)
Fixpoint MkdirAll_from (chain : list string) (s : gmap string Node)
  : gmap string Node * error :=
  match chain with
  | [] => (s, None)
  | path :: parents =>
      match s !! path with
      | Some Dir => (s, None)
      | Some (File _) => (s, Some ("mkdir " ++ path ++ ": not a directory"))
      | None =>
          match MkdirAll_from parents s with
          | (s1, Some e) => (s1, Some e)
          | (s1, None) =>
              match Mkdir path s1 with
              | (s2, Some e) =>
                  match s2 !! path with
                  | Some Dir => (s2, None)
                  | _ => (s2, Some e)
                  end
              | (s2, None) => (s2, None)
              end
          end
      end
  end.

(** ** System calls *)
Section OS.

Variable E : Env.

(** [exec.LookPath]. *)
Definition LookPath (file : string) : M error :=
  let* _ := log (EvLookPath file) in
  ret (path_lookup E file).

(** Is [p] the path [root] or a path below it? *)
Definition under (root p : string) : bool :=
  String.eqb p root || String.prefix (root ++ "/") p.

(** [os.RemoveAll]: removes the path and everything below it; a path
    that does not exist is not an error. *)
Definition RemoveAll (path : string) : M error :=
  let* _ := log (EvRemoveAll path) in
  match io_fault E (EvRemoveAll path) with
  | Some e => ret (Some e)
  | None =>
      let* s := get_fs in
      let* _ := put_fs (filter (fun kv => under path kv.1 = false) s) in
      ret None
  end.

(** [os.MkdirAll]: the directory and every missing parent of it are
    made; what was made before an error stays. *)
Definition MkdirAll (path : string) : M error :=
  let* _ := log (EvMkdirAll path) in
  match io_fault E (EvMkdirAll path) with
  | Some e => ret (Some e)
  | None =>
      let* s := get_fs in
      let '(s', err) := MkdirAll_from (path :: ancestors path) s in
      let* _ := put_fs s' in
      ret err
  end.

(** [os.Create]: a file that exists is truncated, and a new one is
    created in a directory that exists.  A file handle is modelled by
    the path it was opened on, the nil handle by the empty path. *)
Definition Create (path : string) : M (string * error) :=
  let* _ := log (EvCreate path) in
  match io_fault E (EvCreate path) with
  | Some e => ret ("", Some e)
  | None =>
      let* s := get_fs in
      match s !! path with
      | Some Dir => ret ("", Some ("open " ++ path ++ ": is a directory"))
      | Some (File _) => let* _ := put_fs (<[path := File ""]> s) in ret (path, None)
      | None =>
          match holder_error "open" path s with
          | Some e => ret ("", Some e)
          | None => let* _ := put_fs (<[path := File ""]> s) in ret (path, None)
          end
      end
  end.

(** [File.Write]. *)
Definition Write (file data : string) : M error :=
  let* _ := log (EvWrite file data) in
  match io_fault E (EvWrite file data) with
  | Some e => ret (Some e)
  | None =>
      let* s := get_fs in
      match s !! file with
      | Some (File old) =>
          let* _ := put_fs (<[file := File (old ++ data)]> s) in ret None
      | _ => ret (Some ("write " ++ file ++ ": bad file descriptor"))
      end
  end.

(** [os.Open]. *)
Definition Open (path : string) : M (string * error) :=
  let* _ := log (EvOpen path) in
  match io_fault E (EvOpen path) with
  | Some e => ret ("", Some e)
  | None =>
      let* s := get_fs in
      match s !! path with
      | Some _ => ret (path, None)
      | None => ret ("", Some ("open " ++ path ++ ": no such file or directory"))
      end
  end.

(** Reading an open file to its end ([ioutil.ReadAll], or the reads of
    a JSON decoder). *)
Definition ReadAll (file : string) : M (string * error) :=
  let* _ := log (EvRead file) in
  match io_fault E (EvRead file) with
  | Some e => ret ("", Some e)
  | None =>
      let* s := get_fs in
      match s !! file with
      | Some (File content) => ret (content, None)
      | Some Dir => ret ("", Some ("read " ++ file ++ ": is a directory"))
      | None => ret ("", Some ("read " ++ file ++ ": file already closed"))
      end
  end.

(** Modelled from the spec: [closeQuietly] is defined in another file of
    the package; it is taken to close the file and to report nothing to
    its caller. *)
Definition closeQuietly (file : string) : M unit := log (EvClose file).

(** [Cmd.Run] of a command built by [exec.CommandContext]: the
    process is killed when it outlives the deadline of the context;
    otherwise the error is the exit of the process. *)
Definition Run (c : Cmd) : M error :=
  let* _ := log (EvRun c) in
  match io_fault E (EvRun c) with
  | Some e => ret (Some e)
  | None =>
      let* s := get_fs in
      let p := spawn E c s in
      if cmd_timeout c <? runtime p then
        let* _ := put_fs (effect p (cmd_timeout c)) in
        ret (Some "signal: killed")
      else
        let* _ := put_fs (effect p (runtime p)) in
        ret (exit p)
  end.

(** [ipc.Govern]. *)
Definition ipc_Govern (process : StdIO) : M (option StdIO * error) :=
  let* _ := log (EvGovern process) in
  let* s := get_fs in
  match Govern E process s with
  | Some e => ret (None, Some e)
  | None => ret (Some process, None)
  end.

(** [Template.Execute] of [scriptTemplate] on a file: the
    rendered text is written, and the error is that of the writing or
    of the rendering. *)
Definition Execute (file : string) (values : scriptTemplateValues) : M error :=
  let '(text, err) := scriptTemplate_Execute E values in
  let* werr := Write file text in
  match werr with
  | Some e => ret (Some e)
  | None => ret err
  end.

(** [make(map[string]interface{})]: a new, empty map at a fresh
    address. *)
Definition make_map : M nat :=
  let* h := get_maps in
  let l := fresh (dom h) in
  let* _ := put_maps (<[l := ∅]> h) in
  ret l.

(** [m[key] = value]. *)
Definition map_store (m : nat) (key : string) (value : reflect.eface) : M unit :=
  let* h := get_maps in
  put_maps (<[m := <[key := value]> (default ∅ (h !! m))]> h).

(** The entries of a map, [nil] having none. *)
Definition map_entries (m : option nat) : M (gmap string reflect.eface) :=
  let* h := get_maps in
  ret (default ∅ (m ≫= fun l => h !! l)).

(** The entries of a map in the order in which a [range] that starts
    now visits them. *)
Definition range_over {A} (m : gmap string A) : M (list (string * A)) :=
  fun w => (Ret (visiting_order (range_seed E (trace w)) (map_to_list m)), w).

End OS.

(** ** package node *)

(** [Factory()]: the harness-support packages and their versions. *)
Definition Factory : factory :=
  {| packages := <["node-fetch" := "2"]> (<["vm2" := "3"]> ∅) |}.

Definition packageJSONPath (dir : string) : string :=
  filepath.Join [dir; "package.json"].

(** [fmt]'s [%v] of a slice of strings. *)
Definition fmt_v (l : list string) : string :=
  "[" ++ strings.Join l " " ++ "]".

Definition type_of_executable (executable : Executable) : string :=
  match executable with
  | Expression _ => "script.Expression"
  | Package _ => "script.Package"
  | OtherExecutable t => t
  end.

Definition getDependencies (executable : Executable) : list string * error :=
  match executable with
  | Expression _ => ([], None)
  | Package e => ([e], None)
  | _ => ([], errors.Errorf ("unrecognized script executable "
                             ++ type_of_executable executable))
  end.

(** The token of one harness-support package on the command line. *)
Definition package_arg (name version : string) : string :=
  if negb (String.eqb version "") then name ++ "@" ++ version else name.

(** The loop of [installNodeModules] over the entries of [f.packages] in
    the order the [range] visits them. *)
Definition install_args_loop (entries : list (string * string))
    (args : list string) : list string :=
  fold_left (fun args nv => (args ++ [package_arg nv.1 nv.2])%list) entries args.

(** The loop of [getExpression] over the keys of the manifest's
    dependencies: those that are not harness-support packages. *)
Definition external_deps_loop (f : factory) (keys : list string)
    (dependencies : list string) : list string :=
  fold_left (fun deps dependency =>
               match packages f !! dependency with
               | Some _ => deps
               | None => (deps ++ [dependency])%list
               end) keys dependencies.

(** The text [getExpression] puts before and after an expression. *)
Definition expression_head : string :=
  strings.Join
    [""; "module.exports = async (event) => {"; "  let $ = event";
     "  let _ = event"; "// expression start //"; ""] (str1 newline).

Definition expression_tail : string :=
  strings.Join [""; "// expression end //"; "}"] (str1 newline).

Definition not_in_PATH : string :=
  " is not in $PATH. Please make sure that node and npm is installed and available in $PATH.".

Definition index_out_of_range_0 : string :=
  "runtime error: index out of range [0] with length 0".

Notation "'if_err' err 'return' r ';' k" :=
  (match err with Some _ => ret r | None => k end)
  (at level 10, err at level 9, r at level 100, k at level 200).

Section Node.

Variable E : Env.

Definition escapeJSON (value : jsonArg) : string :=
  let data :=
    match value with
    | JString s => json.Marshal_string s
    | JMap m => (Marshal_map E m).1
    end in
  strings.Trim data dquote.

Definition readPackageJSON (dir : string) : M (option packageJSON * error) :=
  let* (file, err) := Open E (packageJSONPath dir) in
  if_err err return (None, errors.Wrap err "open package.json");
  let* (content, rerr) := ReadAll E file in
  let '(data, derr) :=
    match rerr with
    | Some _ => ({| Main := ""; Dependencies := ∅ |}, rerr)
    | None => decode_packageJSON E content
    end in
  let* _ := closeQuietly file in
  if_err derr return (None, errors.Wrap derr "decode package.json");
  ret (Some data, None).

Definition createPackageJSON (dir : string) : M error :=
  let* (file, err) := Create E (packageJSONPath dir) in
  if_err err return (errors.Wrapf err ("create package.json in '" ++ dir ++ "'"));
  let* werr := Write E file "{}" in
  let* _ := closeQuietly file in
  if_err werr return (errors.Wrapf werr ("write to package.json in '" ++ dir ++ "'"));
  ret None.

(** The body of the loop of [sanitizeVariables] over the entries of
    [vars] in the order the [range] visits them; [variables] is the
    address of the map being filled. *)
Fixpoint sanitize_loop (variables : nat)
    (entries : list (string * reflect.eface)) : M unit :=
  match entries with
  | [] => ret tt
  | (key, value) :: rest =>
      match reflect.TypeOf value with
      | None => panic nil_dereference
      | Some t =>
          let* _ :=
            if decide (reflect.type_kind t = reflect.Func) then ret tt
            else map_store variables key value in
          sanitize_loop variables rest
      end
  end.

Definition sanitizeVariables (vars : option nat) : M nat :=
  let* variables := make_map in
  let* entries := map_entries vars in
  let* _ := sanitize_loop variables (map_to_list entries) in
  ret variables.

Definition installNodeModules (f : factory) (dir : string)
    (modules : list string) : M error :=
  let* entries := range_over E (packages f) in
  let args := install_args_loop entries ["install"] in
  let args := (args ++ modules)%list in
  Run E {| cmd_timeout := 2 * time.Minute; cmd_name := npm;
           cmd_args := args; cmd_Dir := dir |}.

Definition getExpression (f : factory) (dir : string)
    (executable : Executable) : M (string * error) :=
  match executable with
  | Expression e => ret (expression_head ++ e ++ expression_tail, None)
  | Package _ =>
      let* (pj, err) := readPackageJSON dir in
      if_err err return ("", errors.Wrap err "read runtime package.json");
      match pj with
      | None => panic nil_dereference
      | Some pj =>
          let dependencies :=
            external_deps_loop f (map_to_list (Dependencies pj)).*1 [] in
          if (1 <? length dependencies)%nat then
            ret ("", errors.Wrapf err ("multiple external dependencies found: "
                                       ++ fmt_v dependencies))
          else
            match dependencies with
            | [] => panic index_out_of_range_0
            | packageName :: _ =>
                let packageDir := filepath.Join [dir; "node_modules"; packageName] in
                let* (pj, err) := readPackageJSON packageDir in
                if_err err return ("", errors.Wrap err "read package.json main field");
                match pj with
                | None => panic nil_dereference
                | Some pj =>
                    if String.eqb (Main pj) "" then
                      ret ("", errors.Errorf ("package.json main for "
                                              ++ packageName ++ " is empty"))
                    else
                      let* (main, err) := Open E (filepath.Join [packageDir; Main pj]) in
                      if_err err return ("", errors.Wrap err "open main file");
                      let* (data, err) := ReadAll E main in
                      let* _ := closeQuietly main in
                      if_err err return ("", errors.Wrap err "read main file");
                      ret (data, None)
                end
            end
      end
  | _ => ret ("", errors.Errorf ("unrecognized executable "
                                 ++ type_of_executable executable))
  end.

Definition CreateScript (f : factory) (executable : Executable)
    (variables : option nat) (includes : list string)
  : M (option Script * error) :=
  let* err := LookPath E node in
  if_err err return (None, errors.Wrapf err (node ++ not_in_PATH));
  let* err := LookPath E npm in
  if_err err return (None, errors.Wrapf err (npm ++ not_in_PATH));
  let dir := filepath.Join [TempDir E; "jitsu-nodejs-" ++ NewV4 E] in
  let* err := RemoveAll E dir in
  if_err err return (None, errors.Wrapf err ("purge temp dir '" ++ dir ++ "'"));
  let* err := MkdirAll E dir in
  if_err err return (None, errors.Wrapf err ("create temp dir '" ++ dir ++ "'"));
  let* err := createPackageJSON dir in
  if_err err return (None, errors.Wrapf err ("create package.json in '" ++ dir ++ "'"));
  let '(dependencies, err) := getDependencies executable in
  if_err err return (None, errors.Wrap err "get dependencies");
  let* err := installNodeModules f dir dependencies in
  if_err err return (None, errors.Wrapf err ("install node modules in '" ++ dir ++ "'"));
  let scriptPath := filepath.Join [dir; executableScriptName] in
  let* (scriptFile, err) := Create E scriptPath in
  if_err err return (None, errors.Wrapf err ("create main script in '" ++ dir ++ "'"));
  let* (expression, err) := getExpression f dir executable in
  if_err err return (None, errors.Wrapf err "get executable expression");
  let* sanitized := sanitizeVariables variables in
  let* vars := map_entries (Some sanitized) in
  let* err :=
    Execute E scriptFile
      {| tv_Executable := escapeJSON (JString expression);
         tv_Includes := escapeJSON (JString (strings.Join includes
                                               (String newline (str1 newline))));
         tv_Variables := escapeJSON (JMap vars) |} in
  let* _ := closeQuietly scriptFile in
  if_err err return (None, errors.Wrapf err ("execute script template to '"
                                             ++ scriptPath ++ "'"));
  let process := {| io_Dir := dir; io_Path := node;
                    io_Args := ["--max-old-space-size=100"; executableScriptName] |} in
  let* (governor, err) := ipc_Govern E process in
  if_err err return (None, errors.Wrapf err "govern process");
  match governor with
  | None => panic nil_dereference
  | Some governor => ret (Some {| governor := governor; dir := dir |}, None)
  end.

End Node.

(** ** package handlers: the template-testing endpoint *)
Module handlers.

Definition StatusOK : Z := 200.
Definition StatusBadRequest : Z := 400.

(** [EvaluateTemplateRequest]; a nil [Object] is [None]. *)
Record EvaluateTemplateRequest := {
  Object : option (gmap string reflect.eface);
  Expression : string;
  Reformat : bool;
}.

(** [EvaluateTemplateResponse]; [Error] is the field serialised as
    [message]. *)
Record EvaluateTemplateResponse := {
  Result : string;
  Error : string;
  Format : string;
}.

(** What [c.JSON] is given as a body: the value [middleware.ErrResponse]
    builds from a message and an error (the function is declared in
    package [middleware] and kept as a constructor), or an
    [EvaluateTemplateResponse]. *)
Inductive Body :=
| ErrResponse (message : string) (err : error)
| Evaluated (resp : EvaluateTemplateResponse).

(** A call of [c.JSON]. *)
Record Response := {
  status : Z;
  body : Body;
}.

(** The collaborators of the handler: the binding of the request body by
    gin, the template engine of package [templates] and the table-name
    extractor of package [schema].  A call of the engine returns or
    panics. *)
Record Engine := {
  Template : Type;
  Value : Type;
  Extractor : Type;
  BindJSON : string -> EvaluateTemplateRequest * error;
  SmartParse : string -> string -> outcome (option Template * error);
  ProcessEvent : Template -> option (gmap string reflect.eface)
                 -> outcome (Value * error);
  Template_Format : Template -> string;
  ToJSON : Value -> outcome (string * error);
  NewTableNameExtractor : string -> outcome (option Extractor * error);
  Extract : Extractor -> option (gmap string reflect.eface)
            -> outcome (string * error);
  Extractor_Format : Extractor -> string;
}.

Definition Validate (etr : EvaluateTemplateRequest) : error :=
  match Object etr with
  | None => errors.New "'object' is required field"
  | Some _ =>
      if String.eqb (Expression etr) "" then
        errors.New "'expression' is required field"
      else None
  end.

Section Handler.

Variable T : Engine.

(** The deferred function of [evaluate]: a panic of the engine becomes
    an error and the result is emptied; [format] has not been assigned
    yet when the engine panics. *)
Definition recovered (r : string) : string * string * error :=
  ("", "", Some ("Error: " ++ r)).

Definition evaluate (req : EvaluateTemplateRequest)
  : string * string * error :=
  match SmartParse T "template evaluating" (Expression req) with
  | Panic r => recovered r
  | Ret (_, Some e) => ("", "", Some ("error parsing template: " ++ e))
  | Ret (None, None) => recovered nil_dereference
  | Ret (Some tmpl, None) =>
      match ProcessEvent T tmpl (Object req) with
      | Panic r => recovered r
      | Ret (_, Some e) =>
          ("", Template_Format T tmpl, Some ("error executing template: " ++ e))
      | Ret (resultObject, None) =>
          match ToJSON T resultObject with
          | Panic r => recovered r
          | Ret (_, Some e) => ("", Template_Format T tmpl, Some e)
          | Ret (jsonBytes, None) => (jsonBytes, Template_Format T tmpl, None)
          end
      end
  end.

Definition evaluateReformatted (req : EvaluateTemplateRequest)
  : outcome (string * string * error) :=
  match NewTableNameExtractor T (Expression req) with
  | Panic r => Panic r
  | Ret (_, Some e) => Ret ("", "", Some e)
  | Ret (None, None) => Panic nil_dereference
  | Ret (Some tableNameExtractor, None) =>
      match Extract T tableNameExtractor (Object req) with
      | Panic r => Panic r
      | Ret (res, err) => Ret (res, Extractor_Format T tableNameExtractor, err)
      end
  end.

(** [EventTemplateHandler]: the call of [c.JSON] it makes on a request
    body, or the panic that leaves it. *)
Definition EventTemplateHandler (raw : string) : outcome Response :=
  let '(req, err) := BindJSON T raw in
  match err with
  | Some _ =>
      Ret {| status := StatusBadRequest;
             body := ErrResponse "Failed to parse body" err |}
  | None =>
      match Validate req with
      | Some msg =>
          Ret {| status := StatusBadRequest; body := ErrResponse msg None |}
      | None =>
          match (if Reformat req then evaluateReformatted req
                 else Ret (evaluate req)) with
          | Panic r => Panic r
          | Ret (result, format, Some e) =>
              Ret {| status := StatusBadRequest;
                     body := Evaluated {| Result := result; Format := format;
                                          Error := e |} |}
          | Ret (result, format, None) =>
              Ret {| status := StatusOK;
                     body := Evaluated {| Result := result; Format := format;
                                          Error := "" |} |}
          end
      end
  end.

End Handler.

End handlers.

(** ** Vocabulary of the statements *)

(** The directory [CreateScript] provisions. *)
Definition script_dir (E : Env) : string :=
  filepath.Join [TempDir E; "jitsu-nodejs-" ++ NewV4 E].

(** The entries of a map in the order in which a [range] that starts in
    the world [w] visits them. *)
Definition visited {A} (E : Env) (w : World) (m : gmap string A)
  : list (string * A) :=
  visiting_order (range_seed E (trace w)) (map_to_list m).

(** A call that is not the run of a command. *)
Definition no_run (e : Event) : Prop :=
  match e with
  | EvRun _ => False
  | _ => True
  end.

(** A computation that only adds to the record of the calls made, and
    runs no command. *)
Definition quiet {A} (m : M A) : Prop :=
  ∀ w, ∃ evs, trace (m w).2 = (trace w ++ evs)%list ∧ Forall no_run evs.

(** The command [installNodeModules] runs for a given visiting order of
    the harness-support packages. *)
Definition install_cmd (entries : list (string * string)) (dir : string)
    (modules : list string) : Cmd :=
  {| cmd_timeout := 120000000000;
     cmd_name := "npm";
     cmd_args := ("install" :: map (fun nv => package_arg nv.1 nv.2) entries
                  ++ modules)%list;
     cmd_Dir := dir |}.

(** [CreateScript] gets as far as the installation: both programs are on
    the search path, the directory is purged and created, the empty
    manifest is written and the executable is of a known kind.  [w3] is
    the world in which the package manager is started. *)
Definition reaches_install (E : Env) (executable : Executable)
    (w w3 : World) : Prop :=
  ∃ wa wb w1 w2,
    LookPath E node w = (Ret None, wa) ∧
    LookPath E npm wa = (Ret None, wb) ∧
    RemoveAll E (script_dir E) wb = (Ret None, w1) ∧
    MkdirAll E (script_dir E) w1 = (Ret None, w2) ∧
    createPackageJSON E (script_dir E) w2 = (Ret None, w3) ∧
    (getDependencies executable).2 = None.

(** [CreateScript] gets as far as the rendering of the template: the
    installation succeeds, [main.cjs] is created and the user code
    [expression] is obtained, leaving the world [w6]. *)
Definition reaches_rendering (E : Env) (f : factory) (executable : Executable)
    (w : World) (expression : string) (w6 : World) : Prop :=
  ∃ w3 w4 w5,
    reaches_install E executable w w3 ∧
    installNodeModules E f (script_dir E) (getDependencies executable).1 w3
      = (Ret None, w4) ∧
    Create E (filepath.Join [script_dir E; executableScriptName]) w4
      = (Ret (filepath.Join [script_dir E; executableScriptName], None), w5) ∧
    getExpression E f (script_dir E) executable w5 = (Ret (expression, None), w6).

(** The dependencies of a manifest that are not harness-support
    packages. *)
Definition external_dependencies (f : factory) (pj : packageJSON) : gset string :=
  dom (Dependencies pj) ∖ dom (packages f).

(** ** Sample environments *)

(** A process that ends at once with the given exit and file system. *)
Definition finished (status : error) (s : gmap string Node) : Process :=
  {| runtime := 1000000000; exit := status; effect := fun _ => s |}.

(** A machine with both programs installed, no failing system call, a
    template that renders the user code, and the given package manager
    and manifest decoder. *)
Definition sampleEnv (sp : Cmd -> gmap string Node -> Process)
    (dec : string -> packageJSON * error) : Env :=
  {| path_lookup := fun _ => None;
     TempDir := "/tmp";
     NewV4 := "6ba7b810";
     io_fault := fun _ => None;
     range_seed := fun _ => 0%nat;
     spawn := sp;
     decode_packageJSON := dec;
     Marshal_map := fun _ => ("{}", None);
     scriptTemplate_Execute := fun v => ("module.exports = " ++ tv_Executable v, None);
     Govern := fun _ _ => None |}.

(** The same machine in a run in which every [range] draws its order
    from the given number. *)
Definition with_range_seed (seed : nat) (E : Env) : Env :=
  {| path_lookup := path_lookup E;
     TempDir := TempDir E;
     NewV4 := NewV4 E;
     io_fault := io_fault E;
     range_seed := fun _ => seed;
     spawn := spawn E;
     decode_packageJSON := decode_packageJSON E;
     Marshal_map := Marshal_map E;
     scriptTemplate_Execute := scriptTemplate_Execute E;
     Govern := Govern E |}.

Definition no_manifest : packageJSON := {| Main := ""; Dependencies := ∅ |}.

(** A package manager that installs nothing and exits with status 1. *)
Definition npm_fails (c : Cmd) (s : gmap string Node) : Process :=
  finished (Some "exit status 1") s.

(** A package manager that installs nothing and exits with status 0. *)
Definition npm_idle (c : Cmd) (s : gmap string Node) : Process :=
  finished None s.

(** A package manager that exits with status 0 after writing a manifest
    with two external dependencies into its working directory. *)
Definition npm_installs_two (c : Cmd) (s : gmap string Node) : Process :=
  finished None (<[filepath.Join [cmd_Dir c; "package.json"] := File "two"]> s).

Definition empty_world : World := {| fs := ∅; maps := ∅; trace := [] |}.

(** A manifest decoder given by a table: each text stands for the
    manifest it is decoded to. *)
Definition sample_decoder (text : string) : packageJSON * error :=
  if String.eqb text "two" then
    ({| Main := "";
        Dependencies := <["left-pad" := "1.3.0"]> (<["lodash" := "4"]>
                          (<["node-fetch" := "2"]> (<["vm2" := "3"]> ∅))) |}, None)
  else if String.eqb text "none" then
    ({| Main := "";
        Dependencies := <["node-fetch" := "2"]> (<["vm2" := "3"]> ∅) |}, None)
  else if String.eqb text "one" then
    ({| Main := "";
        Dependencies := <["left-pad" := "1.3.0"]>
                          (<["node-fetch" := "2"]> (<["vm2" := "3"]> ∅)) |}, None)
  else if String.eqb text "left-pad" then
    ({| Main := "index.js"; Dependencies := ∅ |}, None)
  else if String.eqb text "no-main" then
    ({| Main := ""; Dependencies := ∅ |}, None)
  else (no_manifest, Some "unexpected end of JSON input").

(** A provisioned directory [/srv] whose manifest has the given text and
    whose package [left-pad] has the given manifest text and entry
    point. *)
Definition provisioned (manifest pkg_manifest : string) : World :=
  {| fs := <["/srv" := Dir]>
             (<["/srv/package.json" := File manifest]>
                (<["/srv/node_modules/left-pad/package.json" := File pkg_manifest]>
                   (<["/srv/node_modules/left-pad/index.js"
                      := File "module.exports = (s) => s.padStart(5,'0')"]> ∅)));
     maps := ∅;
     trace := [] |}.

Definition funcType : reflect.rtype :=
  {| reflect.type_kind := reflect.Func; reflect.type_name := "func()" |}.
Definition stringType : reflect.rtype :=
  {| reflect.type_kind := reflect.String; reflect.type_name := "string" |}.

(** A world whose map at address 0 is the given variable bag. *)
Definition world_with_vars (vars : gmap string reflect.eface) : World :=
  {| fs := ∅; maps := <[0%nat := vars]> ∅; trace := [] |}.

(** The lines of a text. *)
Fixpoint lines (s : string) : list string :=
  match s with
  | EmptyString => [""]
  | String c t =>
      if Ascii.eqb c newline then "" :: lines t
      else match lines t with
           | h :: r => String c h :: r
           | [] => [str1 c]
           end
  end.

(** ** Vocabulary of the escaping lemmas *)

Fixpoint all_ascii (s : string) : bool :=
  match s with
  | EmptyString => true
  | String c t => (byte_val c <? utf8.RuneSelf) && all_ascii t
  end.

Fixpoint last_byte (s : string) : option ascii :=
  match s with
  | EmptyString => None
  | String c EmptyString => Some c
  | String _ t => last_byte t
  end.

Definition encode_ascii (c : ascii) : string :=
  if json.htmlSafeSet (byte_val c) then str1 c else json.escapeByte c.

Definition cons_opt (c : ascii) (o : option string) : option string :=
  match o with Some x => Some (String c x) | None => None end.

Definition app_opt (s : string) (o : option string) : option string :=
  match o with Some x => Some (s ++ x) | None => None end.

Definition first_byte (s : string) : option ascii :=
  match s with
  | EmptyString => None
  | String c _ => Some c
  end.

Definition ascii_roundtrip_result (s : string) : option string :=
  match last_byte s with
  | Some c => if Ascii.eqb c dquote then None else Some s
  | None => Some s
  end.

(** A sample engine for the handler: requests are recognised by their
    text, the template [{{.a}}] evaluates to a JSON string, the template
    [{{] does not parse. *)
Definition sampleEngine : handlers.Engine :=
  {| handlers.Template := string;
     handlers.Value := string;
     handlers.Extractor := string;
     handlers.BindJSON := fun raw =>
       if String.eqb raw "good" then
         ({| handlers.Object := Some ∅; handlers.Expression := "{{.a}}";
             handlers.Reformat := false |}, None)
       else if String.eqb raw "no-object" then
         ({| handlers.Object := None; handlers.Expression := "{{.a}}";
             handlers.Reformat := false |}, None)
       else if String.eqb raw "bad-template" then
         ({| handlers.Object := Some ∅; handlers.Expression := "{{";
             handlers.Reformat := false |}, None)
       else
         ({| handlers.Object := None; handlers.Expression := "";
             handlers.Reformat := false |}, Some "invalid character");
     handlers.SmartParse := fun _ expr =>
       if String.eqb expr "{{" then Ret (None, Some "unclosed action")
       else Ret (Some expr, None);
     handlers.ProcessEvent := fun tmpl _ => Ret ("<no value>", None);
     handlers.Template_Format := fun _ => "go";
     handlers.ToJSON := fun v => Ret (v, None);
     handlers.NewTableNameExtractor := fun expr => Ret (Some expr, None);
     handlers.Extract := fun ex _ => Ret (ex, None);
     handlers.Extractor_Format := fun _ => "go" |}.

(** The paths a trace reads from: every [EvOpen] and [EvRead]. *)
Definition paths_read (t : list Event) : list string :=
  flat_map (fun e => match e with
                     | EvOpen p | EvRead p => [p]
                     | _ => []
                     end) t.

(** A value whose runtime kind is [func]. *)
Definition is_func (v : reflect.eface) : Prop :=
  ∃ t, reflect.TypeOf v = Some t ∧ reflect.type_kind t = reflect.Func.

#[global] Instance is_func_dec v : Decision (is_func v).
Proof.
  refine (match v as v0 return Decision (is_func v0) with
          | reflect.nil => right _
          | reflect.iface t d =>
              match decide (reflect.type_kind t = reflect.Func) with
              | left H => left _
              | right H => right _
              end
          end); unfold is_func; cbn.
  - intros (t & Ht & _). discriminate Ht.
  - by exists t.
  - intros (t' & Ht & Hk). by injection Ht as <-.
Defined.

(** What one turn of the loop of [sanitizeVariables] does to the map
    being filled. *)
Definition sanitize_step (acc : gmap string reflect.eface)
    (kv : string * reflect.eface) : gmap string reflect.eface :=
  if decide (is_func kv.2) then acc else <[kv.1 := kv.2]> acc.


(** ** Vocabulary of the further properties *)

(** The world after the steps of [CreateScript] that come before the
    installation. *)
Definition after_provisioning (E : Env) (w : World) : World :=
  (createPackageJSON E (script_dir E)
     (MkdirAll E (script_dir E)
        (RemoveAll E (script_dir E)
           (LookPath E npm (LookPath E node w).2).2).2).2).2.

(** A machine on which a directory of the name about to be provisioned
    is left over from before. *)
Definition stale_world : World :=
  {| fs := <["/tmp/jitsu-nodejs-6ba7b810/node_modules/old/index.js" := File "stale"]>
             (<["/etc/hosts" := File "127.0.0.1 localhost"]> ∅);
     maps := ∅;
     trace := [] |}.

(** [CreateScript] gets as far as resolving the dependencies: both
    programs are found, the directory is purged and created and the empty
    manifest is written, leaving the world [w3]. *)
Definition reaches_resolution (E : Env) (w w3 : World) : Prop :=
  ∃ wa wb w1 w2,
    LookPath E node w = (Ret None, wa) ∧
    LookPath E npm wa = (Ret None, wb) ∧
    RemoveAll E (script_dir E) wb = (Ret None, w1) ∧
    MkdirAll E (script_dir E) w1 = (Ret None, w2) ∧
    createPackageJSON E (script_dir E) w2 = (Ret None, w3).

(** The process [CreateScript] hands to the governor. *)
Definition node_process (E : Env) : StdIO :=
  {| io_Dir := script_dir E; io_Path := "node";
     io_Args := ["--max-old-space-size=100"; "main.cjs"] |}.

(** The path of the rendered script. *)
Definition script_path (E : Env) : string :=
  filepath.Join [script_dir E; executableScriptName].

(** The world after the steps of [CreateScript] that come before the
    rendering of the template. *)
Definition before_rendering (E : Env) (f : factory) (x : Executable)
    (w : World) : World :=
  (getExpression E f (script_dir E) x
     (Create E (script_path E)
        (installNodeModules E f (script_dir E) (getDependencies x).1
           (after_provisioning E w)).2).2).2.

(** The values [CreateScript] gives the template for a user code, a list
    of includes and a bag of variables already sanitized. *)
Definition template_values (E : Env) (expression : string)
    (includes : list string) (vars : gmap string reflect.eface)
  : scriptTemplateValues :=
  {| tv_Executable := escapeJSON E (JString expression);
     tv_Includes :=
       escapeJSON E (JString (strings.Join includes (String newline (str1 newline))));
     tv_Variables := escapeJSON E (JMap vars) |}.

(** A bag of variables with a function among them, at address 0. *)
Definition sample_bag : gmap string reflect.eface :=
  <["user" := reflect.iface stringType 1]>
    (<["callback" := reflect.iface funcType 2]> ∅).

(** A provisioned directory [/srv] whose package [left-pad] declares an
    entry point that was not installed. *)
Definition provisioned_without_entry : World :=
  {| fs := <["/srv/package.json" := File "one"]>
             (<["/srv/node_modules/left-pad/package.json" := File "left-pad"]> ∅);
     maps := ∅;
     trace := [] |}.

(** A manifest decoder that reads the empty object as a manifest without
    entry point and without dependencies, and nothing else. *)
Definition empty_object_decoder (text : string) : packageJSON * error :=
  if String.eqb text "{}" then (no_manifest, None)
  else (no_manifest, Some "invalid character").

(** A machine on which a manifest of the directory [/srv] is left over
    from before. *)
Definition old_manifest_world : World :=
  {| fs := <["/srv/package.json" := File "previous"]> ∅; maps := ∅; trace := [] |}.

(** Does every byte of a text satisfy [P]? *)
Fixpoint all_bytes (P : Z -> bool) (s : string) : bool :=
  match s with
  | EmptyString => true
  | String c t => P (byte_val c) && all_bytes P t
  end.

(** The bytes from 0x20 to 0x7F other than [<], [>] and [&]: the
    printable ASCII characters but these three, and the control
    character DEL. *)
Definition plain_byte (b : Z) : bool :=
  (0x20 <=? b) && (b <=? 0x7F)
  && negb ((b =? 0x3C) || (b =? 0x3E) || (b =? 0x26)).

(** The control character DEL, and the bytes other than it. *)
Definition DEL : ascii := "127"%char.

Definition not_DEL (b : Z) : bool := negb (b =? 0x7F).

(** The printable ASCII characters other than [<], [>] and [&]. *)
Definition printable_byte (b : Z) : bool := plain_byte b && not_DEL b.

(** The text JSON-encoded by the given encoder of maps, as [escapeJSON]
    receives it for a bag of variables. *)
Definition marshalled (E : Env) (m : gmap string reflect.eface) : string :=
  (Marshal_map E m).1.

(** A machine whose JSON encoder writes every bag as a fixed object. *)
Definition objectEnv : Env :=
  {| path_lookup := fun _ => None;
     TempDir := "/tmp";
     NewV4 := "6ba7b810";
     io_fault := fun _ => None;
     range_seed := fun _ => 0%nat;
     spawn := npm_idle;
     decode_packageJSON := sample_decoder;
     Marshal_map := fun _ => ("{" ++ str1 dquote ++ "user" ++ str1 dquote ++ ":1}", None);
     scriptTemplate_Execute := fun v => (tv_Variables v, None);
     Govern := fun _ _ => None |}.

(** An engine whose templates panic when they are executed and whose
    table-name extractor cannot be built without a panic; every body
    binds to a valid request, with [reformat] set when the body is
    [reformat]. *)
Definition panickingEngine : handlers.Engine :=
  {| handlers.Template := string;
     handlers.Value := string;
     handlers.Extractor := string;
     handlers.BindJSON := fun raw =>
       ({| handlers.Object := Some ∅; handlers.Expression := "{{index .a 1}}";
           handlers.Reformat := String.eqb raw "reformat" |}, None);
     handlers.SmartParse := fun _ expr => Ret (Some expr, None);
     handlers.ProcessEvent := fun _ _ => Panic "index out of range";
     handlers.Template_Format := fun _ => "go";
     handlers.ToJSON := fun v => Ret (v, None);
     handlers.NewTableNameExtractor := fun _ => Panic "index out of range";
     handlers.Extract := fun ex _ => Ret (ex, None);
     handlers.Extractor_Format := fun _ => "go" |}.

(** An engine whose table-name extractor returns what it has extracted
    together with an error. *)
Definition partialEngine : handlers.Engine :=
  {| handlers.Template := string;
     handlers.Value := string;
     handlers.Extractor := string;
     handlers.BindJSON := fun raw =>
       ({| handlers.Object := Some ∅; handlers.Expression := "events_{{.kind}}";
           handlers.Reformat := true |}, None);
     handlers.SmartParse := fun _ expr => Ret (Some expr, None);
     handlers.ProcessEvent := fun _ _ => Ret ("", None);
     handlers.Template_Format := fun _ => "go";
     handlers.ToJSON := fun v => Ret (v, None);
     handlers.NewTableNameExtractor := fun expr => Ret (Some expr, None);
     handlers.Extract := fun ex _ => Ret ("events_", Some "no value for kind");
     handlers.Extractor_Format := fun _ => "go" |}.

(** A machine without [npm] on its search path. *)
Definition without_npm : Env :=
  {| path_lookup := fun file =>
       if String.eqb file "npm" then
         Some ("exec: " ++ str1 dquote ++ "npm" ++ str1 dquote
               ++ ": executable file not found in $PATH")
       else None;
     TempDir := "/tmp";
     NewV4 := "6ba7b810";
     io_fault := fun _ => None;
     range_seed := fun _ => 0%nat;
     spawn := npm_idle;
     decode_packageJSON := sample_decoder;
     Marshal_map := fun _ => ("{}", None);
     scriptTemplate_Execute := fun v => (tv_Executable v, None);
     Govern := fun _ _ => None |}.


(** ** package metrics: the gauges of the pool of source goroutines *)
Module metrics.

Definition two53 : Z := 9007199254740992.

(** The conversion [float64(value)] of an integer: the nearest number
    with 53 significant bits, ties going to the even one.  The float is
    given by the integer it denotes. *)
Definition float64_of_int (v : Z) : Z :=
  let a := Z.abs v in
  if a <=? two53 then v
  else
    let e := Z.log2 a - 52 in
    let q := Z.shiftr a e in
    let r := a - Z.shiftl q e in
    let half := Z.shiftl 1 (e - 1) in
    let q' := if (half <? r) || ((r =? half) && Z.odd q) then q + 1 else q in
    Z.sgn v * Z.shiftl q' e.

(** [prometheus.BuildFQName]: the non-empty parts joined by underscores;
    empty when the name is. *)
Definition BuildFQName (namespace subsystem name : string) : string :=
  if String.eqb name "" then ""
  else strings.Join
         (filter (fun s => s ≠ "") [namespace; subsystem; name]) "_".

(** A [prometheus.GaugeVec]: its fully qualified name, the names of its
    labels and the gauges created so far, by their label values. *)
Record GaugeVec := {
  fqName : string;
  labelNames : list string;
  gauges : gmap (list string) Z;
}.

(** The texts of two errors of the library, which print their arguments
    in a way that depends on its version: the one of a registration
    under a name that is registered with other labels, by the name and
    the new labels, and the one of [WithLabelValues] for label values
    that are not as many as the label names, by the names and the
    values. *)
Record Library := {
  inconsistent_descriptor : string -> list string -> string;
  inconsistent_cardinality : list string -> list string -> string;
}.

(** The state of the package: the switch [Enabled], which this file
    reads and another file of the package declares; the default
    registry, as the label names of each registered name; and the
    variable [sourcesGoroutinesPoolSize], nil until [initSourcesPool]
    has run. *)
Record State := {
  Enabled : bool;
  registry : gmap string (list string);
  sourcesGoroutinesPoolSize : option GaugeVec;
}.

Definition sourcesPoolLabels : list string := ["type"].

(** [promauto.NewGaugeVec], for options without help text and constant
    labels and for a name and labels that are valid, as those of this
    package are: the vector is registered with the default registry, and
    the call panics with the error of the registration when the name is
    registered already, with the same labels or with others. *)
Definition NewGaugeVec (L : Library) (namespace subsystem name : string)
    (labels : list string) (st : State) : outcome GaugeVec * State :=
  let fq := BuildFQName namespace subsystem name in
  match registry st !! fq with
  | Some registered =>
      if decide (registered = labels) then
        (Panic "duplicate metrics collector registration attempted", st)
      else (Panic (inconsistent_descriptor L fq labels), st)
  | None =>
      (Ret {| fqName := fq; labelNames := labels; gauges := ∅ |},
       {| Enabled := Enabled st; registry := <[fq := labels]> (registry st);
          sourcesGoroutinesPoolSize := sourcesGoroutinesPoolSize st |})
  end.

Definition initSourcesPool (L : Library) (st : State) : outcome unit * State :=
  match NewGaugeVec L "eventnative" "sources" "goroutines_pool" sourcesPoolLabels st with
  | (Ret vec, st') =>
      (Ret tt, {| Enabled := Enabled st'; registry := registry st';
                  sourcesGoroutinesPoolSize := Some vec |})
  | (Panic msg, st') => (Panic msg, st')
  end.

(** [v.WithLabelValues(lvs...).Set(x)]: a nil vector is dereferenced,
    label values that are not as many as the label names make
    [WithLabelValues] panic, and otherwise the gauge of these label
    values, created if need be, is set. *)
Definition set_gauge (L : Library) (v : option GaugeVec) (lvs : list string) (x : Z)
  : outcome GaugeVec :=
  match v with
  | None => Panic nil_dereference
  | Some vec =>
      if (length lvs =? length (labelNames vec))%nat then
        Ret {| fqName := fqName vec; labelNames := labelNames vec;
               gauges := <[lvs := x]> (gauges vec) |}
      else Panic (inconsistent_cardinality L (labelNames vec) lvs)
  end.

Definition FreeSourcesGoroutines (L : Library) (value : Z) (st : State)
  : outcome unit * State :=
  if Enabled st then
    match set_gauge L (sourcesGoroutinesPoolSize st) ["free"] (float64_of_int value) with
    | Ret vec =>
        (Ret tt, {| Enabled := Enabled st; registry := registry st;
                    sourcesGoroutinesPoolSize := Some vec |})
    | Panic msg => (Panic msg, st)
    end
  else (Ret tt, st).

Definition RunningSourcesGoroutines (L : Library) (value : Z) (st : State)
  : outcome unit * State :=
  if Enabled st then
    match set_gauge L (sourcesGoroutinesPoolSize st) ["running"] (float64_of_int value) with
    | Ret vec =>
        (Ret tt, {| Enabled := Enabled st; registry := registry st;
                    sourcesGoroutinesPoolSize := Some vec |})
    | Panic msg => (Panic msg, st)
    end
  else (Ret tt, st).

(** The value the gauge of a label value shows, if it exists. *)
Definition pool_gauge (type : string) (st : State) : option Z :=
  sourcesGoroutinesPoolSize st ≫= fun vec => gauges vec !! [type].

(** A library whose two texts are fixed. *)
Definition sampleLibrary : Library :=
  {| inconsistent_descriptor := fun _ _ => "inconsistent descriptor";
     inconsistent_cardinality := fun _ _ => "inconsistent label cardinality" |}.

(** A state in which nothing is registered yet, with the given
    switch. *)
Definition initial (enabled : bool) : State :=
  {| Enabled := enabled; registry := ∅; sourcesGoroutinesPoolSize := None |}.

(** The vector is the one [initSourcesPool] makes: it has the one label
    [type]. *)
Definition pool_ready (st : State) : Prop :=
  ∃ vec, sourcesGoroutinesPoolSize st = Some vec ∧ labelNames vec = ["type"].

(** A report of the scheduler. *)
Inductive Report :=
| Free (value : Z)
| Running (value : Z).

Definition report (L : Library) (r : Report) (st : State) : outcome unit * State :=
  match r with
  | Free value => FreeSourcesGoroutines L value st
  | Running value => RunningSourcesGoroutines L value st
  end.

(** A sequence of reports, in order, up to the first panic. *)
Fixpoint reports (L : Library) (rs : list Report) (st : State)
  : outcome unit * State :=
  match rs with
  | [] => (Ret tt, st)
  | r :: rest =>
      match report L r st with
      | (Ret _, st') => reports L rest st'
      | (Panic msg, st') => (Panic msg, st')
      end
  end.

(** The value of the last report of free goroutines in a sequence, and
    of running ones. *)
Fixpoint last_free (rs : list Report) : option Z :=
  match rs with
  | [] => None
  | r :: rest =>
      match last_free rest, r with
      | Some v, _ => Some v
      | None, Free v => Some v
      | None, Running _ => None
      end
  end.

Fixpoint last_running (rs : list Report) : option Z :=
  match rs with
  | [] => None
  | r :: rest =>
      match last_running rest, r with
      | Some v, _ => Some v
      | None, Running v => Some v
      | None, Free _ => None
      end
  end.

End metrics.

(** * Theorems *)

(** ** The monad *)

Lemma bind_Ret {A B} (m : M A) (k : A -> M B) w a w' :
  m w = (Ret a, w') -> bind m k w = k a w'.
Proof. intros H. unfold bind. by rewrite H. Qed.

Lemma bind_Panic {A B} (m : M A) (k : A -> M B) w msg w' :
  m w = (Panic msg, w') -> bind m k w = (Panic msg, w').
Proof. intros H. unfold bind. by rewrite H. Qed.

(** ** Dependency resolution *)

(** C4: [getDependencies] returns no package and no error for an
    expression, exactly the package name for a package, and an
    "unrecognized script executable" error for any other executable. *)
Theorem getDependencies_by_variant :
  (∀ src, getDependencies (Expression src) = ([], None)) ∧
  (∀ name, getDependencies (Package name) = ([name], None)) ∧
  (∀ t, ∃ msg, getDependencies (OtherExecutable t) = ([], Some msg)
               ∧ msg = "unrecognized script executable " ++ t).
Proof.
  split; [|split]; intros; try reflexivity.
  eexists; split; reflexivity.
Qed.

(** ** Strings *)

Lemma append_cons (x : ascii) (a b : string) : String x a ++ b = String x (a ++ b).
Proof. reflexivity. Qed.

Lemma append_assoc (a b c : string) : (a ++ b) ++ c = a ++ (b ++ c).
Proof. induction a as [|x a IH]; [done|]. rewrite !append_cons. by f_equal. Qed.

Lemma append_empty_r (a : string) : a ++ "" = a.
Proof. induction a as [|x a IH]; [done|]. rewrite append_cons. by f_equal. Qed.

(** ** The wrapper of an expression *)

Lemma lines_nonempty s : lines s ≠ [].
Proof.
  destruct s as [|c t]; [done|]. cbn [lines].
  destruct (Ascii.eqb c newline); [done|]. by destruct (lines t).
Qed.

(** A line break between two texts separates the lines of the first
    from the lines of the second. *)
Lemma lines_app a b :
  lines (a ++ String newline b) = (lines a ++ lines b)%list.
Proof.
  induction a as [|c a IH].
  - reflexivity.
  - rewrite append_cons. cbn [lines]. rewrite IH.
    destruct (Ascii.eqb c newline); [done|].
    pose proof (lines_nonempty a) as Hne. by destruct (lines a).
Qed.

(** C8: for an expression the user code is the source wrapped in a
    function of the one argument [event]: the lines before the source
    open the function and bind first [$], then [_], to the event, the
    lines of the source follow unchanged, and the function is closed
    after them.  Nothing is read or written and no error is returned. *)
Theorem getExpression_wraps_expression E f dir src w :
  ∃ text,
    getExpression E f dir (Expression src) w = (Ret (text, None), w)
    ∧ text = str1 newline ++ "module.exports = async (event) => {" ++ str1 newline
             ++ "  let $ = event" ++ str1 newline
             ++ "  let _ = event" ++ str1 newline
             ++ "// expression start //" ++ str1 newline
             ++ src ++ str1 newline
             ++ "// expression end //" ++ str1 newline
             ++ "}"
    ∧ lines text
      = ([""; "module.exports = async (event) => {"; "  let $ = event";
          "  let _ = event"; "// expression start //"]
         ++ lines src ++ ["// expression end //"; "}"])%list.
Proof.
  eexists. split; [reflexivity|]. split; [reflexivity|].
  change (expression_head ++ src ++ expression_tail)
    with ("" ++ String newline ("module.exports = async (event) => {"
          ++ String newline ("  let $ = event"
          ++ String newline ("  let _ = event"
          ++ String newline ("// expression start //"
          ++ String newline (src
          ++ String newline ("// expression end //"
          ++ String newline "}"))))))).
  rewrite !lines_app. reflexivity.
Qed.

(** ** Escaping for the template *)

Lemma unquote_encode_byte c rest :
  (byte_val c <? utf8.RuneSelf) = true ->
  json.unquote_loop O (encode_ascii c ++ rest) = cons_opt c (json.unquote_loop O rest).
Proof.
  destruct c as [[] [] [] [] [] [] [] []]; intros H; try discriminate H; clear H.
  all: cbn; try reflexivity; destruct (json.unquote_loop 0 rest); reflexivity.
Qed.

Lemma encode_ascii_cons c t :
  (byte_val c <? utf8.RuneSelf) = true ->
  json.encodeString_loop O O (String c t)
  = encode_ascii c ++ json.encodeString_loop O O t.
Proof.
  intros H. cbn [json.encodeString_loop]. cbv zeta. rewrite H. reflexivity.
Qed.

Lemma encode_ascii_app s t :
  all_ascii s = true ->
  json.encodeString_loop O O (s ++ t)
  = json.encodeString_loop O O s ++ json.encodeString_loop O O t.
Proof.
  induction s as [|c s IH]; intros H; [done|].
  cbn [all_ascii] in H. apply andb_prop in H as [Hc Hs].
  change (String c s ++ t) with (String c (s ++ t)).
  rewrite !encode_ascii_cons by done. rewrite IH by done.
  by rewrite append_assoc.
Qed.

Lemma unquote_encode s rest :
  all_ascii s = true ->
  json.unquote_loop O (json.encodeString_loop O O s ++ rest)
  = app_opt s (json.unquote_loop O rest).
Proof.
  revert rest. induction s as [|c s IH]; intros rest H.
  - change (json.unquote_loop 0 rest = app_opt "" (json.unquote_loop 0 rest)).
    by destruct (json.unquote_loop 0 rest).
  - cbn [all_ascii] in H. apply andb_prop in H as [Hc Hs].
    rewrite encode_ascii_cons by done. rewrite append_assoc.
    rewrite unquote_encode_byte by done. rewrite IH by done.
    by destruct (json.unquote_loop 0 rest).
Qed.

Lemma trimRightByte_snoc s c : strings.trimRightByte (s ++ str1 c) c = strings.trimRightByte s c.
Proof.
  induction s as [|b s IH].
  - change (strings.trimRightByte (str1 c) c = "").
    cbn. by rewrite Ascii.eqb_refl.
  - rewrite append_cons. cbn [strings.trimRightByte]. by rewrite IH.
Qed.

Lemma trimRightByte_id s c l :
  last_byte s = Some l -> l ≠ c -> strings.trimRightByte s c = s.
Proof.
  induction s as [|b s IH]; intros Hl Hne; [done|].
  cbn [strings.trimRightByte]. destruct s as [|b' s'].
  - cbn in *. injection Hl as ->. apply Ascii.eqb_neq in Hne. by rewrite Hne.
  - rewrite IH by done. done.
Qed.

Lemma trimLeftByte_id s c :
  first_byte s ≠ Some c -> strings.trimLeftByte s c = s.
Proof.
  destruct s as [|b s]; [done|]. cbn. intros H.
  destruct (Ascii.eqb b c) eqn:Heq; [|done].
  apply Ascii.eqb_eq in Heq. congruence.
Qed.

Lemma last_byte_snoc s c : last_byte (s ++ str1 c) = Some c.
Proof.
  induction s as [|b s IH]; [done|].
  rewrite append_cons. cbn [last_byte]. rewrite IH.
  destruct s; reflexivity.
Qed.

Lemma last_byte_inv s l : last_byte s = Some l -> ∃ s0, s = s0 ++ str1 l.
Proof.
  induction s as [|b s IH]; [done|]. cbn [last_byte]. destruct s as [|b' s'].
  - intros [= ->]. by exists "".
  - intros H. destruct (IH H) as [s0 Hs0]. exists (String b s0).
    by rewrite append_cons, <- Hs0.
Qed.

Lemma last_byte_app a b l : last_byte b = Some l -> last_byte (a ++ b) = Some l.
Proof.
  intros Hb. induction a as [|x a IH]; [done|].
  rewrite append_cons. cbn [last_byte].
  destruct (a ++ b); [discriminate IH | exact IH].
Qed.

Lemma all_ascii_app a b : all_ascii (a ++ b) = all_ascii a && all_ascii b.
Proof.
  induction a as [|x a IH]; [done|].
  rewrite append_cons. cbn [all_ascii]. rewrite IH. by rewrite andb_assoc.
Qed.

Lemma encode_ascii_first c :
  (byte_val c <? utf8.RuneSelf) = true ->
  ∃ h t, encode_ascii c = String h t ∧ h ≠ dquote.
Proof.
  destruct c as [[] [] [] [] [] [] [] []]; intros H; try discriminate H; clear H.
  all: eexists _, _; split; [reflexivity | discriminate].
Qed.

Lemma encode_ascii_last c :
  (byte_val c <? utf8.RuneSelf) = true -> c ≠ dquote ->
  ∃ l, last_byte (encode_ascii c) = Some l ∧ l ≠ dquote.
Proof.
  destruct c as [[] [] [] [] [] [] [] []]; intros H Hne; try discriminate H; clear H.
  all: try (eexists; split; [reflexivity | discriminate]).
  by destruct Hne.
Qed.

Lemma encode_first s :
  all_ascii s = true -> first_byte (json.encodeString_loop O O s) ≠ Some dquote.
Proof.
  destruct s as [|c s]; [done|]. cbn [all_ascii]. intros [Hc Hs]%andb_prop.
  rewrite encode_ascii_cons by done.
  destruct (encode_ascii_first c Hc) as (h & t & -> & Hh).
  rewrite append_cons. cbn. congruence.
Qed.

Lemma encode_snoc_last s c :
  all_ascii s = true -> (byte_val c <? utf8.RuneSelf) = true -> c ≠ dquote ->
  ∃ l, last_byte (json.encodeString_loop O O (s ++ str1 c)) = Some l ∧ l ≠ dquote.
Proof.
  intros Hs Hc Hne. rewrite encode_ascii_app by done.
  destruct (encode_ascii_last c Hc Hne) as (l & Hl & Hlne).
  exists l. split; [|done]. apply last_byte_app.
  change (str1 c) with (String c "").
  rewrite encode_ascii_cons by done. by rewrite append_empty_r.
Qed.

Lemma Trim_snoc x c : strings.Trim (x ++ str1 c) c = strings.Trim x c.
Proof. unfold strings.Trim. by rewrite trimRightByte_snoc. Qed.

Lemma Trim_literal body l :
  last_byte body = Some l -> l ≠ dquote -> first_byte body ≠ Some dquote ->
  strings.Trim (String dquote (body ++ str1 dquote)) dquote = body.
Proof.
  intros Hl Hne Hf.
  rewrite <- (append_cons dquote body (str1 dquote)), Trim_snoc.
  unfold strings.Trim. rewrite (trimRightByte_id _ _ l); [| | done].
  - cbn [strings.trimLeftByte]. rewrite Ascii.eqb_refl. by apply trimLeftByte_id.
  - cbn [last_byte]. by destruct body.
Qed.

Lemma first_byte_app a b :
  first_byte a ≠ Some dquote -> a ≠ "" -> first_byte (a ++ b) ≠ Some dquote.
Proof. destruct a; [done|]. by rewrite append_cons. Qed.

(** X16: an ASCII user code is read back unchanged from the template
    literal it is embedded in, unless its last byte is a double quote,
    in which case the literal cannot be read at all. *)
Lemma escapeJSON_ascii E s :
  all_ascii s = true ->
  decodeEmbedded (escapeJSON E (JString s)) = ascii_roundtrip_result s.
Proof.
  intros Hs. unfold ascii_roundtrip_result, decodeEmbedded, escapeJSON,
    json.Marshal_string.
  destruct (last_byte s) as [l|] eqn:Hl.
  - destruct (last_byte_inv _ _ Hl) as [s0 ->].
    rewrite all_ascii_app in Hs. apply andb_prop in Hs as [Hs0 Hl'].
    unfold str1 in Hl'. cbn [all_ascii] in Hl'. rewrite andb_true_r in Hl'.
    destruct (Ascii.eqb l dquote) eqn:Heq.
    + apply Ascii.eqb_eq in Heq as ->.
      rewrite encode_ascii_app by done.
      set (b0 := json.encodeString_loop 0 0 s0).
      change (json.encodeString_loop 0 0 (str1 dquote))
        with (str1 backslash ++ str1 dquote).
      rewrite <- (append_assoc b0).
      rewrite <- (append_cons dquote ((b0 ++ str1 backslash) ++ str1 dquote)
                    (str1 dquote)), Trim_snoc.
      rewrite (Trim_literal _ backslash); [| apply last_byte_snoc | discriminate |].
      2:{ pose proof (encode_first s0 Hs0) as Hf. fold b0 in Hf.
          destruct b0; [discriminate | by rewrite append_cons]. }
      unfold json.Unquote. rewrite Ascii.eqb_refl, append_assoc.
      unfold b0. rewrite unquote_encode by done. reflexivity.
    + apply Ascii.eqb_neq in Heq.
      assert (all_ascii (s0 ++ str1 l) = true) as Hall.
      { rewrite all_ascii_app, Hs0. unfold str1. cbn [all_ascii]. by rewrite Hl'. }
      destruct (encode_snoc_last s0 l Hs0 Hl' Heq) as (l' & Hlast & Hne).
      rewrite (Trim_literal _ l'); [| done | done | by apply encode_first].
      unfold json.Unquote. rewrite Ascii.eqb_refl.
      rewrite unquote_encode by done.
      change (json.unquote_loop 0 (str1 dquote)) with (Some "").
      cbn [app_opt]. by rewrite append_empty_r.
  - destruct s as [|c s]; [reflexivity|]. exfalso. clear Hs.
    revert c Hl. induction s as [|b s IH]; intros c Hl; [done|].
    apply (IH b). exact Hl.
Qed.

(** C2: on user code that ends with a double quote the escaping does not
    round-trip: [strings.Trim] removes the quote of the final escape
    together with the closing quote of the literal, the escaped text ends
    with a lone backslash, and embedding it back between quotes gives a
    text that does not decode.  Evaluated on the one-byte code made of a
    double quote and on the code [say "hi"]. *)
Theorem escapeJSON_trailing_quote_not_decodable E :
  escapeJSON E (JString (str1 dquote)) = str1 backslash ∧
  decodeEmbedded (escapeJSON E (JString (str1 dquote))) = None ∧
  escapeJSON E (JString ("say " ++ str1 dquote ++ "hi" ++ str1 dquote))
    = "say " ++ str1 backslash ++ str1 dquote ++ "hi" ++ str1 backslash ∧
  decodeEmbedded
    (escapeJSON E (JString ("say " ++ str1 dquote ++ "hi" ++ str1 dquote))) = None.
Proof. repeat split; reflexivity. Qed.

(** A byte that is not valid UTF-8 is not preserved either: the encoder
    of the standard library writes the replacement character for it. *)
Lemma escapeJSON_invalid_utf8_replaced E :
  decodeEmbedded (escapeJSON E (JString (str1 "255"%char)))
  = Some (String "239"%char (String "191"%char (str1 "189"%char))).
Proof. reflexivity. Qed.

(** ** The template-testing handler *)

Lemma Validate_fails_iff req :
  handlers.Validate req ≠ None
  ↔ handlers.Object req = None ∨ handlers.Expression req = "".
Proof.
  unfold handlers.Validate. destruct (handlers.Object req) as [o|].
  - destruct (String.eqb (handlers.Expression req) "") eqn:Heq.
    + apply String.eqb_eq in Heq. split; [by right | discriminate].
    + apply String.eqb_neq in Heq. split; [done | by intros [?|?]].
  - split; [by left | discriminate].
Qed.

Lemma evaluate_parse_failure T req tmpl e :
  handlers.SmartParse T "template evaluating" (handlers.Expression req)
    = Ret (tmpl, Some e) ->
  handlers.evaluate T req = ("", "", Some ("error parsing template: " ++ e)).
Proof. intros H. unfold handlers.evaluate. rewrite H. by destruct tmpl. Qed.

Lemma evaluate_execution_failure T req tmpl v e :
  handlers.SmartParse T "template evaluating" (handlers.Expression req)
    = Ret (Some tmpl, None) ->
  handlers.ProcessEvent T tmpl (handlers.Object req) = Ret (v, Some e) ->
  handlers.evaluate T req
  = ("", handlers.Template_Format T tmpl, Some ("error executing template: " ++ e)).
Proof. intros H1 H2. unfold handlers.evaluate. by rewrite H1, H2. Qed.

Lemma evaluate_panic_is_error T req r :
  handlers.SmartParse T "template evaluating" (handlers.Expression req) = Panic r ->
  handlers.evaluate T req = ("", "", Some ("Error: " ++ r)).
Proof. intros H. unfold handlers.evaluate. by rewrite H. Qed.

Lemma EventTemplateHandler_evaluated T raw req :
  handlers.BindJSON T raw = (req, None) ->
  handlers.Validate req = None ->
  handlers.EventTemplateHandler T raw
  = match (if handlers.Reformat req then handlers.evaluateReformatted T req
           else Ret (handlers.evaluate T req)) with
    | Panic r => Panic r
    | Ret (result, format, Some e) =>
        Ret {| handlers.status := 400;
               handlers.body := handlers.Evaluated
                 {| handlers.Result := result; handlers.Error := e;
                    handlers.Format := format |} |}
    | Ret (result, format, None) =>
        Ret {| handlers.status := 200;
               handlers.body := handlers.Evaluated
                 {| handlers.Result := result; handlers.Error := "";
                    handlers.Format := format |} |}
    end.
Proof.
  intros Hb Hv. unfold handlers.EventTemplateHandler. rewrite Hb, Hv.
  by destruct (if handlers.Reformat req then _ else _) as [[[r f] [e|]]|p].
Qed.

(** C9: the handler answers 400 with [Failed to parse body] when the body
    does not bind and 400 with the message of [Validate] when the object
    is missing or the expression empty.  Without [reformat] it answers
    400 with the error text in the message field when the template does
    not parse, does not execute, or its value is not serialized, and
    also when the engine panics, the panic being recovered; it answers
    200 with the serialized value and the format of the template when
    all three succeed.  With [reformat] it answers 400 with the error
    text when the table-name extractor is not built or does not extract,
    and 200 with the extracted text and the format of the extractor when
    it does.  Every answer has status 200 or 400; and there is an answer
    in every case but one: with [reformat] a panic of the extractor is
    not recovered and leaves the handler as a panic. *)
Theorem EventTemplateHandler_statuses (T : handlers.Engine) (raw : string) :
  let req := (handlers.BindJSON T raw).1 in
  let bound := (handlers.BindJSON T raw).2 = None in
  let answers status result message format :=
    handlers.EventTemplateHandler T raw
    = Ret {| handlers.status := status;
             handlers.body := handlers.Evaluated
               {| handlers.Result := result; handlers.Error := message;
                  handlers.Format := format |} |} in
  let parsed tmpl :=
    handlers.SmartParse T "template evaluating" (handlers.Expression req)
    = Ret (Some tmpl, None) in
  let processed tmpl v :=
    handlers.ProcessEvent T tmpl (handlers.Object req) = Ret (v, None) in
  let built ex :=
    handlers.NewTableNameExtractor T (handlers.Expression req)
    = Ret (Some ex, None) in
  (∀ e, (handlers.BindJSON T raw).2 = Some e ->
        handlers.EventTemplateHandler T raw
        = Ret {| handlers.status := 400;
                 handlers.body := handlers.ErrResponse "Failed to parse body" (Some e) |})
  ∧ (∀ msg, bound -> handlers.Validate req = Some msg ->
        handlers.EventTemplateHandler T raw
        = Ret {| handlers.status := 400;
                 handlers.body := handlers.ErrResponse msg None |})
  ∧ (bound ->
        (handlers.Validate req ≠ None
         ↔ handlers.Object req = None ∨ handlers.Expression req = ""))
  ∧ (bound -> handlers.Validate req = None -> handlers.Reformat req = false ->
       (∀ tmpl e,
          handlers.SmartParse T "template evaluating" (handlers.Expression req)
            = Ret (tmpl, Some e) ->
          answers 400 "" ("error parsing template: " ++ e) "")
       ∧ (∀ tmpl v e,
            parsed tmpl ->
            handlers.ProcessEvent T tmpl (handlers.Object req) = Ret (v, Some e) ->
            answers 400 "" ("error executing template: " ++ e)
              (handlers.Template_Format T tmpl))
       ∧ (∀ tmpl v j e,
            parsed tmpl -> processed tmpl v ->
            handlers.ToJSON T v = Ret (j, Some e) ->
            answers 400 "" e (handlers.Template_Format T tmpl))
       ∧ (∀ r,
            handlers.SmartParse T "template evaluating" (handlers.Expression req)
              = Panic r
            ∨ (∃ tmpl, parsed tmpl
                 ∧ (handlers.ProcessEvent T tmpl (handlers.Object req) = Panic r
                    ∨ ∃ v, processed tmpl v ∧ handlers.ToJSON T v = Panic r)) ->
            answers 400 "" ("Error: " ++ r) "")
       ∧ (∀ tmpl v j,
            parsed tmpl -> processed tmpl v ->
            handlers.ToJSON T v = Ret (j, None) ->
            answers 200 j "" (handlers.Template_Format T tmpl))
       ∧ ∃ resp, handlers.EventTemplateHandler T raw = Ret resp)
  ∧ (bound -> handlers.Validate req = None -> handlers.Reformat req = true ->
       (∀ ex e,
          handlers.NewTableNameExtractor T (handlers.Expression req)
            = Ret (ex, Some e) ->
          answers 400 "" e "")
       ∧ (∀ ex res e,
            built ex ->
            handlers.Extract T ex (handlers.Object req) = Ret (res, Some e) ->
            answers 400 res e (handlers.Extractor_Format T ex))
       ∧ (∀ ex res,
            built ex ->
            handlers.Extract T ex (handlers.Object req) = Ret (res, None) ->
            answers 200 res "" (handlers.Extractor_Format T ex))
       ∧ (∀ r,
            handlers.NewTableNameExtractor T (handlers.Expression req) = Panic r
            ∨ (∃ ex, built ex
                 ∧ handlers.Extract T ex (handlers.Object req) = Panic r) ->
            handlers.EventTemplateHandler T raw = Panic r)
       ∧ ((∃ resp, handlers.EventTemplateHandler T raw = Ret resp)
          ↔ (∃ ex e, handlers.NewTableNameExtractor T (handlers.Expression req)
                     = Ret (ex, Some e))
            ∨ (∃ ex res err, built ex
                 ∧ handlers.Extract T ex (handlers.Object req) = Ret (res, err))))
  ∧ (∀ resp, handlers.EventTemplateHandler T raw = Ret resp ->
        handlers.status resp = 200 ∨ handlers.status resp = 400).
Proof.
  cbv zeta.
  destruct (handlers.BindJSON T raw) as [req [e0|]] eqn:Hbind; cbn [fst snd].
  { unfold handlers.EventTemplateHandler. rewrite Hbind.
    split; [by intros e [= ->]|]. split; [discriminate|].
    split; [discriminate|]. split; [discriminate|]. split; [discriminate|].
    intros resp [= <-]. by right. }
  split; [discriminate|].
  pose proof (Validate_fails_iff req) as Hiff.
  destruct (handlers.Validate req) as [msg0|] eqn:Hval.
  { unfold handlers.EventTemplateHandler. rewrite Hbind, Hval.
    split; [by intros msg _ [= ->]|]. split; [intros _; exact Hiff|].
    split; [discriminate|]. split; [discriminate|].
    intros resp [= <-]. by right. }
  split; [discriminate|]. split; [intros _; exact Hiff|].
  rewrite (EventTemplateHandler_evaluated T raw req Hbind Hval).
  destruct (handlers.Reformat req).
  - split; [discriminate|]. unfold handlers.evaluateReformatted.
    destruct (handlers.NewTableNameExtractor T _) as [[[ex|] [e1|]]|r1].
    4:{ (* a nil extractor without an error *)
      split; [|discriminate]. intros _ _ _.
      split; [discriminate|]. split; [discriminate|]. split; [discriminate|].
      split; [intros r [?|(ex & ? & _)]; discriminate|].
      split; [intros [resp ?]; discriminate|].
      intros [(ex & e & ?)|(ex & res & err & ? & _)]; discriminate. }
    4:{ split; [|discriminate]. intros _ _ _.
      split; [discriminate|]. split; [discriminate|]. split; [discriminate|].
      split; [intros r [[= ->]|(ex & ? & _)]; [reflexivity | discriminate]|].
      split; [intros [resp ?]; discriminate|].
      intros [(ex & e & ?)|(ex & res & err & ? & _)]; discriminate. }
    1,3: (split; [|intros resp [= <-]; by right]; intros _ _ _;
          split; [by intros ex' e [= _ <-]|];
          split; [discriminate|]; split; [discriminate|];
          split; [intros r [?|(ex' & ? & _)]; discriminate|];
          split; [intros _; left; eauto | eauto]).
    destruct (handlers.Extract T ex _) as [[res [e2|]]|r2] eqn:Hex.
    + split; [|intros resp [= <-]; by right]. intros _ _ _.
      split; [discriminate|].
      split; [intros ex' res' e [= <-]; rewrite Hex; by intros [= <- <-]|].
      split; [intros ex' res' [= <-]; rewrite Hex; discriminate|].
      split; [intros r [?|(ex' & [= <-] & Hp)]; [discriminate|];
              rewrite Hex in Hp; discriminate|].
      split; [intros _; right; eauto 6 | eauto].
    + split; [|intros resp [= <-]; by left]. intros _ _ _.
      split; [discriminate|].
      split; [intros ex' res' e [= <-]; rewrite Hex; discriminate|].
      split; [intros ex' res' [= <-]; rewrite Hex; by intros [= <-]|].
      split; [intros r [?|(ex' & [= <-] & Hp)]; [discriminate|];
              rewrite Hex in Hp; discriminate|].
      split; [intros _; right; eauto 6 | eauto].
    + split; [|discriminate]. intros _ _ _.
      split; [discriminate|].
      split; [intros ex' res' e [= <-]; rewrite Hex; discriminate|].
      split; [intros ex' res' [= <-]; rewrite Hex; discriminate|].
      split; [intros r [?|(ex' & [= <-] & Hp)]; [discriminate|];
              rewrite Hex in Hp; by injection Hp as <-|].
      split; [intros [resp ?]; discriminate|].
      intros [(ex' & e & ?)|(ex' & res & err & [= <-] & Hp)]; [discriminate|].
      rewrite Hex in Hp. discriminate.
  - split; [|split; [discriminate|]].
    2:{ destruct (handlers.evaluate T req) as [[r f] [e|]];
          intros resp [= <-]; auto. }
    intros _ _ _. unfold handlers.evaluate, handlers.recovered.
    destruct (handlers.SmartParse T _ _) as [[[tmpl|] [e1|]]|r1].
    1,3: (split; [by intros tmpl' e [= _ <-]|];
          split; [discriminate|]; split; [discriminate|];
          split; [intros r [?|(tmpl' & ? & _)]; discriminate|];
          split; [discriminate | eauto]).
    2:{ split; [discriminate|]. split; [discriminate|]. split; [discriminate|].
        split; [intros r [?|(tmpl' & ? & _)]; discriminate|].
        split; [discriminate | eauto]. }
    2:{ split; [discriminate|]. split; [discriminate|]. split; [discriminate|].
        split; [intros r [[= ->]|(tmpl' & ? & _)]; [reflexivity | discriminate]|].
        split; [discriminate | eauto]. }
    split; [discriminate|].
    destruct (handlers.ProcessEvent T tmpl _) as [[v [e2|]]|r2] eqn:Hpe.
    + split; [intros tmpl' v' e [= <-]; rewrite Hpe; by intros [= _ <-]|].
      split; [intros tmpl' v' j e [= <-]; rewrite Hpe; discriminate|].
      split; [intros r [?|(tmpl' & [= <-] & [Hp|(v' & Hp & _)])];
              try discriminate; rewrite Hpe in Hp; discriminate|].
      split; [intros tmpl' v' j [= <-]; rewrite Hpe; discriminate | eauto].
    + split; [intros tmpl' v' e [= <-]; rewrite Hpe; discriminate|].
      destruct (handlers.ToJSON T v) as [[j [e3|]]|r3] eqn:Hj.
      * split; [intros tmpl' v' j' e [= <-]; rewrite Hpe; intros [= <-];
                rewrite Hj; by intros [= _ <-]|].
        split; [intros r [?|(tmpl' & [= <-] & [Hp|(v' & Hp & Hp')])];
                try discriminate; rewrite Hpe in Hp; try discriminate;
                injection Hp as <-; rewrite Hj in Hp'; discriminate|].
        split; [intros tmpl' v' j' [= <-]; rewrite Hpe; intros [= <-];
                rewrite Hj; discriminate | eauto].
      * split; [intros tmpl' v' j' e [= <-]; rewrite Hpe; intros [= <-];
                rewrite Hj; discriminate|].
        split; [intros r [?|(tmpl' & [= <-] & [Hp|(v' & Hp & Hp')])];
                try discriminate; rewrite Hpe in Hp; try discriminate;
                injection Hp as <-; rewrite Hj in Hp'; discriminate|].
        split; [intros tmpl' v' j' [= <-]; rewrite Hpe; intros [= <-];
                rewrite Hj; by intros [= <-] | eauto].
      * split; [intros tmpl' v' j' e [= <-]; rewrite Hpe; intros [= <-];
                rewrite Hj; discriminate|].
        split; [intros r [?|(tmpl' & [= <-] & [Hp|(v' & Hp & Hp')])];
                try discriminate; rewrite Hpe in Hp; try discriminate;
                injection Hp as <-; rewrite Hj in Hp'; by injection Hp' as <-|].
        split; [intros tmpl' v' j' [= <-]; rewrite Hpe; intros [= <-];
                rewrite Hj; discriminate | eauto].
    + split; [intros tmpl' v' e [= <-]; rewrite Hpe; discriminate|].
      split; [intros tmpl' v' j e [= <-]; rewrite Hpe; discriminate|].
      split; [intros r [?|(tmpl' & [= <-] & [Hp|(v' & Hp & _)])];
              try discriminate; rewrite Hpe in Hp; try discriminate;
              by injection Hp as <-|].
      split; [intros tmpl' v' j [= <-]; rewrite Hpe; discriminate | eauto].
Qed.

Lemma EventTemplateHandler_statuses_witness :
  handlers.EventTemplateHandler sampleEngine "good"
  = Ret {| handlers.status := 200;
           handlers.body := handlers.Evaluated
             {| handlers.Result := "<no value>"; handlers.Error := "";
                handlers.Format := "go" |} |}
  ∧ handlers.EventTemplateHandler sampleEngine "bad-template"
    = Ret {| handlers.status := 400;
             handlers.body := handlers.Evaluated
               {| handlers.Result := ""; handlers.Error := "error parsing template: unclosed action";
                  handlers.Format := "" |} |}
  ∧ handlers.EventTemplateHandler sampleEngine "no-object"
    = Ret {| handlers.status := 400;
             handlers.body := handlers.ErrResponse "'object' is required field" None |}
  ∧ handlers.EventTemplateHandler sampleEngine "{"
    = Ret {| handlers.status := 400;
             handlers.body := handlers.ErrResponse "Failed to parse body"
                                (Some "invalid character") |}
  ∧ handlers.EventTemplateHandler partialEngine "{}"
    = Ret {| handlers.status := 400;
             handlers.body := handlers.Evaluated
               {| handlers.Result := "events_"; handlers.Error := "no value for kind";
                  handlers.Format := "go" |} |}
  ∧ handlers.EventTemplateHandler panickingEngine "{}"
    = Ret {| handlers.status := 400;
             handlers.body := handlers.Evaluated
               {| handlers.Result := ""; handlers.Error := "Error: index out of range";
                  handlers.Format := "" |} |}.
Proof.
  split; [|split; [|split; [|split; [|split]]]].
  - destruct (EventTemplateHandler_statuses sampleEngine "good")
      as (_ & _ & _ & H & _).
    destruct H as (_ & _ & _ & _ & H & _); [reflexivity..|].
    apply (H "{{.a}}" "<no value>" "<no value>"); reflexivity.
  - destruct (EventTemplateHandler_statuses sampleEngine "bad-template")
      as (_ & _ & _ & H & _).
    destruct H as (H & _); [reflexivity..|].
    apply (H None "unclosed action"); reflexivity.
  - apply (EventTemplateHandler_statuses sampleEngine "no-object"); reflexivity.
  - apply (EventTemplateHandler_statuses sampleEngine "{"); reflexivity.
  - destruct (EventTemplateHandler_statuses partialEngine "{}")
      as (_ & _ & _ & _ & H & _).
    destruct H as (_ & H & _); [reflexivity..|].
    apply (H "events_{{.kind}}" "events_" "no value for kind"); reflexivity.
  - destruct (EventTemplateHandler_statuses panickingEngine "{}")
      as (_ & _ & _ & H & _).
    destruct H as (_ & _ & _ & H & _); [reflexivity..|].
    apply (H "index out of range"). right. exists "{{index .a 1}}".
    split; [reflexivity|]. by left.
Defined.

(** ** The user code of a package *)

Lemma external_deps_loop_filter f keys acc :
  external_deps_loop f keys acc
  = (acc ++ filter (fun d => packages f !! d = None) keys)%list.
Proof.
  unfold external_deps_loop. revert acc.
  induction keys as [|k keys IH]; intros acc; cbn [fold_left].
  - by rewrite app_nil_r.
  - rewrite IH. destruct (packages f !! k) eqn:Hk.
    + rewrite filter_cons_False; [done | by rewrite Hk].
    + rewrite filter_cons_True by done. by rewrite <- app_assoc.
Qed.

Lemma external_deps_elem f pj d :
  d ∈ filter (fun d => packages f !! d = None) (map_to_list (Dependencies pj)).*1
  ↔ d ∈ external_dependencies f pj.
Proof.
  unfold external_dependencies.
  rewrite list_elem_of_filter, elem_of_difference, !elem_of_dom.
  rewrite eq_None_not_Some.
  assert (d ∈ (map_to_list (Dependencies pj)).*1 ↔ is_Some (Dependencies pj !! d)) as ->.
  { rewrite list_elem_of_fmap. split.
    - intros [[k v] [-> Hkv]]. apply elem_of_map_to_list in Hkv. by exists v.
    - intros [v Hv]. exists (d, v). split; [done|]. by apply elem_of_map_to_list. }
  tauto.
Qed.

Lemma external_deps_NoDup f pj :
  NoDup (filter (fun d => packages f !! d = None) (map_to_list (Dependencies pj)).*1).
Proof. apply NoDup_filter, NoDup_fst_map_to_list. Qed.

Lemma external_deps_length f pj :
  length (external_deps_loop f (map_to_list (Dependencies pj)).*1 [])
  = size (external_dependencies f pj).
Proof.
  rewrite external_deps_loop_filter, app_nil_l.
  unfold size, set_size. cbn. apply Permutation_length.
  apply NoDup_Permutation.
  - apply external_deps_NoDup.
  - apply NoDup_elements.
  - intros d. rewrite external_deps_elem. by rewrite elem_of_elements.
Qed.

Lemma external_deps_singleton f pj p :
  external_dependencies f pj = {[p]} ->
  external_deps_loop f (map_to_list (Dependencies pj)).*1 [] = [p].
Proof.
  intros Hp.
  pose proof (external_deps_length f pj) as Hlen.
  rewrite Hp, size_singleton in Hlen.
  destruct (external_deps_loop f _ []) as [|q [|]] eqn:Hl; try discriminate Hlen.
  f_equal. rewrite external_deps_loop_filter, app_nil_l in Hl.
  assert (q ∈ external_dependencies f pj) as Hq.
  { apply external_deps_elem. rewrite Hl. by left. }
  rewrite Hp in Hq. by apply elem_of_singleton in Hq.
Qed.

Lemma readPackageJSON_effects E dir w r w1 :
  readPackageJSON E dir w = (r, w1) ->
  fs w1 = fs w ∧ maps w1 = maps w ∧
  (trace w1 = (trace w ++ [EvOpen (packageJSONPath dir)])%list
   ∨ trace w1 = (trace w ++ [EvOpen (packageJSONPath dir);
                             EvRead (packageJSONPath dir);
                             EvClose (packageJSONPath dir)])%list).
Proof.
  unfold readPackageJSON, Open, ReadAll, closeQuietly, bind, log, get_fs, ret.
  cbn [fs maps trace].
  destruct (io_fault E (EvOpen _)); cbn [fs maps trace].
  { intros ?; simplify_eq. cbn [fs maps trace]. auto. }
  destruct (fs w !! packageJSONPath dir) as [nd|] eqn:Hfs; cbn [fs maps trace].
  2:{ intros ?; simplify_eq. cbn [fs maps trace]. auto. }
  destruct (io_fault E (EvRead _)); cbn [fs maps trace].
  { intros ?; simplify_eq. cbn [fs maps trace]. rewrite <- !app_assoc. auto. }
  rewrite Hfs. destruct nd; cbn [fs maps trace].
  { intros ?; simplify_eq. cbn [fs maps trace]. rewrite <- !app_assoc. auto. }
  destruct (decode_packageJSON E content) as [data [e|]]; cbn [fs maps trace];
    intros ?; simplify_eq; cbn [fs maps trace]; rewrite <- !app_assoc; auto.
Qed.

(** X9: with two or more external dependencies [getExpression] returns the
    empty code and a nil error: [errors.Wrapf] is given the nil error of
    the manifest read.  Nothing is read after the runtime manifest. *)
Lemma getExpression_many_dependencies E f dir name w pj w1 :
  readPackageJSON E dir w = (Ret (Some pj, None), w1) ->
  (1 < size (external_dependencies f pj))%nat ->
  getExpression E f dir (Package name) w = (Ret ("", None), w1).
Proof.
  intros H Hs. unfold getExpression.
  rewrite (bind_Ret _ _ _ _ _ H). cbn beta iota zeta.
  rewrite external_deps_length.
  apply Nat.ltb_lt in Hs. rewrite Hs. reflexivity.
Qed.

(** X10: with no external dependency [getExpression] indexes an empty slice
    and panics. *)
Lemma getExpression_no_dependency E f dir name w pj w1 :
  readPackageJSON E dir w = (Ret (Some pj, None), w1) ->
  size (external_dependencies f pj) = 0%nat ->
  getExpression E f dir (Package name) w = (Panic index_out_of_range_0, w1).
Proof.
  intros H Hs. unfold getExpression.
  rewrite (bind_Ret _ _ _ _ _ H). cbn beta iota zeta.
  pose proof (external_deps_length f pj) as Hlen. rewrite Hs in Hlen.
  destruct (external_deps_loop f _ []); [|discriminate Hlen].
  reflexivity.
Qed.

(** C1: on a provisioned directory whose manifest lists two external
    dependencies beside the harness-support packages, [getExpression]
    returns the empty code with a nil error instead of an error; with
    none it panics.  In both cases only the runtime manifest is opened
    and read. *)
Theorem getExpression_ambiguous_dependency_not_reported :
  let E := sampleEnv npm_idle sample_decoder in
  (∃ w', getExpression E Factory "/srv" (Package "left-pad")
           (provisioned "two" "left-pad") = (Ret ("", None), w')
         ∧ paths_read (trace w') = ["/srv/package.json"; "/srv/package.json"])
  ∧ (∃ w', getExpression E Factory "/srv" (Package "left-pad")
             (provisioned "none" "left-pad") = (Panic index_out_of_range_0, w')
           ∧ paths_read (trace w') = ["/srv/package.json"; "/srv/package.json"]).
Proof.
  split; eexists; split; vm_compute; reflexivity.
Qed.

(** The same defect from end to end: with two external dependencies in
    the installed manifest, [CreateScript] returns a script whose
    [main.cjs] was rendered from the empty user code. *)
Lemma CreateScript_ambiguous_dependency_succeeds :
  ∃ w', CreateScript (sampleEnv npm_installs_two sample_decoder) Factory
          (Package "left-pad") None [] empty_world
        = (Ret (Some {| governor :=
                          {| io_Dir := "/tmp/jitsu-nodejs-6ba7b810";
                             io_Path := "node";
                             io_Args := ["--max-old-space-size=100"; "main.cjs"] |};
                        dir := "/tmp/jitsu-nodejs-6ba7b810" |}, None), w')
        ∧ fs w' !! "/tmp/jitsu-nodejs-6ba7b810/main.cjs"
          = Some (File "module.exports = ").
Proof.
  eexists. split; vm_compute; reflexivity.
Qed.

(** C7: when the manifest of the provisioned directory has exactly one
    external dependency [p] and the manifest of [p] is read, an empty
    [main] makes [getExpression] fail with "package.json main for p is
    empty"; otherwise, when the entry-point file exists and is readable,
    its content is returned unchanged as the user code. *)
Theorem getExpression_package_entry_point E f dir name w pj w1 p pkg w2 :
  readPackageJSON E dir w = (Ret (Some pj, None), w1) ->
  external_dependencies f pj = {[p]} ->
  readPackageJSON E (filepath.Join [dir; "node_modules"; p]) w1
    = (Ret (Some pkg, None), w2) ->
  (Main pkg = "" ->
     getExpression E f dir (Package name) w
     = (Ret ("", Some ("package.json main for " ++ p ++ " is empty")), w2))
  ∧ (Main pkg ≠ "" ->
     ∀ data,
       let entry := filepath.Join [filepath.Join [dir; "node_modules"; p]; Main pkg] in
       io_fault E (EvOpen entry) = None ->
       io_fault E (EvRead entry) = None ->
       fs w2 !! entry = Some (File data) ->
       ∃ w3, getExpression E f dir (Package name) w = (Ret (data, None), w3)
             ∧ fs w3 = fs w2
             ∧ trace w3 = (trace w2 ++ [EvOpen entry; EvRead entry; EvClose entry])%list).
Proof.
  intros H Hp H2. unfold getExpression.
  rewrite (bind_Ret _ _ _ _ _ H). cbn beta iota zeta.
  rewrite (external_deps_singleton f pj p Hp). cbn [length Nat.ltb Nat.leb].
  rewrite (bind_Ret _ _ _ _ _ H2). cbn beta iota zeta.
  split.
  - intros ->. reflexivity.
  - intros Hmain data Ho Hr Hfile.
    apply String.eqb_neq in Hmain. rewrite Hmain.
    unfold Open, ReadAll, closeQuietly, bind, log, get_fs, ret. cbn [fs maps trace].
    rewrite Ho. cbn [fs maps trace]. rewrite Hfile. cbn [fs maps trace].
    rewrite Hr. cbn [fs maps trace]. rewrite Hfile.
    eexists. split; [reflexivity|]. cbn [fs maps trace].
    split; [done|]. by rewrite <- !app_assoc.
Qed.

Lemma getExpression_package_entry_point_witness :
  let E := sampleEnv npm_idle sample_decoder in
  (∃ w3, getExpression E Factory "/srv" (Package "left-pad")
           (provisioned "one" "left-pad")
         = (Ret ("module.exports = (s) => s.padStart(5,'0')", None), w3))
  ∧ getExpression E Factory "/srv" (Package "left-pad")
      (provisioned "one" "no-main")
    = (Ret ("", Some "package.json main for left-pad is empty"),
       (readPackageJSON E "/srv/node_modules/left-pad"
          (readPackageJSON E "/srv" (provisioned "one" "no-main")).2).2).
Proof.
  intros E. split.
  - destruct (getExpression_package_entry_point E Factory "/srv" "left-pad"
      (provisioned "one" "left-pad") (sample_decoder "one").1
      (readPackageJSON E "/srv" (provisioned "one" "left-pad")).2 "left-pad"
      (sample_decoder "left-pad").1
      (readPackageJSON E "/srv/node_modules/left-pad"
         (readPackageJSON E "/srv" (provisioned "one" "left-pad")).2).2)
      as [_ H].
    + vm_compute. reflexivity.
    + vm_compute. reflexivity.
    + vm_compute. reflexivity.
    + destruct (H ltac:(discriminate)
                  "module.exports = (s) => s.padStart(5,'0')")
        as (w3 & Hw3 & _).
      * reflexivity.
      * reflexivity.
      * vm_compute. reflexivity.
      * exists w3. exact Hw3.
  - apply (getExpression_package_entry_point E Factory "/srv" "left-pad"
      (provisioned "one" "no-main") (sample_decoder "one").1
      (readPackageJSON E "/srv" (provisioned "one" "no-main")).2 "left-pad"
      (sample_decoder "no-main").1).
    + vm_compute. reflexivity.
    + vm_compute. reflexivity.
    + vm_compute. reflexivity.
    + reflexivity.
Defined.

(** ** Sanitizing the variables *)

Lemma sanitize_loop_nil_panics variables entries key w :
  (key, reflect.nil) ∈ entries ->
  ∃ w', sanitize_loop variables entries w = (Panic nil_dereference, w').
Proof.
  revert w. induction entries as [|[k v] rest IH]; intros w Hin.
  - by apply elem_of_nil in Hin.
  - cbn [sanitize_loop]. destruct v as [|t d]; cbn [reflect.TypeOf].
    + eexists. reflexivity.
    + apply elem_of_cons in Hin as [Heq | Hin]; [discriminate Heq|].
      unfold bind.
      destruct (decide (reflect.type_kind t = reflect.Func)).
      * cbn. apply IH, Hin.
      * unfold map_store, bind, get_maps, put_maps. cbn. apply IH, Hin.
Qed.

Lemma make_map_spec w :
  make_map w = (Ret (fresh (dom (maps w))),
                {| fs := fs w; maps := <[fresh (dom (maps w)) := ∅]> (maps w);
                   trace := trace w |}).
Proof. reflexivity. Qed.

Lemma fresh_map_ne (h : gmap nat (gmap string reflect.eface)) l m :
  h !! l = Some m -> fresh (dom h) ≠ l.
Proof.
  intros Hl Heq. apply (is_fresh (dom h)). rewrite Heq.
  apply elem_of_dom. by exists m.
Qed.

Lemma map_entries_spec vars w :
  map_entries vars w = (Ret (default ∅ (vars ≫= fun l => maps w !! l)), w).
Proof. reflexivity. Qed.

Lemma sanitizeVariables_nil_panics l m key w :
  maps w !! l = Some m -> m !! key = Some reflect.nil ->
  ∃ w', sanitizeVariables (Some l) w = (Panic nil_dereference, w').
Proof.
  intros Hl Hkey. unfold sanitizeVariables.
  rewrite (bind_Ret _ _ _ _ _ (make_map_spec w)).
  rewrite (bind_Ret _ _ _ _ _ (map_entries_spec _ _)).
  cbn [fs maps trace option_bind mbind].
  rewrite lookup_insert_ne by (by eapply fresh_map_ne).
  rewrite Hl. cbn [default].
  edestruct (sanitize_loop_nil_panics (fresh (dom (maps w))) (map_to_list m) key)
    as [w' Hw'].
  { by apply elem_of_map_to_list. }
  eexists. unfold bind. rewrite Hw'. reflexivity.
Qed.

Lemma sanitize_loop_no_nil variables entries acc w :
  (∀ k, (k, reflect.nil) ∉ entries) ->
  maps w !! variables = Some acc ->
  sanitize_loop variables entries w
  = (Ret tt, {| fs := fs w;
                maps := <[variables := fold_left sanitize_step entries acc]> (maps w);
                trace := trace w |}).
Proof.
  revert acc w. induction entries as [|[k v] rest IH]; intros acc w Hnil Hacc.
  - cbn. rewrite insert_id by done. by destruct w.
  - cbn [sanitize_loop fold_left]. destruct v as [|t d].
    { exfalso. apply (Hnil k). by left. }
    cbn [reflect.TypeOf]. unfold sanitize_step at 2. cbn [fst snd].
    assert (∀ k', (k', reflect.nil) ∉ rest) as Hrest.
    { intros k' Hin. apply (Hnil k'). by right. }
    destruct (decide (reflect.type_kind t = reflect.Func)) as [Hf|Hf];
      destruct (decide (is_func (reflect.iface t d))) as [Hf'|Hf'].
    + unfold bind, ret. by apply IH.
    + exfalso. apply Hf'. by exists t.
    + exfalso. destruct Hf' as (t' & Ht' & Hk). by injection Ht' as <-.
    + unfold bind at 1, map_store, bind, get_maps, put_maps. cbn [fs maps trace].
      rewrite Hacc. cbn [default].
      rewrite (IH (<[k := reflect.iface t d]> acc)); [| done | cbn; by rewrite lookup_insert_eq].
      cbn [fs maps trace]. by rewrite insert_insert_eq.
Qed.

Lemma fold_sanitize_lookup entries acc k :
  NoDup entries.*1 ->
  fold_left sanitize_step entries acc !! k
  = match (list_to_map entries : gmap string reflect.eface) !! k with
    | Some v => if decide (is_func v) then acc !! k else Some v
    | None => acc !! k
    end.
Proof.
  revert acc. induction entries as [|[k0 v0] rest IH]; intros acc Hnd.
  - cbn. by rewrite lookup_empty.
  - cbn [fold_left]. cbn in Hnd. apply NoDup_cons in Hnd as [Hk0 Hnd].
    rewrite IH by done. cbn [list_to_map foldr]. cbn.
    destruct (decide (k = k0)) as [->|Hne].
    + rewrite lookup_insert_eq.
      rewrite (not_elem_of_list_to_map_1 _ _ Hk0).
      unfold sanitize_step. cbn [fst snd].
      destruct (decide (is_func v0)); [done | by rewrite lookup_insert_eq].
    + rewrite lookup_insert_ne by done.
      assert (sanitize_step acc (k0, v0) !! k = acc !! k) as ->; [|done].
      unfold sanitize_step. cbn [fst snd].
      destruct (decide (is_func v0)); [done | by rewrite lookup_insert_ne].
Qed.

Lemma fold_sanitize_filter (m : gmap string reflect.eface) :
  fold_left sanitize_step (map_to_list m) ∅
  = filter (fun kv => ¬ is_func kv.2) m.
Proof.
  apply map_eq. intros k.
  rewrite fold_sanitize_lookup by apply NoDup_fst_map_to_list.
  rewrite list_to_map_to_list, lookup_empty.
  destruct (m !! k) as [v|] eqn:Hk.
  - destruct (decide (is_func v)) as [Hf|Hf]; symmetry.
    + apply map_lookup_filter_None. right. intros v' Hv'. cbn.
      rewrite Hk in Hv'. injection Hv' as <-. tauto.
    + by apply map_lookup_filter_Some.
  - symmetry. apply map_lookup_filter_None. by left.
Qed.

(** The loop gives the same map whatever the order in which the entries
    are visited. *)
Lemma fold_sanitize_order (m : gmap string reflect.eface) entries :
  entries ≡ₚ map_to_list m ->
  fold_left sanitize_step entries ∅ = filter (fun kv => ¬ is_func kv.2) m.
Proof.
  intros Hp. rewrite <- fold_sanitize_filter. apply map_eq. intros k.
  assert (NoDup entries.*1) as Hnd.
  { rewrite Hp. apply NoDup_fst_map_to_list. }
  rewrite !fold_sanitize_lookup by (done || apply NoDup_fst_map_to_list).
  by rewrite (list_to_map_proper _ _ Hnd Hp).
Qed.

(** On a bag without nil values [sanitizeVariables] returns a new map
    that holds exactly the entries whose value is not a function; the
    bag itself and everything else are left as they were. *)
Lemma sanitizeVariables_no_nil l m w :
  maps w !! l = Some m ->
  (∀ k, m !! k ≠ Some reflect.nil) ->
  let l' := fresh (dom (maps w)) in
  sanitizeVariables (Some l) w
  = (Ret l', {| fs := fs w;
                maps := <[l' := filter (fun kv => ¬ is_func kv.2) m]> (maps w);
                trace := trace w |})
  ∧ l' ≠ l.
Proof.
  intros Hl Hnil l'. split; [|by eapply fresh_map_ne].
  unfold sanitizeVariables.
  rewrite (bind_Ret _ _ _ _ _ (make_map_spec w)).
  rewrite (bind_Ret _ _ _ _ _ (map_entries_spec _ _)).
  cbn [fs maps trace option_bind mbind].
  rewrite lookup_insert_ne by (by eapply fresh_map_ne).
  rewrite Hl. cbn [default].
  erewrite bind_Ret.
  2:{ apply (sanitize_loop_no_nil _ _ ∅).
      - intros k Hin. apply elem_of_map_to_list in Hin. by apply (Hnil k).
      - cbn [fs maps trace]. apply lookup_insert_eq. }
  cbn [fs maps trace]. unfold ret. fold l'.
  by rewrite insert_insert_eq, fold_sanitize_filter.
Qed.

(** ** Provisioning *)

Lemma install_args_loop_spec entries args :
  install_args_loop entries args
  = (args ++ map (fun nv => package_arg nv.1 nv.2) entries)%list.
Proof.
  unfold install_args_loop. revert args.
  induction entries as [|nv entries IH]; intros args; cbn [fold_left map].
  - by rewrite app_nil_r.
  - rewrite IH. by rewrite <- app_assoc.
Qed.

(** Whatever the number, the order drawn visits every entry once. *)
Lemma pick_order_perm {A} fuel seed (l : list A) :
  length l = fuel -> pick_order fuel seed l ≡ₚ l.
Proof.
  revert seed l. induction fuel as [|n IH]; intros seed l Hlen.
  - by destruct l.
  - cbn [pick_order].
    assert (seed mod length l < length l)%nat as Hlt
        by (apply Nat.mod_upper_bound; lia).
    destruct (lookup_lt_is_Some_2 l _ Hlt) as [x Hx]. rewrite Hx.
    rewrite IH.
    + symmetry. by apply delete_Permutation.
    + rewrite length_delete by eauto. lia.
Qed.

Lemma visiting_order_perm {A} seed (l : list A) : visiting_order seed l ≡ₚ l.
Proof. by apply pick_order_perm. Qed.

(** And every order is drawn from some number. *)
Lemma visiting_order_complete {A} (l l' : list A) :
  l' ≡ₚ l -> ∃ seed, visiting_order seed l = l'.
Proof.
  revert l. induction l' as [|x t IH]; intros l Hp.
  - apply Permutation_nil in Hp as ->. by exists 0%nat.
  - assert (x ∈ l) as Hx by (rewrite <- Hp; apply elem_of_cons; by left).
    apply list_elem_of_lookup in Hx as [i Hi].
    pose proof (lookup_lt_Some _ _ _ Hi) as Hlt.
    assert (t ≡ₚ delete i l) as Ht.
    { apply (Permutation_cons_inv (a := x)).
      rewrite Hp. by apply delete_Permutation. }
    destruct (IH _ Ht) as [seed' Hseed'].
    exists (i + seed' * length l)%nat.
    unfold visiting_order. destruct (length l) as [|n] eqn:Hlen; [lia|].
    cbn [pick_order]. rewrite Hlen.
    rewrite Nat.Div0.mod_add, Nat.mod_small by lia.
    rewrite Nat.div_add, Nat.div_small by lia. cbn [Nat.add].
    rewrite Hi. f_equal. rewrite <- Hseed'. unfold visiting_order.
    rewrite length_delete by eauto. by rewrite Hlen, Nat.sub_1_r.
Qed.

Lemma visited_perm {A} E w (m : gmap string A) : visited E w m ≡ₚ map_to_list m.
Proof. apply visiting_order_perm. Qed.

(** Every order of the entries is the order of some run. *)
Lemma visited_any_order {A} E w (m : gmap string A) entries :
  entries ≡ₚ map_to_list m -> ∃ seed, visited (with_range_seed seed E) w m = entries.
Proof.
  intros H. destruct (visiting_order_complete _ _ H) as [seed Hs]. by exists seed.
Qed.

Lemma installNodeModules_Run E f dir modules w :
  installNodeModules E f dir modules w
  = Run E (install_cmd (visited E w (packages f)) dir modules) w.
Proof.
  unfold installNodeModules, install_cmd, range_over, bind, visited.
  by rewrite install_args_loop_spec.
Qed.

Lemma Run_spec E c w :
  ∃ err w', Run E c w = (Ret err, w')
    ∧ trace w' = (trace w ++ [EvRun c])%list
    ∧ maps w' = maps w
    ∧ (∀ e, io_fault E (EvRun c) = Some e -> err = Some e ∧ fs w' = fs w)
    ∧ (io_fault E (EvRun c) = None ->
       (cmd_timeout c < runtime (spawn E c (fs w)) ->
          err = Some "signal: killed"
          ∧ fs w' = effect (spawn E c (fs w)) (cmd_timeout c))
       ∧ (runtime (spawn E c (fs w)) <= cmd_timeout c ->
          err = exit (spawn E c (fs w))
          ∧ fs w' = effect (spawn E c (fs w)) (runtime (spawn E c (fs w))))).
Proof.
  unfold Run, bind, log, get_fs, put_fs, ret. cbn [fs maps trace].
  destruct (io_fault E (EvRun c)) as [e|].
  - eexists _, _. split; [reflexivity|]. cbn [fs maps trace].
    repeat split; try done; by intros ? [= <-].
  - cbn [fs maps trace].
    destruct (cmd_timeout c <? runtime (spawn E c (fs w))) eqn:Hlt.
    + apply Z.ltb_lt in Hlt.
      eexists _, _. split; [reflexivity|]. cbn [fs maps trace].
      repeat split; try done; lia.
    + apply Z.ltb_ge in Hlt.
      eexists _, _. split; [reflexivity|]. cbn [fs maps trace].
      repeat split; try done; lia.
Qed.

Lemma CreateScript_install_fails E f x vars incl w w3 e w4 :
  reaches_install E x w w3 ->
  installNodeModules E f (script_dir E) (getDependencies x).1 w3
    = (Ret (Some e), w4) ->
  CreateScript E f x vars incl w
  = (Ret (None, Some ("install node modules in '" ++ script_dir E ++ "'" ++ ": " ++ e)),
     w4).
Proof.
  intros (wa & wb & w1 & w2 & Ha & Hb & H1 & H2 & H3 & Hdep) Hinst.
  unfold CreateScript. fold (script_dir E).
  rewrite (bind_Ret _ _ _ _ _ Ha). cbn beta iota.
  rewrite (bind_Ret _ _ _ _ _ Hb). cbn beta iota zeta.
  rewrite (bind_Ret _ _ _ _ _ H1). cbn beta iota.
  rewrite (bind_Ret _ _ _ _ _ H2). cbn beta iota.
  rewrite (bind_Ret _ _ _ _ _ H3). cbn beta iota.
  destruct (getDependencies x) as [deps err]. cbn [fst snd] in *. subst err.
  rewrite (bind_Ret _ _ _ _ _ Hinst). cbn beta iota.
  unfold ret, errors.Wrapf, errors.Wrap. by rewrite !append_assoc.
Qed.

Lemma CreateScript_sanitize_panics E f x vars incl w expression w6 msg w7 :
  reaches_rendering E f x w expression w6 ->
  sanitizeVariables vars w6 = (Panic msg, w7) ->
  CreateScript E f x vars incl w = (Panic msg, w7).
Proof.
  intros (w3 & w4 & w5 & (wa & wb & w1 & w2 & Ha & Hb & H1 & H2 & H3 & Hdep)
          & Hinst & Hcreate & Hexpr) Hpanic.
  unfold CreateScript. fold (script_dir E).
  rewrite (bind_Ret _ _ _ _ _ Ha). cbn beta iota.
  rewrite (bind_Ret _ _ _ _ _ Hb). cbn beta iota zeta.
  rewrite (bind_Ret _ _ _ _ _ H1). cbn beta iota.
  rewrite (bind_Ret _ _ _ _ _ H2). cbn beta iota.
  rewrite (bind_Ret _ _ _ _ _ H3). cbn beta iota.
  destruct (getDependencies x) as [deps err]. cbn [fst snd] in *. subst err.
  rewrite (bind_Ret _ _ _ _ _ Hinst). cbn beta iota.
  rewrite (bind_Ret _ _ _ _ _ Hcreate). cbn beta iota.
  rewrite (bind_Ret _ _ _ _ _ Hexpr). cbn beta iota.
  by rewrite (bind_Panic _ _ _ _ _ Hpanic).
Qed.

(** *** Making directories *)

(** [os.Mkdir] adds the directory, and nothing else, or fails. *)
Lemma Mkdir_spec path s s' err :
  Mkdir path s = (s', err) ->
  (err = None ∧ s !! path = None ∧ s' = <[path := Dir]> s)
  ∨ (err ≠ None ∧ s' = s).
Proof.
  unfold Mkdir. destruct (s !! path) eqn:Hp.
  - intros ?; simplify_eq. by right.
  - destruct (holder_error "mkdir" path s); intros ?; simplify_eq.
    + by right.
    + by left.
Qed.

(** [os.MkdirAll] only adds directories, only at the path and its
    parents, and only where there was nothing; after a success the path
    is a directory. *)
Lemma MkdirAll_from_spec chain s s' err :
  MkdirAll_from chain s = (s', err) ->
  (∀ q, s' !! q = s !! q ∨ (q ∈ chain ∧ s !! q = None ∧ s' !! q = Some Dir))
  ∧ (∀ p, err = None -> head chain = Some p -> s' !! p = Some Dir).
Proof.
  revert s' err. induction chain as [|path parents IH]; intros s' err.
  - cbn [MkdirAll_from]. intros ?; simplify_eq. split; [by left | done].
  - cbn [MkdirAll_from head]. destruct (s !! path) as [[|c]|] eqn:Hpath.
    + intros ?; simplify_eq. split; [by left|]. by intros p _ [= <-].
    + intros ?; simplify_eq. split; [by left | done].
    + destruct (MkdirAll_from parents s) as [s1 [e1|]] eqn:Hrec.
      * intros ?; simplify_eq. destruct (IH _ _ eq_refl) as [Hq _]. split; [|done].
        intros q. destruct (Hq q) as [?|(? & ? & ?)]; [by left|right].
        split; [apply elem_of_cons; by right | done].
      * destruct (IH _ _ eq_refl) as [Hq _].
        assert (∀ q, s1 !! q = s !! q
                     ∨ (q ∈ path :: parents ∧ s !! q = None ∧ s1 !! q = Some Dir))
          as Hq1.
        { intros q. destruct (Hq q) as [?|(? & ? & ?)]; [by left|right].
          split; [apply elem_of_cons; by right | done]. }
        destruct (Mkdir path s1) as [s2 e2] eqn:Hmk.
        destruct (Mkdir_spec _ _ _ _ Hmk) as [(-> & Hnone & ->)|[Hne ->]].
        -- intros ?; simplify_eq. split.
           ++ intros q. destruct (decide (q = path)) as [->|Hneq].
              ** right. split; [apply elem_of_cons; by left|].
                 split; [done | apply lookup_insert_eq].
              ** rewrite lookup_insert_ne by done. apply Hq1.
           ++ intros p _ [= <-]. apply lookup_insert_eq.
        -- destruct e2 as [e2|]; [|done].
           destruct (s1 !! path) as [[|c]|] eqn:H1; intros ?; simplify_eq;
             (split; [exact Hq1|]); try done.
           by intros p _ [= <-].
Qed.

(** After a success every parent is a directory up to the nearest one
    that was there before. *)
Lemma MkdirAll_from_made chain s s' :
  MkdirAll_from chain s = (s', None) ->
  ∀ near p far,
    chain = (near ++ p :: far)%list ->
    (∀ q, q ∈ near -> s !! q = None) ->
    s' !! p = Some Dir.
Proof.
  revert s'. induction chain as [|path parents IH]; intros s' Hmk near p far Hc Hnear.
  - by destruct near.
  - destruct near as [|q near]; cbn [app] in Hc; injection Hc as <- Hc.
    + by apply (MkdirAll_from_spec _ _ _ _ Hmk).
    + cbn [MkdirAll_from] in Hmk.
      rewrite (Hnear path) in Hmk by (apply elem_of_cons; by left).
      destruct (MkdirAll_from parents s) as [s1 [e1|]] eqn:Hrec; [discriminate Hmk|].
      assert (s1 !! p = Some Dir) as Hp.
      { apply (IH s1 eq_refl near p far Hc). intros q' Hq'. apply Hnear.
        apply elem_of_cons. by right. }
      destruct (Mkdir path s1) as [s2 e2] eqn:Hmkd.
      destruct (Mkdir_spec _ _ _ _ Hmkd) as [(-> & Hnone & ->)|[Hne ->]].
      * simplify_eq. destruct (decide (p = path)) as [->|Hneq].
        -- apply lookup_insert_eq.
        -- by rewrite lookup_insert_ne.
      * destruct e2 as [e2|]; [|done].
        destruct (s1 !! path) as [[|c]|]; by simplify_eq.
Qed.

Lemma MkdirAll_ok E p w w' :
  MkdirAll E p w = (Ret None, w') ->
  MkdirAll_from (p :: ancestors p) (fs w) = (fs w', None)
  ∧ maps w' = maps w
  ∧ fs w' !! p = Some Dir
  ∧ (∀ q, fs w' !! q = fs w !! q
          ∨ (q ∈ p :: ancestors p ∧ fs w !! q = None ∧ fs w' !! q = Some Dir)).
Proof.
  unfold MkdirAll, bind, log, get_fs, put_fs, ret. cbn [fs maps trace].
  destruct (io_fault E (EvMkdirAll p)); [intros ?; simplify_eq|].
  cbn [fs maps trace].
  destruct (MkdirAll_from (p :: ancestors p) (fs w)) as [s' err] eqn:Hmk.
  cbn [fs maps trace]. intros ?; simplify_eq. cbn [fs maps fst].
  destruct (MkdirAll_from_spec _ _ _ _ Hmk) as [Hq Hp].
  split; [done|]. split; [done|]. split; [by apply Hp | exact Hq].
Qed.

Lemma MkdirAll_creates E p w w' :
  MkdirAll E p w = (Ret None, w') -> fs w' !! p = Some Dir.
Proof. intros H. by destruct (MkdirAll_ok _ _ _ _ H) as (_ & _ & ? & _). Qed.

(** [os.Create] on success: the file is there and empty, and it did not
    replace a directory. *)
Lemma Create_ok E p w h w' :
  Create E p w = (Ret (h, None), w') ->
  h = p ∧ fs w' = <[p := File ""]> (fs w) ∧ maps w' = maps w
  ∧ trace w' = (trace w ++ [EvCreate p])%list
  ∧ fs w !! p ≠ Some Dir.
Proof.
  unfold Create, bind, log, get_fs, put_fs, ret. cbn [fs maps trace].
  destruct (io_fault E (EvCreate p)); [intros ?; simplify_eq|].
  cbn [fs maps trace].
  destruct (fs w !! p) as [[|c]|] eqn:Hp; cbn [fs maps trace];
    [intros ?; simplify_eq| |].
  - intros ?; simplify_eq. done.
  - destruct (holder_error "open" p (fs w)); cbn [fs maps trace];
      intros ?; simplify_eq. done.
Qed.

Lemma createPackageJSON_ok E d w w' :
  createPackageJSON E d w = (Ret None, w') ->
  fs w' = <[packageJSONPath d := File "{}"]> (fs w) ∧ maps w' = maps w
  ∧ fs w !! packageJSONPath d ≠ Some Dir.
Proof.
  unfold createPackageJSON. unfold bind at 1.
  destruct (Create E (packageJSONPath d) w) as [[[h [e|]]|msg] w1] eqn:Hc;
    [intros ?; simplify_eq| |intros ?; simplify_eq].
  destruct (Create_ok _ _ _ _ _ Hc) as (-> & Hf1 & Hm1 & _ & Hnd).
  unfold Write, closeQuietly, bind, log, get_fs, put_fs, ret. cbn [fs maps trace].
  destruct (io_fault E (EvWrite _ _)); cbn [fs maps trace];
    [intros ?; simplify_eq|].
  rewrite Hf1, lookup_insert_eq. cbn [fs maps trace].
  intros ?; simplify_eq; cbn [fs maps].
  by rewrite insert_insert_eq.
Qed.

Lemma createPackageJSON_keeps_dir E d w w' :
  createPackageJSON E d w = (Ret None, w') ->
  fs w !! d = Some Dir -> fs w' !! d = Some Dir.
Proof.
  intros H Hd. destruct (createPackageJSON_ok _ _ _ _ H) as (-> & _ & Hnd).
  rewrite lookup_insert_ne; [done|]. intros Heq. by rewrite Heq in Hnd.
Qed.

Lemma reaches_install_has_dir E x w w3 :
  reaches_install E x w w3 ->
  fs w3 !! script_dir E = Some Dir
  ∧ fs w3 !! packageJSONPath (script_dir E) = Some (File "{}").
Proof.
  intros (wa & wb & w1 & w2 & Ha & Hb & H1 & H2 & H3 & Hdep). split.
  - eapply createPackageJSON_keeps_dir; [exact H3|].
    eapply MkdirAll_creates, H2.
  - destruct (createPackageJSON_ok _ _ _ _ H3) as (-> & _ & _).
    apply lookup_insert_eq.
Qed.

(** C3 (amended): when the installation fails, [CreateScript] returns
    the error of the package manager wrapped with "install node modules
    in" and does nothing more: the run of the package manager is the
    last call it makes, so it removes nothing.  The directory and its
    manifest [{}] are on disk when the package manager starts, and the
    disk [CreateScript] leaves is the one the package manager left when
    it exited or was killed (the one it was started on when it could not
    be started): the directory and the manifest are still there unless
    the package manager itself removed them. *)
Theorem CreateScript_failed_install_keeps_directory
    E f x vars incl w w3 e w4 :
  reaches_install E x w w3 ->
  installNodeModules E f (script_dir E) (getDependencies x).1 w3
    = (Ret (Some e), w4) ->
  let cmd := install_cmd (visited E w3 (packages f)) (script_dir E)
               (getDependencies x).1 in
  let p := spawn E cmd (fs w3) in
  let stopped := Z.min (runtime p) (cmd_timeout cmd) in
  CreateScript E f x vars incl w
  = (Ret (None, Some ("install node modules in '" ++ script_dir E ++ "'"
                      ++ ": " ++ e)), w4)
  ∧ fs w3 !! script_dir E = Some Dir
  ∧ fs w3 !! packageJSONPath (script_dir E) = Some (File "{}")
  ∧ trace w4 = (trace w3 ++ [EvRun cmd])%list
  ∧ (io_fault E (EvRun cmd) ≠ None -> fs w4 = fs w3)
  ∧ (io_fault E (EvRun cmd) = None -> fs w4 = effect p stopped)
  ∧ ((io_fault E (EvRun cmd) = None ->
      effect p stopped !! script_dir E = Some Dir
      ∧ effect p stopped !! packageJSONPath (script_dir E) = Some (File "{}")) ->
     fs w4 !! script_dir E = Some Dir
     ∧ fs w4 !! packageJSONPath (script_dir E) = Some (File "{}")).
Proof.
  intros Hreach Hinst cmd p stopped.
  split; [by apply (CreateScript_install_fails E f x vars incl w w3)|].
  destruct (reaches_install_has_dir _ _ _ _ Hreach) as [Hdir Hman].
  split; [exact Hdir|]. split; [exact Hman|].
  rewrite installNodeModules_Run in Hinst. fold cmd in Hinst.
  destruct (Run_spec E cmd w3) as (err & w' & Hrun & Htrace & _ & Hfault & Hproc).
  rewrite Hrun in Hinst. simplify_eq.
  split; [exact Htrace|].
  assert (io_fault E (EvRun cmd) = None -> fs w4 = effect p stopped) as Hleft.
  { intros Hf. destruct (Hproc Hf) as [Hkill Hexit]. unfold stopped. fold p in Hkill, Hexit.
    destruct (Z.lt_ge_cases (cmd_timeout cmd) (runtime p)) as [Hlt|Hge].
    - destruct (Hkill Hlt) as [_ ->]. by rewrite Z.min_r by lia.
    - destruct (Hexit Hge) as [_ ->]. by rewrite Z.min_l by lia. }
  assert (io_fault E (EvRun cmd) ≠ None -> fs w4 = fs w3) as Hnot.
  { intros Hf. destruct (io_fault E (EvRun cmd)) as [e0|] eqn:Hio; [|done].
    by destruct (Hfault e0 eq_refl) as [_ ->]. }
  split; [exact Hnot|]. split; [exact Hleft|].
  intros Hkept. destruct (io_fault E (EvRun cmd)) as [e0|] eqn:Hio.
  - rewrite Hnot by done. by split.
  - rewrite Hleft by done. by apply Hkept.
Qed.

(** C3, as stated, fails: with a package manager that exits with status
    1, [CreateScript] returns the error and the directory with its
    manifest is still on disk. *)
Lemma CreateScript_failed_install_residue :
  ∃ w', CreateScript (sampleEnv npm_fails sample_decoder) Factory
          (Expression "return $.value * 2") None [] empty_world
        = (Ret (None, Some "install node modules in '/tmp/jitsu-nodejs-6ba7b810': exit status 1"),
           w')
        ∧ fs w' !! "/tmp/jitsu-nodejs-6ba7b810" = Some Dir
        ∧ fs w' !! "/tmp/jitsu-nodejs-6ba7b810/package.json" = Some (File "{}").
Proof.
  eexists. split; [vm_compute; reflexivity|]. split; vm_compute; reflexivity.
Qed.

Lemma CreateScript_failed_install_keeps_directory_witness :
  let E := sampleEnv npm_fails sample_decoder in
  ∃ w4, CreateScript E Factory (Expression "return $.value * 2") None [] empty_world
        = (Ret (None, Some ("install node modules in '" ++ script_dir E ++ "'"
                            ++ ": " ++ "exit status 1")), w4)
        ∧ fs w4 !! script_dir E = Some Dir
        ∧ fs w4 !! packageJSONPath (script_dir E) = Some (File "{}").
Proof.
  intros E.
  set (x := Expression "return $.value * 2").
  set (wa := (LookPath E node empty_world).2).
  set (wb := (LookPath E npm wa).2).
  set (w1 := (RemoveAll E (script_dir E) wb).2).
  set (w2 := (MkdirAll E (script_dir E) w1).2).
  set (w3 := (createPackageJSON E (script_dir E) w2).2).
  set (w4 := (installNodeModules E Factory (script_dir E) (getDependencies x).1 w3).2).
  exists w4.
  destruct (CreateScript_failed_install_keeps_directory E Factory x None []
              empty_world w3 "exit status 1" w4)
    as (H1 & _ & _ & _ & _ & _ & H3).
  - exists wa, wb, w1, w2. repeat split; vm_compute; reflexivity.
  - vm_compute. reflexivity.
  - split; [exact H1|]. apply H3. intros _. split; vm_compute; reflexivity.
Defined.

Lemma package_arg_spec name version :
  package_arg name version = if decide (version = "") then name
                             else name ++ "@" ++ version.
Proof.
  unfold package_arg. destruct (decide (version = "")) as [->|Hne]; [done|].
  apply String.eqb_neq in Hne. by rewrite Hne.
Qed.

(** The tokens of the packages of [Factory], in the two orders there
    are. *)
Lemma Factory_install_args entries dir modules :
  entries ≡ₚ map_to_list (packages Factory) ->
  cmd_args (install_cmd entries dir modules)
  = ("install" :: "node-fetch@2" :: "vm2@3" :: modules)%list
  ∨ cmd_args (install_cmd entries dir modules)
    = ("install" :: "vm2@3" :: "node-fetch@2" :: modules)%list.
Proof.
  change (map_to_list (packages Factory)) with [("node-fetch", "2"); ("vm2", "3")].
  intros Hp. pose proof (Permutation_length Hp) as Hlen.
  destruct entries as [|a [|b [|c rest]]]; try discriminate Hlen.
  assert (a ∈ [("node-fetch", "2"); ("vm2", "3")]) as Ha
      by (rewrite <- Hp; apply elem_of_cons; by left).
  assert (b ∈ [("node-fetch", "2"); ("vm2", "3")]) as Hb
      by (rewrite <- Hp; apply elem_of_cons; right; apply elem_of_cons; by left).
  assert (NoDup [a; b]) as Hnd.
  { rewrite Hp. apply NoDup_cons. split; [|apply NoDup_singleton].
    intros Hin. apply list_elem_of_singleton in Hin. discriminate Hin. }
  apply NoDup_cons in Hnd as [Hab _].
  apply elem_of_cons in Ha as [->|Ha]; apply elem_of_cons in Hb as [->|Hb];
    try (apply list_elem_of_singleton in Ha as ->);
    try (apply list_elem_of_singleton in Hb as ->);
    try (exfalso; apply Hab; apply list_elem_of_singleton; reflexivity).
  - by left.
  - by right.
Qed.

(** C6: [installNodeModules] runs the package manager once: the command
    is [npm], its arguments are [install], then one token per
    harness-support package ([name@version], or the bare name for an
    empty version), each package once and in the order in which the
    [range] of this run visits them, which Go does not fix, and then the
    modules of the resolver; for the packages of [Factory] the tokens
    are [node-fetch@2] and [vm2@3], in either order.  Its context
    expires after two minutes.  A process that outlives the deadline is
    killed, and the error of a killed or failed process is the result;
    [CreateScript] then returns that error and no script. *)
Theorem installNodeModules_one_invocation E f dir modules w :
  let entries := visited E w (packages f) in
  let cmd := install_cmd entries dir modules in
  let p := spawn E cmd (fs w) in
  entries ≡ₚ map_to_list (packages f)
  ∧ ∃ err w',
    installNodeModules E f dir modules w = (Ret err, w')
    ∧ trace w' = (trace w ++ [EvRun cmd])%list
    ∧ cmd_name cmd = npm
    ∧ cmd_timeout cmd = 2 * time.Minute
    ∧ cmd_Dir cmd = dir
    ∧ cmd_args cmd
      = ("install" :: map (fun nv => if decide (nv.2 = "") then nv.1
                                     else (nv.1 ++ "@" ++ nv.2)%string)
                        entries ++ modules)%list
    ∧ (f = Factory ->
       cmd_args cmd = ("install" :: "node-fetch@2" :: "vm2@3" :: modules)%list
       ∨ cmd_args cmd = ("install" :: "vm2@3" :: "node-fetch@2" :: modules)%list)
    ∧ (io_fault E (EvRun cmd) = None ->
       (2 * time.Minute < runtime p ->
          err = Some "signal: killed" ∧ fs w' = effect p (2 * time.Minute))
       ∧ (runtime p <= 2 * time.Minute ->
          err = exit p ∧ fs w' = effect p (runtime p)))
    ∧ (∀ e x vars incl w0,
         err = Some e -> reaches_install E x w0 w ->
         dir = script_dir E -> modules = (getDependencies x).1 ->
         CreateScript E f x vars incl w0
         = (Ret (None, Some ("install node modules in '" ++ script_dir E ++ "'"
                             ++ ": " ++ e)), w')).
Proof.
  intros entries cmd p. split; [apply visited_perm|].
  rewrite installNodeModules_Run. fold entries cmd.
  destruct (Run_spec E cmd w) as (err & w' & Hrun & Htrace & _ & _ & Hproc).
  exists err, w'. split; [done|]. split; [done|]. split; [done|]. split; [done|].
  split; [done|]. split.
  { unfold cmd, install_cmd. cbn [cmd_args]. do 2 f_equal.
    apply map_ext. intros [n v]. apply package_arg_spec. }
  split.
  { intros ->. apply Factory_install_args, visited_perm. }
  split; [exact Hproc|].
  intros e x vars incl w0 -> Hreach -> ->.
  apply (CreateScript_install_fails E f x vars incl w0 w); [done|].
  rewrite installNodeModules_Run. exact Hrun.
Qed.

Lemma installNodeModules_one_invocation_witness :
  let E := sampleEnv npm_fails sample_decoder in
  let x := Package "left-pad" in
  (∃ w3 w',
     trace w' = (trace w3 ++ [EvRun {| cmd_timeout := 120000000000;
                                       cmd_name := "npm";
                                       cmd_args := ["install"; "node-fetch@2"; "vm2@3";
                                                    "left-pad"];
                                       cmd_Dir := script_dir E |}])%list
     ∧ CreateScript E Factory x None [] empty_world
       = (Ret (None, Some ("install node modules in '" ++ script_dir E ++ "'"
                           ++ ": " ++ "exit status 1")), w'))
  ∧ (∃ w3 w',
     trace w' = (trace w3 ++ [EvRun {| cmd_timeout := 120000000000;
                                       cmd_name := "npm";
                                       cmd_args := ["install"; "vm2@3"; "node-fetch@2";
                                                    "left-pad"];
                                       cmd_Dir := script_dir E |}])%list
     ∧ CreateScript (with_range_seed 1 E) Factory x None [] empty_world
       = (Ret (None, Some ("install node modules in '" ++ script_dir E ++ "'"
                           ++ ": " ++ "exit status 1")), w')).
Proof.
  intros E x. split.
  - set (wa := (LookPath E node empty_world).2).
    set (wb := (LookPath E npm wa).2).
    set (w1 := (RemoveAll E (script_dir E) wb).2).
    set (w2 := (MkdirAll E (script_dir E) w1).2).
    set (w3 := (createPackageJSON E (script_dir E) w2).2).
    exists w3.
    destruct (installNodeModules_one_invocation E Factory (script_dir E)
                (getDependencies x).1 w3)
      as (_ & err & w' & Hrun & Htrace & _ & _ & _ & _ & _ & Hproc & Hfail).
    exists w'. split; [exact Htrace|].
    destruct (Hproc eq_refl) as [_ Hexit].
    destruct Hexit as [Herr _]; [vm_compute; discriminate|].
    apply (Hfail "exit status 1" x None [] empty_world).
    + rewrite Herr. reflexivity.
    + exists wa, wb, w1, w2. repeat split; vm_compute; reflexivity.
    + reflexivity.
    + reflexivity.
  - set (E' := with_range_seed 1 E).
    set (wa := (LookPath E' node empty_world).2).
    set (wb := (LookPath E' npm wa).2).
    set (w1 := (RemoveAll E' (script_dir E') wb).2).
    set (w2 := (MkdirAll E' (script_dir E') w1).2).
    set (w3 := (createPackageJSON E' (script_dir E') w2).2).
    exists w3.
    destruct (installNodeModules_one_invocation E' Factory (script_dir E')
                (getDependencies x).1 w3)
      as (_ & err & w' & Hrun & Htrace & _ & _ & _ & _ & _ & Hproc & Hfail).
    exists w'. split; [exact Htrace|].
    destruct (Hproc eq_refl) as [_ Hexit].
    destruct Hexit as [Herr _]; [vm_compute; discriminate|].
    apply (Hfail "exit status 1" x None [] empty_world).
    + rewrite Herr. reflexivity.
    + exists wa, wb, w1, w2. repeat split; vm_compute; reflexivity.
    + reflexivity.
    + reflexivity.
Defined.

(** C10: on a bag in which some key holds the nil interface,
    [sanitizeVariables] panics with a nil dereference, the nil [Type] of
    [reflect.TypeOf] being asked for its kind; so does [CreateScript]
    once it has got as far as rendering the template. *)
Theorem sanitizeVariables_nil_value_panics l m key w :
  maps w !! l = Some m ->
  m !! key = Some reflect.nil ->
  (∃ w', sanitizeVariables (Some l) w = (Panic nil_dereference, w'))
  ∧ (∀ E f x incl w0 expression,
       reaches_rendering E f x w0 expression w ->
       ∃ w', CreateScript E f x (Some l) incl w0 = (Panic nil_dereference, w')).
Proof.
  intros Hl Hkey.
  destruct (sanitizeVariables_nil_panics l m key w Hl Hkey) as [w' Hw'].
  split; [by exists w'|].
  intros E f x incl w0 expression Hreach. exists w'.
  by apply (CreateScript_sanitize_panics E f x (Some l) incl w0 expression w).
Qed.

Lemma sanitizeVariables_nil_value_panics_witness :
  let E := sampleEnv npm_idle sample_decoder in
  let bag : gmap string reflect.eface :=
    <["user" := reflect.iface stringType 1]> (<["referrer" := reflect.nil]> ∅) in
  (∃ w', sanitizeVariables (Some 0%nat) (world_with_vars bag)
         = (Panic nil_dereference, w'))
  ∧ (∃ w', CreateScript E Factory (Expression "return $.value * 2")
             (Some 0%nat) [] (world_with_vars bag)
           = (Panic nil_dereference, w')).
Proof.
  intros E bag. split.
  - apply (sanitizeVariables_nil_value_panics 0%nat bag "referrer"
             (world_with_vars bag)); reflexivity.
  - set (x := Expression "return $.value * 2").
    set (wa := (LookPath E node (world_with_vars bag)).2).
    set (wb := (LookPath E npm wa).2).
    set (w1 := (RemoveAll E (script_dir E) wb).2).
    set (w2 := (MkdirAll E (script_dir E) w1).2).
    set (w3 := (createPackageJSON E (script_dir E) w2).2).
    set (w4 := (installNodeModules E Factory (script_dir E) (getDependencies x).1 w3).2).
    set (w5 := (Create E (filepath.Join [script_dir E; executableScriptName]) w4).2).
    set (w6 := (getExpression E Factory (script_dir E) x w5).2).
    destruct (sanitizeVariables_nil_value_panics 0%nat bag "referrer" w6) as [_ H].
    + vm_compute. reflexivity.
    + reflexivity.
    + apply (H E Factory x []
               (world_with_vars bag)
               (expression_head ++ "return $.value * 2" ++ expression_tail)).
      exists w3, w4, w5. split; [|repeat split; vm_compute; reflexivity].
      exists wa, wb, w1, w2. repeat split; vm_compute; reflexivity.
Defined.

(** C5: on a bag with a nil value [sanitizeVariables] returns no
    sanitized bag at all: it panics, although the key is not a function
    and should survive. *)
Theorem sanitizeVariables_nil_entry_lost :
  let bag : gmap string reflect.eface :=
    <["user" := reflect.iface stringType 1]>
      (<["callback" := reflect.iface funcType 2]>
         (<["referrer" := reflect.nil]> ∅)) in
  ¬ is_func reflect.nil
  ∧ ∃ w', sanitizeVariables (Some 0%nat) (world_with_vars bag)
          = (Panic nil_dereference, w').
Proof.
  intros bag. split.
  - intros (t & Ht & _). discriminate Ht.
  - eexists. vm_compute. reflexivity.
Qed.


(** * Further properties of the packages *)

(** ** Reading never writes *)

Lemma Open_effects E p w r w' :
  Open E p w = (r, w') -> fs w' = fs w ∧ maps w' = maps w.
Proof.
  unfold Open, bind, log, get_fs, ret. cbn [fs maps trace].
  intros H. repeat case_match; simplify_eq; done.
Qed.

Lemma ReadAll_effects E p w r w' :
  ReadAll E p w = (r, w') -> fs w' = fs w ∧ maps w' = maps w.
Proof.
  unfold ReadAll, bind, log, get_fs, ret. cbn [fs maps trace].
  intros H. repeat case_match; simplify_eq; done.
Qed.

(** X1: [getExpression] only reads: whatever the executable, the
    directory and the outcome (user code, error or panic), the file
    system and the Go maps are left exactly as they were. *)
Theorem getExpression_read_only E f dir x w :
  fs (getExpression E f dir x w).2 = fs w
  ∧ maps (getExpression E f dir x w).2 = maps w.
Proof.
  destruct x as [src|name|t]; [cbn; done| |cbn; done].
  unfold getExpression.
  destruct (readPackageJSON E dir w) as [[[pj err]|msg] w1] eqn:H1;
    pose proof (readPackageJSON_effects _ _ _ _ _ H1) as (Hf1 & Hm1 & _);
    [rewrite (bind_Ret _ _ _ _ _ H1) | rewrite (bind_Panic _ _ _ _ _ H1); cbn; split; congruence].
  destruct err as [e|]; [cbn; split; congruence|].
  destruct pj as [pj|]; [|cbn; split; congruence].
  destruct (1 <? _)%nat; [cbn; split; congruence|].
  destruct (external_deps_loop f _ []) as [|p rest]; [cbn; split; congruence|].
  destruct (readPackageJSON E (filepath.Join [dir; "node_modules"; p]) w1)
    as [[[pkg err]|msg] w2] eqn:H2;
    pose proof (readPackageJSON_effects _ _ _ _ _ H2) as (Hf2 & Hm2 & _);
    [rewrite (bind_Ret _ _ _ _ _ H2) | rewrite (bind_Panic _ _ _ _ _ H2); cbn; split; congruence].
  destruct err as [e|]; [cbn; split; congruence|].
  destruct pkg as [pkg|]; [|cbn; split; congruence].
  destruct (String.eqb (Main pkg) ""); [cbn; split; congruence|].
  destruct (Open E (filepath.Join [filepath.Join [dir; "node_modules"; p]; Main pkg]) w2)
    as [[[main err]|msg] w3] eqn:H3;
    pose proof (Open_effects _ _ _ _ _ H3) as (Hf3 & Hm3);
    [rewrite (bind_Ret _ _ _ _ _ H3)
    | rewrite (bind_Panic _ _ _ _ _ H3); cbn; split; congruence].
  destruct err as [e|]; [cbn; split; congruence|].
  destruct (ReadAll E main w3) as [[[data err]|msg] w4] eqn:H4;
    pose proof (ReadAll_effects _ _ _ _ _ H4) as (Hf4 & Hm4);
    [rewrite (bind_Ret _ _ _ _ _ H4)
    | rewrite (bind_Panic _ _ _ _ _ H4); cbn; split; congruence].
  unfold closeQuietly, bind, log. cbn [fs maps trace].
  destruct err; cbn; split; congruence.
Qed.


(** ** Provisioning the directory *)

(** A computation whose result is known leaves the world it leaves. *)
Lemma result_and_world {A} (m : M A) (w : World) (o : outcome A) :
  (m w).1 = o -> m w = (o, (m w).2).
Proof. intros <-. by destruct (m w). Qed.

Lemma reaches_resolution_intro E w :
  (LookPath E node w).1 = Ret None ->
  (LookPath E npm (LookPath E node w).2).1 = Ret None ->
  (RemoveAll E (script_dir E) (LookPath E npm (LookPath E node w).2).2).1 = Ret None ->
  (MkdirAll E (script_dir E)
     (RemoveAll E (script_dir E) (LookPath E npm (LookPath E node w).2).2).2).1
    = Ret None ->
  (createPackageJSON E (script_dir E)
     (MkdirAll E (script_dir E)
        (RemoveAll E (script_dir E)
           (LookPath E npm (LookPath E node w).2).2).2).2).1 = Ret None ->
  reaches_resolution E w (after_provisioning E w).
Proof.
  intros Ha Hb H1 H2 H3. unfold after_provisioning.
  eexists _, _, _, _.
  split; [by apply result_and_world|].
  split; [by apply result_and_world|].
  split; [by apply result_and_world|].
  split; by apply result_and_world.
Qed.

Lemma reaches_install_of_resolution E x w w3 :
  reaches_resolution E w w3 -> (getDependencies x).2 = None ->
  reaches_install E x w w3.
Proof.
  intros (wa & wb & w1 & w2 & ? & ? & ? & ? & ?) ?.
  by exists wa, wb, w1, w2.
Qed.

Lemma RemoveAll_ok E p w w' :
  RemoveAll E p w = (Ret None, w') ->
  fs w' = filter (fun kv => under p kv.1 = false) (fs w) ∧ maps w' = maps w.
Proof.
  unfold RemoveAll, bind, log, get_fs, put_fs, ret. cbn [fs maps trace].
  intros H. repeat case_match; simplify_eq; done.
Qed.

Lemma LookPath_effects E file w r w' :
  LookPath E file w = (r, w') -> fs w' = fs w ∧ maps w' = maps w.
Proof. unfold LookPath, bind, log, ret. intros ?; simplify_eq. done. Qed.

(** *** A parent is shorter than the path, so it is not below it *)

Lemma length_list_ascii s : length (list_ascii_of_string s) = String.length s.
Proof. induction s as [|c s IH]; cbn; congruence. Qed.

Lemma length_string_of_list l : String.length (string_of_list_ascii l) = length l.
Proof. induction l as [|c l IH]; cbn; congruence. Qed.

Lemma length_append (a b : string) :
  String.length (a ++ b) = (String.length a + String.length b)%nat.
Proof. induction a as [|c a IH]; [done|]. rewrite append_cons. cbn. by rewrite IH. Qed.

Lemma drop_while_length {A} (P : A -> bool) l :
  (length (drop_while P l) <= length l)%nat.
Proof. induction l as [|x l IH]; cbn; [lia|]. destruct (P x); cbn; lia. Qed.

Lemma parent_shorter path p :
  parent path = Some p -> (String.length p < String.length path)%nat.
Proof.
  unfold parent.
  pose proof (drop_while_length (fun c => negb (is_separator c))
                (drop_while is_separator (rev (list_ascii_of_string path)))) as H1.
  pose proof (drop_while_length is_separator (rev (list_ascii_of_string path))) as H2.
  rewrite length_rev, length_list_ascii in H2.
  destruct (drop_while _ (drop_while _ _)) as [|c [|c' rest]]; try discriminate.
  intros [= <-]. rewrite length_string_of_list. cbn [rev].
  rewrite ?length_app, ?length_rev. cbn [length] in *. lia.
Qed.

Lemma lineage_shorter fuel path q :
  q ∈ lineage fuel path -> (String.length q < String.length path)%nat.
Proof.
  revert path. induction fuel as [|n IH]; intros path; cbn [lineage].
  - by intros ?%elem_of_nil.
  - destruct (parent path) as [p|] eqn:Hp; [|by intros ?%elem_of_nil].
    pose proof (parent_shorter _ _ Hp).
    intros [->|Hq]%elem_of_cons; [done|]. specialize (IH _ Hq). lia.
Qed.

(** The parents of a path are all of them: there are fewer than the
    path is long. *)
Lemma lineage_enough fuel extra path :
  (String.length path <= fuel)%nat ->
  lineage (fuel + extra) path = lineage fuel path.
Proof.
  revert path. induction fuel as [|n IH]; intros path Hlen.
  - destruct path; [|cbn in Hlen; lia]. by destruct extra.
  - cbn [Nat.add lineage]. destruct (parent path) as [p|] eqn:Hp; [|done].
    apply parent_shorter in Hp. f_equal. apply IH. lia.
Qed.

Lemma prefix_length a b :
  String.prefix a b = true -> (String.length a <= String.length b)%nat.
Proof.
  revert b. induction a as [|c a IH]; intros b; [cbn; lia|].
  destruct b as [|c' b]; cbn; [discriminate|].
  destruct (Ascii.ascii_dec c c'); [|discriminate].
  intros H. specialize (IH _ H). lia.
Qed.

Lemma under_length root p :
  under root p = true -> (String.length root <= String.length p)%nat.
Proof.
  unfold under. intros [H|H]%orb_prop.
  - apply String.eqb_eq in H as ->. lia.
  - apply prefix_length in H. rewrite length_append in H. lia.
Qed.

Lemma ancestors_not_under path q : q ∈ ancestors path -> under path q = false.
Proof.
  intros Hq%lineage_shorter. destruct (under path q) eqn:Hu; [|done].
  apply under_length in Hu. lia.
Qed.

(** *** What runs no command *)

Lemma quiet_ret {A} (a : A) : quiet (ret a).
Proof. intros w. exists []. by rewrite app_nil_r. Qed.

Lemma quiet_panic {A} msg : quiet (panic (A := A) msg).
Proof. intros w. exists []. by rewrite app_nil_r. Qed.

Lemma quiet_log e : no_run e -> quiet (log e).
Proof. intros He w. exists [e]. split; [done|]. by apply Forall_singleton. Qed.

Lemma quiet_get_fs : quiet get_fs.
Proof. intros w. exists []. by rewrite app_nil_r. Qed.

Lemma quiet_put_fs s : quiet (put_fs s).
Proof. intros w. exists []. cbn. by rewrite app_nil_r. Qed.

Lemma quiet_get_maps : quiet get_maps.
Proof. intros w. exists []. by rewrite app_nil_r. Qed.

Lemma quiet_put_maps h : quiet (put_maps h).
Proof. intros w. exists []. cbn. by rewrite app_nil_r. Qed.

Lemma quiet_bind {A B} (m : M A) (k : A -> M B) :
  quiet m -> (∀ a, quiet (k a)) -> quiet (bind m k).
Proof.
  intros Hm Hk w. unfold bind. destruct (Hm w) as (evs & Hevs & Hq).
  destruct (m w) as [[a|msg] w1]; cbn [snd] in *.
  - destruct (Hk a w1) as (evs' & Hevs' & Hq'). exists (evs ++ evs')%list.
    split; [by rewrite Hevs', Hevs, app_assoc | by apply Forall_app].
  - by exists evs.
Qed.

Lemma quiet_range_over {A} E (m : gmap string A) : quiet (range_over E m).
Proof. intros w. exists []. cbn. by rewrite app_nil_r. Qed.

Create HintDb quiet.

#[local] Hint Resolve quiet_ret quiet_panic quiet_get_fs quiet_put_fs
  quiet_get_maps quiet_put_maps quiet_range_over : quiet.

(** A computation written with [let*], [match] and calls known to run
    no command runs no command. *)
Ltac quiet :=
  repeat first
    [ solve [auto with quiet nocore]
    | apply quiet_log; exact I
    | apply quiet_bind; [|intros ?]
    | progress cbv beta zeta
    | match goal with
      | |- quiet (match ?x with _ => _ end) => destruct x
      end ].

Lemma quiet_LookPath E file : quiet (LookPath E file).
Proof. unfold LookPath. quiet. Qed.

Lemma quiet_RemoveAll E p : quiet (RemoveAll E p).
Proof. unfold RemoveAll. quiet. Qed.

Lemma quiet_MkdirAll E p : quiet (MkdirAll E p).
Proof. unfold MkdirAll. quiet. Qed.

Lemma quiet_Create E p : quiet (Create E p).
Proof. unfold Create. quiet. Qed.

Lemma quiet_Write E file data : quiet (Write E file data).
Proof. unfold Write. quiet. Qed.

Lemma quiet_Open E p : quiet (Open E p).
Proof. unfold Open. quiet. Qed.

Lemma quiet_ReadAll E p : quiet (ReadAll E p).
Proof. unfold ReadAll. quiet. Qed.

Lemma quiet_closeQuietly p : quiet (closeQuietly p).
Proof. unfold closeQuietly. quiet. Qed.

Lemma quiet_ipc_Govern E p : quiet (ipc_Govern E p).
Proof. unfold ipc_Govern. quiet. Qed.

#[local] Hint Resolve quiet_LookPath quiet_RemoveAll quiet_MkdirAll quiet_Create
  quiet_Write quiet_Open quiet_ReadAll quiet_closeQuietly quiet_ipc_Govern : quiet.

Lemma quiet_Execute E file values : quiet (Execute E file values).
Proof. unfold Execute. quiet. Qed.

Lemma quiet_readPackageJSON E d : quiet (readPackageJSON E d).
Proof. unfold readPackageJSON. quiet. Qed.

Lemma quiet_createPackageJSON E d : quiet (createPackageJSON E d).
Proof. unfold createPackageJSON. quiet. Qed.

Lemma quiet_make_map : quiet make_map.
Proof. unfold make_map. quiet. Qed.

Lemma quiet_map_store m key value : quiet (map_store m key value).
Proof. unfold map_store. quiet. Qed.

Lemma quiet_map_entries m : quiet (map_entries m).
Proof. unfold map_entries. quiet. Qed.

#[local] Hint Resolve quiet_Execute quiet_readPackageJSON quiet_createPackageJSON
  quiet_make_map quiet_map_store quiet_map_entries : quiet.

Lemma quiet_sanitize_loop variables entries :
  quiet (sanitize_loop variables entries).
Proof.
  induction entries as [|[key value] rest IH]; cbn [sanitize_loop]; [quiet|].
  destruct (reflect.TypeOf value); [|quiet].
  apply quiet_bind; [quiet | intros _; exact IH].
Qed.

#[local] Hint Resolve quiet_sanitize_loop : quiet.

Lemma quiet_sanitizeVariables vars : quiet (sanitizeVariables vars).
Proof. unfold sanitizeVariables. quiet. Qed.

Lemma quiet_getExpression E f d x : quiet (getExpression E f d x).
Proof. unfold getExpression. quiet. Qed.

#[local] Hint Resolve quiet_sanitizeVariables quiet_getExpression : quiet.

(** The record a call left when it returned. *)
Lemma quiet_returned {A} (m : M A) w r w' :
  quiet m -> m w = (r, w') ->
  ∃ evs, trace w' = (trace w ++ evs)%list ∧ Forall no_run evs.
Proof. intros Hq Hm. specialize (Hq w). by rewrite Hm in Hq. Qed.

(** What follows a call that returned adds to the record that call
    left. *)
Lemma quiet_after {A B} (m : M A) (k : A -> M B) w a w1 :
  m w = (Ret a, w1) -> quiet (k a) ->
  ∃ rest, trace (bind m k w).2 = (trace w1 ++ rest)%list ∧ Forall no_run rest.
Proof. intros Hm Hk. unfold bind. rewrite Hm. apply Hk. Qed.

(** Up to the installation [CreateScript] runs no command. *)
Lemma reaches_install_quiet E x w w3 :
  reaches_install E x w w3 ->
  ∃ evs, trace w3 = (trace w ++ evs)%list ∧ Forall no_run evs.
Proof.
  intros (wa & wb & w1 & w2 & Ha & Hb & H1 & H2 & H3 & _).
  apply (quiet_returned _ _ _ _ (quiet_LookPath E node)) in Ha as (ea & Ha & ?).
  apply (quiet_returned _ _ _ _ (quiet_LookPath E npm)) in Hb as (eb & Hb & ?).
  apply (quiet_returned _ _ _ _ (quiet_RemoveAll E _)) in H1 as (e1 & H1 & ?).
  apply (quiet_returned _ _ _ _ (quiet_MkdirAll E _)) in H2 as (e2 & H2 & ?).
  apply (quiet_returned _ _ _ _ (quiet_createPackageJSON E _)) in H3 as (e3 & H3 & ?).
  exists (ea ++ eb ++ e1 ++ e2 ++ e3)%list. split.
  - rewrite H3, H2, H1, Hb, Ha. by rewrite <- !app_assoc.
  - by repeat apply Forall_app_2.
Qed.

(** One step of a computation that has run no command so far: either
    it returns and what follows decides, or it panics and no command has
    been run. *)
Lemma quiet_step {A B} (m : M A) (k : A -> M B) w base pre (R : Prop) :
  trace w = (base ++ pre)%list -> Forall no_run pre ->
  quiet m ->
  (∀ a w1 pre', m w = (Ret a, w1) ->
     trace w1 = (base ++ pre')%list -> Forall no_run pre' ->
     R ∨ ∃ evs, trace (k a w1).2 = (base ++ evs)%list ∧ Forall no_run evs) ->
  R ∨ ∃ evs, trace (bind m k w).2 = (base ++ evs)%list ∧ Forall no_run evs.
Proof.
  intros Ht Hq Hm Hk. unfold bind. destruct (Hm w) as (evs & Hevs & Hq').
  destruct (m w) as [[a|msg] w1] eqn:Hmw; cbn [snd] in *.
  - apply (Hk a w1 (pre ++ evs)%list eq_refl).
    + by rewrite Hevs, Ht, app_assoc.
    + by apply Forall_app.
  - right. exists (pre ++ evs)%list.
    split; [by rewrite Hevs, Ht, app_assoc | by apply Forall_app].
Qed.

(** [CreateScript] either gets as far as the installation or runs no
    command at all. *)
Lemma CreateScript_provisions_or_quiet E f x vars incl w :
  (∃ w3, reaches_install E x w w3)
  ∨ (∃ evs, trace (CreateScript E f x vars incl w).2 = (trace w ++ evs)%list
            ∧ Forall no_run evs).
Proof.
  unfold CreateScript. fold (script_dir E).
  apply (quiet_step _ _ w (trace w) []);
    [by rewrite app_nil_r | done | quiet |].
  intros [e|] wa pa Ha Hta Hqa; [right; by exists pa|].
  apply (quiet_step _ _ wa (trace w) pa); [done | done | quiet |].
  intros [e|] wb pb Hb Htb Hqb; [right; by exists pb|]. cbv zeta.
  apply (quiet_step _ _ wb (trace w) pb); [done | done | quiet |].
  intros [e|] w1 p1 H1 Ht1 Hq1; [right; by exists p1|].
  apply (quiet_step _ _ w1 (trace w) p1); [done | done | quiet |].
  intros [e|] w2 p2 H2 Ht2 Hq2; [right; by exists p2|].
  apply (quiet_step _ _ w2 (trace w) p2); [done | done | quiet |].
  intros [e|] w3 p3 H3 Ht3 Hq3; [right; by exists p3|].
  destruct (getDependencies x) as [deps [e|]] eqn:Hdep; [right; by exists p3|].
  left. exists w3, wa, wb, w1, w2. by rewrite Hdep.
Qed.

(** The state in which the package manager is started. *)
Lemma provisioned_state E x w w3 :
  reaches_install E x w w3 ->
  maps w3 = maps w
  ∧ (∀ p, under (script_dir E) p = true ->
          p ≠ script_dir E -> p ≠ packageJSONPath (script_dir E) ->
          fs w3 !! p = None)
  ∧ (∀ p, under (script_dir E) p = false ->
          p ≠ packageJSONPath (script_dir E) ->
          fs w3 !! p = fs w !! p
          ∨ (p ∈ ancestors (script_dir E)
             ∧ fs w !! p = None ∧ fs w3 !! p = Some Dir))
  ∧ (∀ near p far,
       ancestors (script_dir E) = (near ++ p :: far)%list ->
       (∀ q, q ∈ near -> fs w !! q = None) ->
       fs w3 !! p = Some Dir).
Proof.
  intros (wa & wb & w1 & w2 & Ha & Hb & H1 & H2 & H3 & Hdep).
  apply LookPath_effects in Ha as [Hfa Hma].
  apply LookPath_effects in Hb as [Hfb Hmb].
  apply RemoveAll_ok in H1 as [Hf1 Hm1].
  apply MkdirAll_ok in H2 as (Hf2 & Hm2 & _ & Hq).
  apply createPackageJSON_ok in H3 as (Hf3 & Hm3 & Hnd).
  split; [congruence|].
  assert (∀ p, fs w1 !! p = if under (script_dir E) p then None else fs w !! p)
    as Hw1.
  { intros p. rewrite Hf1, Hfb, Hfa. destruct (under (script_dir E) p) eqn:Hu.
    - apply map_lookup_filter_None. right. intros v _ Hfalse.
      cbn [fst] in Hfalse. congruence.
    - apply option_eq. intros v. rewrite map_lookup_filter_Some. cbn [fst]. tauto. }
  split; [|split].
  - intros p Hu Hd Hp. rewrite Hf3, lookup_insert_ne by done.
    destruct (Hq p) as [->|(Hin & _)].
    + by rewrite Hw1, Hu.
    + apply elem_of_cons in Hin as [->|Hin]; [done|].
      apply ancestors_not_under in Hin. congruence.
  - intros p Hu Hp. rewrite Hf3, lookup_insert_ne by done.
    specialize (Hw1 p). rewrite Hu in Hw1.
    destruct (Hq p) as [->|(Hin & Hnone & Hmade)]; [by left|right].
    apply elem_of_cons in Hin as [->|Hin].
    + unfold under in Hu. by rewrite String.eqb_refl in Hu.
    + split; [done|]. split; [congruence | done].
  - intros near p far Hanc Hnear.
    assert (fs w2 !! p = Some Dir) as Hp.
    { apply (MkdirAll_from_made _ _ _ Hf2 (script_dir E :: near) p far).
      - by rewrite Hanc.
      - intros q [->|Hin]%elem_of_cons.
        + rewrite Hw1. unfold under. by rewrite String.eqb_refl.
        + rewrite Hw1, ancestors_not_under; [by apply Hnear|].
          rewrite Hanc. apply elem_of_app. by left. }
    rewrite Hf3, lookup_insert_ne; [done|]. intros <-. by rewrite Hp in Hnd.
Qed.

(** X2: whenever [CreateScript] runs a command, it has provisioned the
    directory before, and the command is the package manager, run once,
    in that directory.  At the moment it is started the directory holds
    the manifest [{}] and nothing else: whatever a stale directory of
    the same name held is gone.  Outside the directory every path is as
    it was, except that missing parents of the directory have been made:
    every parent up to the nearest one that existed is a directory
    now. *)
Theorem provisioning_is_isolated E f x vars incl w evs c :
  trace (CreateScript E f x vars incl w).2 = (trace w ++ evs)%list ->
  EvRun c ∈ evs ->
  ∃ w3 rest,
    reaches_install E x w w3
    ∧ c = install_cmd (visited E w3 (packages f)) (script_dir E)
            (getDependencies x).1
    ∧ trace (CreateScript E f x vars incl w).2 = (trace w3 ++ EvRun c :: rest)%list
    ∧ Forall no_run rest
    ∧ cmd_Dir c = script_dir E
    ∧ fs w3 !! script_dir E = Some Dir
    ∧ fs w3 !! packageJSONPath (script_dir E) = Some (File "{}")
    ∧ maps w3 = maps w
    ∧ (∀ p, under (script_dir E) p = true ->
            p ≠ script_dir E -> p ≠ packageJSONPath (script_dir E) ->
            fs w3 !! p = None)
    ∧ (∀ p, under (script_dir E) p = false ->
            p ≠ packageJSONPath (script_dir E) ->
            fs w3 !! p = fs w !! p
            ∨ (p ∈ ancestors (script_dir E)
               ∧ fs w !! p = None ∧ fs w3 !! p = Some Dir))
    ∧ (∀ near p far,
         ancestors (script_dir E) = (near ++ p :: far)%list ->
         (∀ q, q ∈ near -> fs w !! q = None) ->
         fs w3 !! p = Some Dir).
Proof.
  intros Htrace Hc.
  destruct (CreateScript_provisions_or_quiet E f x vars incl w)
    as [[w3 Hreach]|(evs' & Hevs' & Hq')].
  2:{ rewrite Htrace in Hevs'. apply app_inv_head in Hevs' as ->.
      rewrite Forall_forall in Hq'. destruct (Hq' _ Hc). }
  destruct (reaches_install_quiet _ _ _ _ Hreach) as (pre & Hpre & Hqpre).
  destruct (reaches_install_has_dir _ _ _ _ Hreach) as [Hdir Hman].
  destruct (provisioned_state _ _ _ _ Hreach) as (Hmaps & Hin & Hout & Hmade).
  set (cmd := install_cmd (visited E w3 (packages f)) (script_dir E)
                (getDependencies x).1).
  assert (∃ rest, trace (CreateScript E f x vars incl w).2
                  = (trace w3 ++ EvRun cmd :: rest)%list ∧ Forall no_run rest)
    as (rest & Hrest & Hqrest).
  { destruct Hreach as (wa & wb & w1 & w2 & Ha & Hb & H1 & H2 & H3 & Hdep).
    unfold CreateScript. fold (script_dir E).
    rewrite (bind_Ret _ _ _ _ _ Ha). cbn beta iota.
    rewrite (bind_Ret _ _ _ _ _ Hb). cbn beta iota zeta.
    rewrite (bind_Ret _ _ _ _ _ H1). cbn beta iota.
    rewrite (bind_Ret _ _ _ _ _ H2). cbn beta iota.
    rewrite (bind_Ret _ _ _ _ _ H3). cbn beta iota.
    unfold cmd. destruct (getDependencies x) as [deps err].
    cbn [fst snd] in *. subst err.
    destruct (Run_spec E (install_cmd (visited E w3 (packages f)) (script_dir E) deps)
                w3) as (err & w4 & Hrun & Ht4 & _).
    rewrite <- installNodeModules_Run in Hrun.
    lazymatch goal with
    | |- ∃ rest, trace (bind ?m ?k w3).2 = _ ∧ _ =>
        destruct (quiet_after m k w3 err w4 Hrun) as (rest & Hrest & Hqrest);
          [quiet|]
    end.
    exists rest. split; [|done]. rewrite Hrest, Ht4. by rewrite <- app_assoc. }
  assert (c = cmd) as ->.
  { rewrite Htrace, Hpre, <- app_assoc in Hrest. apply app_inv_head in Hrest.
    subst evs. apply elem_of_app in Hc as [Hc|Hc].
    - rewrite Forall_forall in Hqpre. destruct (Hqpre _ Hc).
    - apply elem_of_cons in Hc as [Hc|Hc]; [by injection Hc|].
      rewrite Forall_forall in Hqrest. destruct (Hqrest _ Hc). }
  exists w3, rest. repeat (split; [done|]). done.
Qed.

Lemma provisioning_is_isolated_witness :
  let E := sampleEnv npm_idle sample_decoder in
  ∃ w3, reaches_install E (Expression "return 1") stale_world w3
    ∧ fs w3 !! "/tmp/jitsu-nodejs-6ba7b810/node_modules/old/index.js" = None
    ∧ fs w3 !! "/tmp/jitsu-nodejs-6ba7b810/package.json" = Some (File "{}")
    ∧ fs w3 !! "/tmp" = Some Dir
    ∧ (fs w3 !! "/etc/hosts" = Some (File "127.0.0.1 localhost")
       ∨ fs w3 !! "/etc/hosts" = Some Dir).
Proof.
  intros E.
  destruct (provisioning_is_isolated E Factory (Expression "return 1") None []
              stale_world
              (trace (CreateScript E Factory (Expression "return 1") None []
                        stale_world).2)
              {| cmd_timeout := 120000000000; cmd_name := "npm";
                 cmd_args := ["install"; "node-fetch@2"; "vm2@3"];
                 cmd_Dir := "/tmp/jitsu-nodejs-6ba7b810" |})
    as (w3 & rest & Hreach & _ & _ & _ & _ & _ & Hman & _ & Hin & Hout & Hmade).
  - reflexivity.
  - apply list_elem_of_lookup. exists 7%nat. vm_compute. reflexivity.
  - exists w3. split; [exact Hreach|]. split; [|split; [exact Hman|split]].
    + apply Hin; [vm_compute; reflexivity | |];
        intros Heq; vm_compute in Heq; discriminate Heq.
    + apply (Hmade [] "/tmp" []); [reflexivity|]. by intros q ?%elem_of_nil.
    + destruct (Hout "/etc/hosts") as [->|(_ & _ & Hd)].
      * vm_compute; reflexivity.
      * intros Heq; vm_compute in Heq; discriminate Heq.
      * left. vm_compute; reflexivity.
      * by right.
Defined.


(** ** The results of [CreateScript] *)

Lemma ipc_Govern_result E p w g err w' :
  ipc_Govern E p w = (Ret (g, err), w') ->
  (g = Some p ∧ err = None) ∨ (g = None ∧ ∃ e, err = Some e).
Proof.
  unfold ipc_Govern, bind, log, get_fs, ret. cbn [fs maps trace].
  destruct (Govern E p (fs w)); intros ?; simplify_eq; eauto.
Qed.

(** One step of a computation written with [let*]: the first action
    returned (the hypothesis goes on with its result) or panicked (and
    the hypothesis, which says the whole returned, is absurd). *)
Tactic Notation "bind_step" hyp(H) :=
  unfold bind at 1 in H;
  lazymatch type of H with
  | (let (_, _) := ?m in _) = _ =>
      destruct m as [[?|?] ?] eqn:?; [cbn beta iota in H | discriminate H]
  end.

(** The same, taking the result apart. *)
Tactic Notation "bind_step" hyp(H) "as" simple_intropattern(pat) :=
  unfold bind at 1 in H;
  lazymatch type of H with
  | (let (_, _) := ?m in _) = _ =>
      let r := fresh "r" in
      destruct m as [[r|?] ?] eqn:?;
      [cbn beta iota in H; destruct r as pat | discriminate H]
  end.

(** The branch of [if err != nil { return nil, wrapped }]. *)
Ltac error_returned H :=
  unfold ret in H; simplify_eq; left; eexists; reflexivity.

(** X3: [CreateScript] returns either an error and no script, or a
    script and no error, never both and never neither; and the script it
    returns is always the one of the provisioned directory, governed as
    [node --max-old-space-size=100 main.cjs] started in that
    directory. *)
Theorem CreateScript_script_or_error E f x vars incl w r w' :
  CreateScript E f x vars incl w = (Ret r, w') ->
  (∃ e, r = (None, Some e))
  ∨ r = (Some {| governor := {| io_Dir := script_dir E; io_Path := "node";
                                io_Args := ["--max-old-space-size=100"; "main.cjs"] |};
                 dir := script_dir E |}, None).
Proof.
  unfold CreateScript. fold (script_dir E). intros H.
  bind_step H as [e|]; [error_returned H|].
  bind_step H as [e|]; [error_returned H|]. cbn zeta in H.
  bind_step H as [e|]; [error_returned H|].
  bind_step H as [e|]; [error_returned H|].
  bind_step H as [e|]; [error_returned H|].
  destruct (getDependencies x) as [deps [e|]]; [error_returned H|].
  bind_step H as [e|]; [error_returned H|]. cbn zeta in H.
  bind_step H as [scriptFile [e|]]; [error_returned H|].
  bind_step H as [expression [e|]]; [error_returned H|].
  bind_step H. bind_step H.
  bind_step H as [e|]; bind_step H; [error_returned H|]. cbn zeta in H.
  unfold bind at 1 in H.
  destruct (ipc_Govern E _ _) as [[[g err]|?] ?] eqn:Hg; [|discriminate H].
  cbn beta iota in H.
  apply ipc_Govern_result in Hg as [[-> ->]|[-> [e ->]]].
  - unfold ret in H. simplify_eq. by right.
  - error_returned H.
Qed.

Lemma CreateScript_script_or_error_witness :
  (CreateScript (sampleEnv npm_idle sample_decoder) Factory
     (Expression "return $.value * 2") None [] empty_world).1
  = Ret (Some {| governor := node_process (sampleEnv npm_idle sample_decoder);
                 dir := "/tmp/jitsu-nodejs-6ba7b810" |}, None).
Proof.
  set (E := sampleEnv npm_idle sample_decoder).
  set (run := CreateScript E Factory (Expression "return $.value * 2") None []
                empty_world).
  destruct (CreateScript_script_or_error E Factory (Expression "return $.value * 2")
              None [] empty_world
              (Some {| governor := node_process E; dir := script_dir E |}, None)
              run.2) as [[e He]| _].
  - apply result_and_world. vm_compute. reflexivity.
  - discriminate He.
  - vm_compute. reflexivity.
Defined.

(** X4: without [node] on the search path [CreateScript] fails at once,
    naming [node], and without [npm] it fails naming [npm]; in both cases
    nothing has been created or removed: the only calls made are the
    look-ups. *)
Theorem CreateScript_requires_node_and_npm E f x vars incl w :
  (∀ e, path_lookup E node = Some e ->
     CreateScript E f x vars incl w
     = (Ret (None, Some ("node is not in $PATH. Please make sure that node and npm is installed and available in $PATH."
                         ++ ": " ++ e)),
        {| fs := fs w; maps := maps w;
           trace := (trace w ++ [EvLookPath "node"])%list |}))
  ∧ (∀ e, path_lookup E node = None -> path_lookup E npm = Some e ->
     CreateScript E f x vars incl w
     = (Ret (None, Some ("npm is not in $PATH. Please make sure that node and npm is installed and available in $PATH."
                         ++ ": " ++ e)),
        {| fs := fs w; maps := maps w;
           trace := (trace w ++ [EvLookPath "node"; EvLookPath "npm"])%list |})).
Proof.
  split.
  - intros e He. unfold CreateScript, LookPath, bind, log, ret.
    cbn [fs maps trace]. rewrite He. reflexivity.
  - intros e Hnode He. unfold CreateScript, LookPath, bind, log, ret.
    cbn [fs maps trace]. rewrite Hnode. cbn [fs maps trace]. rewrite He.
    by rewrite <- app_assoc.
Qed.

Lemma CreateScript_requires_node_and_npm_witness :
  CreateScript without_npm Factory (Expression "return 1") None [] stale_world
  = (Ret (None, Some ("npm is not in $PATH. Please make sure that node and npm is installed and available in $PATH."
                      ++ ": exec: " ++ str1 dquote ++ "npm" ++ str1 dquote
                      ++ ": executable file not found in $PATH")),
     {| fs := fs stale_world; maps := ∅;
        trace := [EvLookPath "node"; EvLookPath "npm"] |}).
Proof.
  apply (proj2 (CreateScript_requires_node_and_npm without_npm Factory
                  (Expression "return 1") None [] stale_world)
           ("exec: " ++ str1 dquote ++ "npm" ++ str1 dquote
            ++ ": executable file not found in $PATH"));
    reflexivity.
Defined.

(** X5: the executable is looked at only after the directory has been
    provisioned: for an executable that is neither an expression nor a
    package [CreateScript] fails with "get dependencies: unrecognized
    script executable", the package manager is never started, and the
    directory it created stays behind. *)
Theorem CreateScript_unrecognized_executable E f t vars incl w w3 :
  reaches_resolution E w w3 ->
  CreateScript E f (OtherExecutable t) vars incl w
  = (Ret (None, Some ("get dependencies: unrecognized script executable " ++ t)), w3)
  ∧ fs w3 !! script_dir E = Some Dir.
Proof.
  intros (wa & wb & w1 & w2 & Ha & Hb & H1 & H2 & H3). split.
  - unfold CreateScript. fold (script_dir E).
    rewrite (bind_Ret _ _ _ _ _ Ha). cbn beta iota.
    rewrite (bind_Ret _ _ _ _ _ Hb). cbn beta iota zeta.
    rewrite (bind_Ret _ _ _ _ _ H1). cbn beta iota.
    rewrite (bind_Ret _ _ _ _ _ H2). cbn beta iota.
    rewrite (bind_Ret _ _ _ _ _ H3). reflexivity.
  - eapply createPackageJSON_keeps_dir; [exact H3|].
    eapply MkdirAll_creates, H2.
Qed.

Lemma CreateScript_unrecognized_executable_witness :
  (CreateScript (sampleEnv npm_idle sample_decoder) Factory
     (OtherExecutable "script.Lambda") None [] stale_world).1
  = Ret (None, Some "get dependencies: unrecognized script executable script.Lambda").
Proof.
  set (E := sampleEnv npm_idle sample_decoder).
  destruct (CreateScript_unrecognized_executable E Factory "script.Lambda" None []
              stale_world (after_provisioning E stale_world)) as [H _].
  - apply reaches_resolution_intro; vm_compute; reflexivity.
  - rewrite H. reflexivity.
Defined.


Lemma installNodeModules_maps E f d modules w r w' :
  installNodeModules E f d modules w = (r, w') -> maps w' = maps w.
Proof.
  rewrite installNodeModules_Run. intros H.
  destruct (Run_spec E (install_cmd (visited E w (packages f)) d modules) w)
    as (err & w0 & Hrun & _ & Hmaps & _).
  rewrite Hrun in H. by simplify_eq.
Qed.

Lemma reaches_rendering_intro E f x w expression :
  reaches_install E x w (after_provisioning E w) ->
  (installNodeModules E f (script_dir E) (getDependencies x).1
     (after_provisioning E w)).1 = Ret None ->
  (Create E (script_path E)
     (installNodeModules E f (script_dir E) (getDependencies x).1
        (after_provisioning E w)).2).1 = Ret (script_path E, None) ->
  (getExpression E f (script_dir E) x
     (Create E (script_path E)
        (installNodeModules E f (script_dir E) (getDependencies x).1
           (after_provisioning E w)).2).2).1 = Ret (expression, None) ->
  reaches_rendering E f x w expression (before_rendering E f x w).
Proof.
  intros Hreach Hi Hc Hg. unfold before_rendering.
  eexists _, _, _. split; [exact Hreach|].
  split; [by apply result_and_world|].
  split; by apply result_and_world.
Qed.

(** X6: when the steps before the rendering succeed, the bag of
    variables holds no nil value, the template renders without error and
    the governor starts, [CreateScript] returns the script, [main.cjs]
    holds exactly the rendered text, and the template was given the
    escaped user code, the escaped includes joined by an empty line, and
    the variables without those whose value is a function; the bag of
    the caller is unchanged. *)
Theorem CreateScript_renders_sanitized_variables
    E f x l m incl w expression w6 text :
  reaches_rendering E f x w expression w6 ->
  maps w6 !! l = Some m ->
  (∀ k, m !! k ≠ Some reflect.nil) ->
  scriptTemplate_Execute E
    (template_values E expression incl (filter (fun kv => ¬ is_func kv.2) m))
    = (text, None) ->
  io_fault E (EvWrite (script_path E) text) = None ->
  Govern E (node_process E) (<[script_path E := File text]> (fs w6)) = None ->
  ∃ w', CreateScript E f x (Some l) incl w
        = (Ret (Some {| governor := node_process E; dir := script_dir E |}, None), w')
        ∧ fs w' = <[script_path E := File text]> (fs w6)
        ∧ maps w' !! l = Some m.
Proof.
  intros (w3 & w4 & w5 & (wa & wb & w1 & w2 & Ha & Hb & H1 & H2 & H3 & Hdep)
          & Hinst & Hcreate & Hexpr) Hl Hnil Hrender Hwrite Hgov.
  fold (script_path E) in Hcreate.
  pose proof (getExpression_read_only E f (script_dir E) x w5) as [Hfs6 _].
  rewrite Hexpr in Hfs6. cbn [snd] in Hfs6.
  apply Create_ok in Hcreate as Hc. destruct Hc as (_ & Hfs5 & _ & _ & _).
  destruct (sanitizeVariables_no_nil l m w6 Hl Hnil) as [Hsan Hne].
  rewrite Hfs6, Hfs5, insert_insert_eq in Hgov.
  unfold CreateScript. fold (script_dir E). fold (script_path E).
  rewrite (bind_Ret _ _ _ _ _ Ha). cbn beta iota.
  rewrite (bind_Ret _ _ _ _ _ Hb). cbn beta iota zeta.
  rewrite (bind_Ret _ _ _ _ _ H1). cbn beta iota.
  rewrite (bind_Ret _ _ _ _ _ H2). cbn beta iota.
  rewrite (bind_Ret _ _ _ _ _ H3). cbn beta iota.
  destruct (getDependencies x) as [deps err]. cbn [fst snd] in *. subst err.
  rewrite (bind_Ret _ _ _ _ _ Hinst). cbn beta iota.
  rewrite (bind_Ret _ _ _ _ _ Hcreate). cbn beta iota.
  rewrite (bind_Ret _ _ _ _ _ Hexpr). cbn beta iota.
  rewrite (bind_Ret _ _ _ _ _ Hsan). cbn beta iota.
  rewrite (bind_Ret _ _ _ _ _ (map_entries_spec _ _)).
  cbn [fs maps trace option_bind mbind]. rewrite lookup_insert_eq. cbn [default].
  unfold id.
  fold (template_values E expression incl (filter (fun kv => ¬ is_func kv.2) m)).
  unfold Execute. rewrite Hrender.
  unfold Write, closeQuietly, ipc_Govern, bind, log, get_fs, put_fs, ret.
  cbn [fs maps trace]. rewrite Hwrite. cbn [fs maps trace].
  rewrite Hfs6, Hfs5, lookup_insert_eq. cbn [fs maps trace].
  rewrite !insert_insert_eq.
  change ("" ++ text) with text.
  change {| io_Dir := script_dir E; io_Path := node;
            io_Args := ["--max-old-space-size=100"; executableScriptName] |}
    with (node_process E).
  rewrite Hgov. cbn [fs maps trace].
  eexists. split; [reflexivity|]. cbn [fs maps].
  split; [done|]. by rewrite lookup_insert_ne.
Qed.

Lemma sample_bag_no_nil k : sample_bag !! k ≠ Some reflect.nil.
Proof.
  intros Hk. apply elem_of_map_to_list in Hk. vm_compute in Hk.
  repeat (apply elem_of_cons in Hk as [Hk|Hk]; [discriminate Hk|]).
  by apply elem_of_nil in Hk.
Qed.

Lemma CreateScript_renders_sanitized_variables_witness :
  ∃ w', CreateScript (sampleEnv npm_idle sample_decoder) Factory
          (Expression "return $.value * 2") (Some 0%nat) []
          (world_with_vars sample_bag)
        = (Ret (Some {| governor := node_process (sampleEnv npm_idle sample_decoder);
                        dir := script_dir (sampleEnv npm_idle sample_decoder) |},
                None), w')
        ∧ maps w' !! 0%nat = Some sample_bag.
Proof.
  set (E := sampleEnv npm_idle sample_decoder).
  set (x := Expression "return $.value * 2").
  destruct (CreateScript_renders_sanitized_variables E Factory x 0%nat sample_bag []
              (world_with_vars sample_bag)
              (expression_head ++ "return $.value * 2" ++ expression_tail)
              (before_rendering E Factory x (world_with_vars sample_bag))
              (scriptTemplate_Execute E
                 (template_values E
                    (expression_head ++ "return $.value * 2" ++ expression_tail) []
                    (filter (fun kv => ¬ is_func kv.2) sample_bag))).1)
    as (w' & H & _ & Hm).
  - apply reaches_rendering_intro; [|vm_compute; reflexivity..].
    apply reaches_install_of_resolution; [|reflexivity].
    apply reaches_resolution_intro; vm_compute; reflexivity.
  - vm_compute. reflexivity.
  - apply sample_bag_no_nil.
  - vm_compute. reflexivity.
  - reflexivity.
  - reflexivity.
  - exists w'. split; [exact H | exact Hm].
Defined.


(** ** Manifests and entry points *)

Lemma readPackageJSON_of_file E d w content :
  io_fault E (EvOpen (packageJSONPath d)) = None ->
  io_fault E (EvRead (packageJSONPath d)) = None ->
  fs w !! packageJSONPath d = Some (File content) ->
  readPackageJSON E d w
  = (Ret (match decode_packageJSON E content with
          | (data, None) => (Some data, None)
          | (_, Some e) => (None, Some ("decode package.json: " ++ e))
          end),
     {| fs := fs w; maps := maps w;
        trace := (trace w ++ [EvOpen (packageJSONPath d);
                              EvRead (packageJSONPath d);
                              EvClose (packageJSONPath d)])%list |}).
Proof.
  intros Ho Hr Hf.
  unfold readPackageJSON, Open, ReadAll, closeQuietly, bind, log, get_fs, ret.
  cbn [fs maps trace]. rewrite Ho. cbn [fs maps trace]. rewrite Hf.
  cbn [fs maps trace]. rewrite Hr. cbn [fs maps trace]. rewrite Hf.
  destruct (decode_packageJSON E content) as [data [e|]]; cbn [fs maps trace];
    by rewrite <- !app_assoc.
Qed.

(** X7: a package whose provisioned directory has no manifest is
    reported as "read runtime package.json: open package.json: ... no
    such file or directory"; only the opening of that manifest has been
    tried. *)
Theorem getExpression_missing_manifest E f d name w :
  io_fault E (EvOpen (packageJSONPath d)) = None ->
  fs w !! packageJSONPath d = None ->
  getExpression E f d (Package name) w
  = (Ret ("", Some ("read runtime package.json: open package.json: open "
                    ++ packageJSONPath d ++ ": no such file or directory")),
     {| fs := fs w; maps := maps w;
        trace := (trace w ++ [EvOpen (packageJSONPath d)])%list |}).
Proof.
  intros Ho Hf.
  unfold getExpression, readPackageJSON, Open, bind, log, get_fs, ret.
  cbn [fs maps trace]. rewrite Ho. cbn [fs maps trace]. rewrite Hf.
  reflexivity.
Qed.

Lemma getExpression_missing_manifest_witness :
  (getExpression (sampleEnv npm_idle sample_decoder) Factory "/srv"
     (Package "left-pad") empty_world).1
  = Ret ("", Some "read runtime package.json: open package.json: open /srv/package.json: no such file or directory").
Proof.
  rewrite (getExpression_missing_manifest (sampleEnv npm_idle sample_decoder)
             Factory "/srv" "left-pad" empty_world); reflexivity.
Defined.

(** X8: when the only external dependency names an entry point that is
    not there, [getExpression] fails with "open main file: ... no such
    file or directory" and returns no code. *)
Theorem getExpression_missing_entry_point E f d name w pj w1 p pkg w2 :
  readPackageJSON E d w = (Ret (Some pj, None), w1) ->
  external_dependencies f pj = {[p]} ->
  readPackageJSON E (filepath.Join [d; "node_modules"; p]) w1
    = (Ret (Some pkg, None), w2) ->
  Main pkg ≠ "" ->
  io_fault E (EvOpen (filepath.Join [filepath.Join [d; "node_modules"; p]; Main pkg]))
    = None ->
  fs w2 !! filepath.Join [filepath.Join [d; "node_modules"; p]; Main pkg] = None ->
  (getExpression E f d (Package name) w).1
  = Ret ("", Some ("open main file: open "
                   ++ filepath.Join [filepath.Join [d; "node_modules"; p]; Main pkg]
                   ++ ": no such file or directory")).
Proof.
  intros H Hp H2 Hmain Ho Hfile. unfold getExpression.
  rewrite (bind_Ret _ _ _ _ _ H). cbn beta iota zeta.
  rewrite (external_deps_singleton f pj p Hp). cbn [length Nat.ltb Nat.leb].
  rewrite (bind_Ret _ _ _ _ _ H2). cbn beta iota zeta.
  apply String.eqb_neq in Hmain. rewrite Hmain.
  unfold Open, bind, log, get_fs, ret. cbn [fs maps trace].
  rewrite Ho. cbn [fs maps trace]. rewrite Hfile. reflexivity.
Qed.

Lemma getExpression_missing_entry_point_witness :
  (getExpression (sampleEnv npm_idle sample_decoder) Factory "/srv"
     (Package "left-pad") provisioned_without_entry).1
  = Ret ("", Some "open main file: open /srv/node_modules/left-pad/index.js: no such file or directory").
Proof.
  set (E := sampleEnv npm_idle sample_decoder).
  rewrite (getExpression_missing_entry_point E Factory "/srv" "left-pad"
             provisioned_without_entry (sample_decoder "one").1
             (readPackageJSON E "/srv" provisioned_without_entry).2 "left-pad"
             (sample_decoder "left-pad").1
             (readPackageJSON E "/srv/node_modules/left-pad"
                (readPackageJSON E "/srv" provisioned_without_entry).2).2).
  - reflexivity.
  - apply result_and_world. vm_compute. reflexivity.
  - vm_compute. reflexivity.
  - apply result_and_world. vm_compute. reflexivity.
  - discriminate.
  - reflexivity.
  - vm_compute. reflexivity.
Defined.

(** The outcomes for several and for no external dependency, on the
    sample directories. *)
Lemma getExpression_many_dependencies_witness :
  (getExpression (sampleEnv npm_idle sample_decoder) Factory "/srv"
     (Package "left-pad") (provisioned "two" "left-pad")).1
  = Ret ("", None).
Proof.
  set (E := sampleEnv npm_idle sample_decoder).
  rewrite (getExpression_many_dependencies E Factory "/srv" "left-pad"
             (provisioned "two" "left-pad") (sample_decoder "two").1
             (readPackageJSON E "/srv" (provisioned "two" "left-pad")).2).
  - reflexivity.
  - apply result_and_world. vm_compute. reflexivity.
  - vm_compute. lia.
Defined.

Lemma getExpression_no_dependency_witness :
  (getExpression (sampleEnv npm_idle sample_decoder) Factory "/srv"
     (Package "left-pad") (provisioned "none" "left-pad")).1
  = Panic index_out_of_range_0.
Proof.
  set (E := sampleEnv npm_idle sample_decoder).
  rewrite (getExpression_no_dependency E Factory "/srv" "left-pad"
             (provisioned "none" "left-pad") (sample_decoder "none").1
             (readPackageJSON E "/srv" (provisioned "none" "left-pad")).2).
  - reflexivity.
  - apply result_and_world. vm_compute. reflexivity.
  - vm_compute. reflexivity.
Defined.

(** X11: the manifest [createPackageJSON] writes is the one
    [readPackageJSON] reads back: after a successful
    [createPackageJSON], reading the manifest of the same directory
    gives the decoding of the text [{}], whatever file was there
    before. *)
Theorem createPackageJSON_then_read E d w w' data :
  createPackageJSON E d w = (Ret None, w') ->
  io_fault E (EvOpen (packageJSONPath d)) = None ->
  io_fault E (EvRead (packageJSONPath d)) = None ->
  decode_packageJSON E "{}" = (data, None) ->
  (readPackageJSON E d w').1 = Ret (Some data, None).
Proof.
  intros Hc Ho Hr Hd.
  apply createPackageJSON_ok in Hc as [Hfs _].
  rewrite (readPackageJSON_of_file E d w' "{}" Ho Hr).
  - by rewrite Hd.
  - rewrite Hfs. apply lookup_insert_eq.
Qed.

Lemma createPackageJSON_then_read_witness :
  (readPackageJSON (sampleEnv npm_idle empty_object_decoder) "/srv"
     (createPackageJSON (sampleEnv npm_idle empty_object_decoder) "/srv"
        old_manifest_world).2).1
  = Ret (Some no_manifest, None).
Proof.
  apply (createPackageJSON_then_read (sampleEnv npm_idle empty_object_decoder)
           "/srv" old_manifest_world).
  - apply result_and_world. vm_compute. reflexivity.
  - reflexivity.
  - reflexivity.
  - reflexivity.
Defined.


(** ** More on the sanitizing of variables *)

(** X12: on a bag without nil values [sanitizeVariables] returns a map
    other than the bag, in which a key has a value exactly when the bag
    gives it that value and the value is not a function; the bag, the
    files and the processes run are as before. *)
Theorem sanitizeVariables_keeps_non_functions l m w :
  maps w !! l = Some m ->
  (∀ k, m !! k ≠ Some reflect.nil) ->
  ∃ l' w' m',
    sanitizeVariables (Some l) w = (Ret l', w')
    ∧ l' ≠ l
    ∧ maps w' !! l' = Some m'
    ∧ (∀ k v, m' !! k = Some v ↔ m !! k = Some v ∧ ¬ is_func v)
    ∧ maps w' !! l = Some m
    ∧ fs w' = fs w ∧ trace w' = trace w.
Proof.
  intros Hl Hnil.
  destruct (sanitizeVariables_no_nil l m w Hl Hnil) as [H Hne].
  eexists _, _, _. split; [exact H|]. split; [exact Hne|]. cbn [fs maps trace].
  split; [apply lookup_insert_eq|]. split.
  - intros k v. apply map_lookup_filter_Some.
  - split; [|done]. by rewrite lookup_insert_ne.
Qed.

Lemma sanitizeVariables_keeps_non_functions_witness :
  ∃ l' w' m',
    sanitizeVariables (Some 0%nat) (world_with_vars sample_bag) = (Ret l', w')
    ∧ maps w' !! l' = Some m'
    ∧ m' !! "user" = Some (reflect.iface stringType 1)
    ∧ m' !! "callback" = None.
Proof.
  destruct (sanitizeVariables_keeps_non_functions 0%nat sample_bag
              (world_with_vars sample_bag))
    as (l' & w' & m' & H & _ & Hm & Hk & _).
  - reflexivity.
  - apply sample_bag_no_nil.
  - exists l', w', m'. split; [exact H|]. split; [exact Hm|]. split.
    + apply Hk. split; [reflexivity|]. intros (t & Ht & Hf).
      injection Ht as <-. discriminate Hf.
    + destruct (m' !! "callback") as [v|] eqn:Hv; [|reflexivity].
      apply Hk in Hv as [Hv Hnf]. exfalso. apply Hnf.
      injection Hv as <-. exists funcType. split; reflexivity.
Defined.

(** X13: for a bag that is nil, and for one that is empty,
    [sanitizeVariables] returns a new map without entries, never nil
    itself, and changes nothing else. *)
Theorem sanitizeVariables_nil_or_empty_bag vars w :
  vars = None ∨ (∃ l, vars = Some l ∧ maps w !! l = Some ∅) ->
  sanitizeVariables vars w
  = (Ret (fresh (dom (maps w))),
     {| fs := fs w; maps := <[fresh (dom (maps w)) := ∅]> (maps w);
        trace := trace w |})
  ∧ maps w !! fresh (dom (maps w)) = None.
Proof.
  intros Hvars. split.
  - unfold sanitizeVariables.
    rewrite (bind_Ret _ _ _ _ _ (make_map_spec w)).
    rewrite (bind_Ret _ _ _ _ _ (map_entries_spec _ _)).
    cbn [fs maps trace].
    assert (default ∅ (vars ≫= fun l => <[fresh (dom (maps w)) := ∅]> (maps w) !! l)
            = (∅ : gmap string reflect.eface)) as ->.
    { destruct Hvars as [->|(l & -> & Hl)]; [done|]. cbn [option_bind mbind].
      rewrite lookup_insert_ne by (by eapply fresh_map_ne). by rewrite Hl. }
    rewrite map_to_list_empty. reflexivity.
  - apply not_elem_of_dom, is_fresh.
Qed.

Lemma sanitizeVariables_nil_or_empty_bag_witness :
  sanitizeVariables None empty_world
  = (Ret 0%nat, {| fs := ∅; maps := <[0%nat := ∅]> ∅; trace := [] |}).
Proof.
  apply (sanitizeVariables_nil_or_empty_bag None empty_world). by left.
Defined.

Lemma sanitized_no_nil (m : gmap string reflect.eface) k :
  (∀ k, m !! k ≠ Some reflect.nil) ->
  filter (fun kv => ¬ is_func kv.2) m !! k ≠ Some reflect.nil.
Proof.
  intros Hnil Hk. apply map_lookup_filter_Some in Hk as [Hk _]. by apply (Hnil k).
Qed.

Lemma sanitized_twice (m : gmap string reflect.eface) :
  filter (fun kv => ¬ is_func kv.2) (filter (fun kv => ¬ is_func kv.2) m)
  = filter (fun kv => ¬ is_func kv.2) m.
Proof.
  apply map_eq. intros k. apply option_eq. intros v.
  rewrite !map_lookup_filter_Some. tauto.
Qed.

(** X14: sanitizing is idempotent: sanitizing the bag that
    [sanitizeVariables] returned gives a further map with the same
    entries, and leaves the first result as it was. *)
Theorem sanitizeVariables_idempotent l m w :
  maps w !! l = Some m ->
  (∀ k, m !! k ≠ Some reflect.nil) ->
  ∃ l1 w1 l2 w2,
    sanitizeVariables (Some l) w = (Ret l1, w1)
    ∧ sanitizeVariables (Some l1) w1 = (Ret l2, w2)
    ∧ l2 ≠ l1
    ∧ maps w2 !! l2 = maps w1 !! l1
    ∧ maps w2 !! l1 = maps w1 !! l1.
Proof.
  intros Hl Hnil.
  destruct (sanitizeVariables_no_nil l m w Hl Hnil) as [H1 _].
  set (l1 := fresh (dom (maps w))) in *.
  set (w1 := {| fs := fs w;
                maps := <[l1 := filter (fun kv => ¬ is_func kv.2) m]> (maps w);
                trace := trace w |}) in *.
  assert (maps w1 !! l1 = Some (filter (fun kv => ¬ is_func kv.2) m)) as Hl1
    by apply lookup_insert_eq.
  destruct (sanitizeVariables_no_nil l1 _ w1 Hl1) as [H2 Hne].
  { intros k. by apply sanitized_no_nil. }
  eexists l1, w1, _, _. split; [exact H1|]. split; [exact H2|].
  split; [exact Hne|]. cbn [maps]. split.
  - rewrite lookup_insert_eq, sanitized_twice. symmetry. apply lookup_insert_eq.
  - by rewrite lookup_insert_ne.
Qed.

Lemma sanitizeVariables_idempotent_witness :
  ∃ l1 w1 l2 w2,
    sanitizeVariables (Some 0%nat) (world_with_vars sample_bag) = (Ret l1, w1)
    ∧ sanitizeVariables (Some l1) w1 = (Ret l2, w2)
    ∧ l2 ≠ l1
    ∧ maps w2 !! l2 = maps w1 !! l1
    ∧ maps w2 !! l1 = maps w1 !! l1.
Proof.
  apply (sanitizeVariables_idempotent 0%nat sample_bag (world_with_vars sample_bag)).
  - reflexivity.
  - apply sample_bag_no_nil.
Defined.

(** X15: the order in which the [range] of [sanitizeVariables] visits
    the bag does not matter: for every order of the entries the loop
    panics when some value is nil, and otherwise fills the new map with
    exactly the entries whose value is not a function. *)
Theorem sanitize_loop_any_order variables entries (m : gmap string reflect.eface) w :
  entries ≡ₚ map_to_list m ->
  maps w !! variables = Some ∅ ->
  ((∃ k, m !! k = Some reflect.nil) ->
     ∃ w', sanitize_loop variables entries w = (Panic nil_dereference, w'))
  ∧ ((∀ k, m !! k ≠ Some reflect.nil) ->
     sanitize_loop variables entries w
     = (Ret tt, {| fs := fs w;
                   maps := <[variables := filter (fun kv => ¬ is_func kv.2) m]> (maps w);
                   trace := trace w |})).
Proof.
  intros Hperm Hacc. split.
  - intros [k Hk]. apply (sanitize_loop_nil_panics variables entries k).
    rewrite Hperm. by apply elem_of_map_to_list.
  - intros Hnil.
    rewrite (sanitize_loop_no_nil variables entries ∅ w); [|
      | exact Hacc].
    + by rewrite (fold_sanitize_order m entries Hperm).
    + intros k Hin. rewrite Hperm in Hin.
      apply elem_of_map_to_list in Hin. by apply (Hnil k).
Qed.

Lemma sanitize_loop_any_order_witness :
  sanitize_loop 1%nat
    [("user", reflect.iface stringType 1); ("callback", reflect.iface funcType 2)]
    {| fs := ∅; maps := <[1%nat := ∅]> (<[0%nat := sample_bag]> ∅); trace := [] |}
  = (Ret tt,
     {| fs := ∅;
        maps := <[1%nat := filter (fun kv => ¬ is_func kv.2) sample_bag]>
                  (<[1%nat := ∅]> (<[0%nat := sample_bag]> ∅));
        trace := [] |})
  ∧ sanitize_loop 1%nat
      [("callback", reflect.iface funcType 2); ("user", reflect.iface stringType 1)]
      {| fs := ∅; maps := <[1%nat := ∅]> (<[0%nat := sample_bag]> ∅); trace := [] |}
    = (Ret tt,
       {| fs := ∅;
          maps := <[1%nat := filter (fun kv => ¬ is_func kv.2) sample_bag]>
                    (<[1%nat := ∅]> (<[0%nat := sample_bag]> ∅));
          trace := [] |}).
Proof.
  assert (map_to_list sample_bag
          = [("callback", reflect.iface funcType 2); ("user", reflect.iface stringType 1)]
          ∨ map_to_list sample_bag
          = [("user", reflect.iface stringType 1); ("callback", reflect.iface funcType 2)])
    as Hlist by (vm_compute; auto).
  split.
  - apply (sanitize_loop_any_order 1%nat _ sample_bag).
    + destruct Hlist as [-> | ->]; [apply perm_swap | reflexivity].
    + reflexivity.
    + apply sample_bag_no_nil.
  - apply (sanitize_loop_any_order 1%nat _ sample_bag).
    + destruct Hlist as [-> | ->]; [reflexivity | apply perm_swap].
    + reflexivity.
    + apply sample_bag_no_nil.
Defined.


(** ** More on the escaping *)

Lemma escapeJSON_ascii_witness :
  decodeEmbedded
    (escapeJSON (sampleEnv npm_idle sample_decoder)
       (JString ("return $.name == " ++ str1 dquote ++ "a<b" ++ str1 dquote ++ ";")))
  = Some ("return $.name == " ++ str1 dquote ++ "a<b" ++ str1 dquote ++ ";").
Proof.
  rewrite (escapeJSON_ascii (sampleEnv npm_idle sample_decoder)
             ("return $.name == " ++ str1 dquote ++ "a<b" ++ str1 dquote ++ ";"));
    reflexivity.
Defined.

Lemma trimLeftByte_first s c : first_byte (strings.trimLeftByte s c) ≠ Some c.
Proof.
  induction s as [|b s IH]; [done|]. cbn [strings.trimLeftByte].
  destruct (Ascii.eqb b c) eqn:Hb; [exact IH|].
  apply Ascii.eqb_neq in Hb. cbn. congruence.
Qed.

Lemma trimRightByte_last s c : last_byte (strings.trimRightByte s c) ≠ Some c.
Proof.
  induction s as [|b s IH]; [done|]. cbn [strings.trimRightByte].
  destruct (strings.trimRightByte s c) as [|b' s'] eqn:Ht.
  - destruct (Ascii.eqb b c) eqn:Hb; [done|].
    apply Ascii.eqb_neq in Hb. cbn. congruence.
  - exact IH.
Qed.

Lemma trimLeftByte_last s c l :
  last_byte (strings.trimLeftByte s c) = Some l -> last_byte s = Some l.
Proof.
  induction s as [|b s IH]; [done|]. cbn [strings.trimLeftByte].
  destruct (Ascii.eqb b c); [|done].
  intros H. specialize (IH H). cbn [last_byte]. by destruct s.
Qed.

(** X17: whatever it is given, [escapeJSON] returns a text that neither
    starts nor ends with a double quote; and a JSON text that has none at
    its ends, as the object of a bag of variables, is returned as the
    encoder wrote it, the error of the encoder being ignored. *)
Theorem escapeJSON_bare E value :
  first_byte (escapeJSON E value) ≠ Some dquote
  ∧ last_byte (escapeJSON E value) ≠ Some dquote
  ∧ (∀ m, value = JMap m ->
          first_byte (marshalled E m) ≠ Some dquote ->
          last_byte (marshalled E m) ≠ Some dquote ->
          escapeJSON E value = marshalled E m).
Proof.
  unfold escapeJSON, strings.Trim. split; [apply trimLeftByte_first|]. split.
  - intros H. apply trimLeftByte_last in H. by apply trimRightByte_last in H.
  - intros m -> Hf Hl. fold (marshalled E m).
    assert (strings.trimRightByte (marshalled E m) dquote = marshalled E m) as ->.
    { destruct (last_byte (marshalled E m)) as [l|] eqn:Hlast.
      - apply (trimRightByte_id _ _ l); [done | congruence].
      - destruct (marshalled E m) as [|b s]; [done|]. exfalso.
        clear -Hlast. revert b Hlast.
        induction s as [|b' s IH]; intros b Hlast; [done|]. by apply (IH b'). }
    by apply trimLeftByte_id.
Qed.

Lemma escapeJSON_bare_witness :
  escapeJSON objectEnv (JMap sample_bag)
  = "{" ++ str1 dquote ++ "user" ++ str1 dquote ++ ":1}".
Proof.
  destruct (escapeJSON_bare objectEnv (JMap sample_bag)) as (_ & _ & H).
  rewrite (H sample_bag); [reflexivity | reflexivity | |]; vm_compute; discriminate.
Defined.

Lemma all_bytes_app P a b :
  all_bytes P (a ++ b) = all_bytes P a && all_bytes P b.
Proof.
  induction a as [|x a IH]; [done|].
  rewrite append_cons. cbn [all_bytes]. rewrite IH. by rewrite andb_assoc.
Qed.

Lemma encode_ascii_plain c :
  (byte_val c <? utf8.RuneSelf) = true -> all_bytes plain_byte (encode_ascii c) = true.
Proof.
  destruct c as [[] [] [] [] [] [] [] []]; intros H; try discriminate H; reflexivity.
Qed.

Lemma encode_plain s :
  all_ascii s = true ->
  all_bytes plain_byte (json.encodeString_loop O O s) = true.
Proof.
  induction s as [|c s IH]; [done|]. cbn [all_ascii].
  intros [Hc Hs]%andb_prop. rewrite encode_ascii_cons by done.
  by rewrite all_bytes_app, encode_ascii_plain, IH.
Qed.

Lemma trimLeftByte_all_bytes P s c :
  all_bytes P s = true -> all_bytes P (strings.trimLeftByte s c) = true.
Proof.
  induction s as [|b s IH]; [done|]. cbn [strings.trimLeftByte all_bytes].
  intros H. destruct (Ascii.eqb b c); [|exact H].
  apply andb_prop in H as [_ H]. by apply IH.
Qed.

Lemma trimRightByte_all_bytes P s c :
  all_bytes P s = true -> all_bytes P (strings.trimRightByte s c) = true.
Proof.
  induction s as [|b s IH]; [done|]. cbn [strings.trimRightByte all_bytes].
  intros [Hb Hs]%andb_prop. specialize (IH Hs).
  destruct (strings.trimRightByte s c) as [|b' s'].
  - destruct (Ascii.eqb b c); [done|]. cbn [str1 all_bytes]. by rewrite Hb.
  - cbn [all_bytes]. cbn [all_bytes] in IH. by rewrite Hb, IH.
Qed.

Lemma encode_ascii_printable c :
  (byte_val c <? utf8.RuneSelf) = true -> not_DEL (byte_val c) = true ->
  all_bytes printable_byte (encode_ascii c) = true.
Proof.
  destruct c as [[] [] [] [] [] [] [] []]; intros H H'; try discriminate H;
    try discriminate H'; reflexivity.
Qed.

Lemma encode_printable s :
  all_ascii s = true -> all_bytes not_DEL s = true ->
  all_bytes printable_byte (json.encodeString_loop O O s) = true.
Proof.
  induction s as [|c s IH]; [done|]. cbn [all_ascii all_bytes].
  intros [Hc Hs]%andb_prop [Hc' Hs']%andb_prop. rewrite encode_ascii_cons by done.
  by rewrite all_bytes_app, encode_ascii_printable, IH.
Qed.

(** X18: the escaped text of an ASCII user code holds only bytes from
    0x20 to 0x7F and none of [<], [>] and [&]: no line break, no control
    character below 0x20 and no markup character of the code reaches the
    template unescaped.  The control character DEL does: it is returned
    as it is; the escaped text of a code without DEL holds printable
    characters only. *)
Theorem escapeJSON_plain_bytes E s :
  all_ascii s = true ->
  all_bytes plain_byte (escapeJSON E (JString s)) = true
  ∧ (all_bytes not_DEL s = true ->
     all_bytes printable_byte (escapeJSON E (JString s)) = true)
  ∧ escapeJSON E (JString (str1 DEL)) = str1 DEL.
Proof.
  intros Hs. split; [|split; [|reflexivity]].
  - unfold escapeJSON, strings.Trim, json.Marshal_string.
    apply trimLeftByte_all_bytes, trimRightByte_all_bytes.
    cbn [all_bytes]. rewrite all_bytes_app, (encode_plain s Hs). reflexivity.
  - intros Hd. unfold escapeJSON, strings.Trim, json.Marshal_string.
    apply trimLeftByte_all_bytes, trimRightByte_all_bytes.
    cbn [all_bytes]. rewrite all_bytes_app, (encode_printable s Hs Hd). reflexivity.
Qed.

Lemma escapeJSON_plain_bytes_witness :
  all_bytes printable_byte
    (escapeJSON (sampleEnv npm_idle sample_decoder)
       (JString ("if (a < b && c > d) {" ++ str1 newline ++ "  return 1 }")))
  = true.
Proof.
  apply (escapeJSON_plain_bytes (sampleEnv npm_idle sample_decoder)); reflexivity.
Defined.


(** ** More on the template-testing handler *)

(** X19: [evaluate] returns a result only together with a nil error:
    whenever it returns an error, be it from parsing, from executing,
    from serializing or from a recovered panic, the result is empty; and
    when it returns no error the result is the JSON of the processed
    object and the format is that of the parsed template. *)
Theorem evaluate_result_or_error T req :
  (∀ result format e,
     handlers.evaluate T req = (result, format, Some e) -> result = "")
  ∧ (∀ result format,
       handlers.evaluate T req = (result, format, None) ->
       ∃ tmpl v,
         handlers.SmartParse T "template evaluating" (handlers.Expression req)
           = Ret (Some tmpl, None)
         ∧ handlers.ProcessEvent T tmpl (handlers.Object req) = Ret (v, None)
         ∧ handlers.ToJSON T v = Ret (result, None)
         ∧ format = handlers.Template_Format T tmpl).
Proof.
  unfold handlers.evaluate, handlers.recovered.
  destruct (handlers.SmartParse T _ _) as [[[tmpl|] [e0|]]|r0];
    try (split; intros; simplify_eq; reflexivity).
  destruct (handlers.ProcessEvent T tmpl _) as [[v [e1|]]|r1] eqn:He;
    try (split; intros; simplify_eq; reflexivity).
  destruct (handlers.ToJSON T v) as [[j [e2|]]|r2] eqn:Hj;
    try (split; intros; simplify_eq; reflexivity).
  split; intros; simplify_eq. exists tmpl, v. auto.
Qed.

Lemma evaluate_result_or_error_witness :
  (handlers.evaluate panickingEngine (handlers.BindJSON panickingEngine "{}").1).1.1
  = ""
  ∧ ∃ tmpl v,
      handlers.ProcessEvent sampleEngine tmpl
        (handlers.Object (handlers.BindJSON sampleEngine "good").1) = Ret (v, None)
      ∧ handlers.ToJSON sampleEngine v = Ret ("<no value>", None).
Proof.
  split.
  - exact (proj1 (evaluate_result_or_error panickingEngine
                    (handlers.BindJSON panickingEngine "{}").1)
             _ _ _ eq_refl).
  - destruct (proj2 (evaluate_result_or_error sampleEngine
                       (handlers.BindJSON sampleEngine "good").1)
                "<no value>" "go" eq_refl)
      as (tmpl & v & _ & Hp & Hj & _).
    exists tmpl, v. split; [exact Hp | exact Hj].
Defined.

(** X20: without [reformat], a panic of the template engine while
    parsing, executing or serializing does not leave the handler: the
    answer is 400 with the message [Error: ] followed by the value of the
    panic, with an empty result and an empty format. *)
Theorem EventTemplateHandler_recovers_panics T raw req r :
  handlers.BindJSON T raw = (req, None) ->
  handlers.Validate req = None ->
  handlers.Reformat req = false ->
  handlers.SmartParse T "template evaluating" (handlers.Expression req) = Panic r
  ∨ (∃ tmpl,
       handlers.SmartParse T "template evaluating" (handlers.Expression req)
         = Ret (Some tmpl, None)
       ∧ (handlers.ProcessEvent T tmpl (handlers.Object req) = Panic r
          ∨ ∃ v, handlers.ProcessEvent T tmpl (handlers.Object req) = Ret (v, None)
                 ∧ handlers.ToJSON T v = Panic r)) ->
  handlers.EventTemplateHandler T raw
  = Ret {| handlers.status := 400;
           handlers.body := handlers.Evaluated
             {| handlers.Result := ""; handlers.Error := "Error: " ++ r;
                handlers.Format := "" |} |}.
Proof.
  intros Hb Hv Hr Hpanic.
  rewrite (EventTemplateHandler_evaluated T raw req Hb Hv), Hr.
  assert (handlers.evaluate T req = ("", "", Some ("Error: " ++ r))) as ->;
    [|reflexivity].
  unfold handlers.evaluate, handlers.recovered.
  destruct Hpanic as [-> | (tmpl & -> & [-> | (v & -> & ->)])]; reflexivity.
Qed.

Lemma EventTemplateHandler_recovers_panics_witness :
  handlers.EventTemplateHandler panickingEngine "{}"
  = Ret {| handlers.status := 400;
           handlers.body := handlers.Evaluated
             {| handlers.Result := ""; handlers.Error := "Error: index out of range";
                handlers.Format := "" |} |}.
Proof.
  apply (EventTemplateHandler_recovers_panics panickingEngine "{}"
           (handlers.BindJSON panickingEngine "{}").1 "index out of range");
    try reflexivity.
  right. exists "{{index .a 1}}". split; [reflexivity|]. by left.
Defined.

(** X21: with [reformat] nothing recovers a panic: a panic of the
    table-name extractor, when it is built or when it extracts, leaves
    the handler without an answer.  An extraction that returns an error
    is answered 400 with the text extracted so far as the result and the
    format of the extractor; one that succeeds is answered 200. *)
Theorem EventTemplateHandler_reformat T raw req :
  handlers.BindJSON T raw = (req, None) ->
  handlers.Validate req = None ->
  handlers.Reformat req = true ->
  (∀ r, handlers.NewTableNameExtractor T (handlers.Expression req) = Panic r ->
        handlers.EventTemplateHandler T raw = Panic r)
  ∧ (∀ o e, handlers.NewTableNameExtractor T (handlers.Expression req)
            = Ret (o, Some e) ->
        handlers.EventTemplateHandler T raw
        = Ret {| handlers.status := 400;
                 handlers.body := handlers.Evaluated
                   {| handlers.Result := ""; handlers.Error := e;
                      handlers.Format := "" |} |})
  ∧ (∀ ex, handlers.NewTableNameExtractor T (handlers.Expression req)
           = Ret (Some ex, None) ->
       (∀ r, handlers.Extract T ex (handlers.Object req) = Panic r ->
             handlers.EventTemplateHandler T raw = Panic r)
       ∧ (∀ res e, handlers.Extract T ex (handlers.Object req) = Ret (res, Some e) ->
             handlers.EventTemplateHandler T raw
             = Ret {| handlers.status := 400;
                      handlers.body := handlers.Evaluated
                        {| handlers.Result := res; handlers.Error := e;
                           handlers.Format := handlers.Extractor_Format T ex |} |})
       ∧ (∀ res, handlers.Extract T ex (handlers.Object req) = Ret (res, None) ->
             handlers.EventTemplateHandler T raw
             = Ret {| handlers.status := 200;
                      handlers.body := handlers.Evaluated
                        {| handlers.Result := res; handlers.Error := "";
                           handlers.Format := handlers.Extractor_Format T ex |} |})).
Proof.
  intros Hb Hv Hr.
  rewrite (EventTemplateHandler_evaluated T raw req Hb Hv), Hr.
  unfold handlers.evaluateReformatted.
  split; [by intros r ->|].
  split; [intros o e ->; by destruct o|].
  intros ex ->.
  split; [by intros r ->|]. split; [by intros res e ->|]. by intros res ->.
Qed.

Lemma EventTemplateHandler_reformat_witness :
  handlers.EventTemplateHandler panickingEngine "reformat" = Panic "index out of range"
  ∧ handlers.EventTemplateHandler partialEngine "{}"
    = Ret {| handlers.status := 400;
             handlers.body := handlers.Evaluated
               {| handlers.Result := "events_"; handlers.Error := "no value for kind";
                  handlers.Format := "go" |} |}.
Proof.
  split.
  - apply (EventTemplateHandler_reformat panickingEngine "reformat"
             (handlers.BindJSON panickingEngine "reformat").1); reflexivity.
  - destruct (EventTemplateHandler_reformat partialEngine "{}"
                (handlers.BindJSON partialEngine "{}").1) as (_ & _ & H);
      [reflexivity | reflexivity | reflexivity |].
    apply (H "events_{{.kind}}"); reflexivity.
Defined.


(** ** The gauges of the pool of source goroutines *)

(** X22: with metrics disabled the two setters do nothing, whether the
    gauges exist or not; with metrics enabled and [initSourcesPool] not
    yet run, they dereference the nil vector and panic. *)
Theorem pool_setters_disabled_or_uninitialised L value st :
  (metrics.Enabled st = false ->
     metrics.FreeSourcesGoroutines L value st = (Ret tt, st)
     ∧ metrics.RunningSourcesGoroutines L value st = (Ret tt, st))
  ∧ (metrics.Enabled st = true ->
     metrics.sourcesGoroutinesPoolSize st = None ->
     metrics.FreeSourcesGoroutines L value st = (Panic nil_dereference, st)
     ∧ metrics.RunningSourcesGoroutines L value st = (Panic nil_dereference, st)).
Proof.
  unfold metrics.FreeSourcesGoroutines, metrics.RunningSourcesGoroutines.
  split.
  - by intros ->.
  - by intros -> ->.
Qed.

Lemma pool_setters_disabled_or_uninitialised_witness :
  metrics.FreeSourcesGoroutines metrics.sampleLibrary 3 (metrics.initial false)
  = (Ret tt, metrics.initial false)
  ∧ metrics.RunningSourcesGoroutines metrics.sampleLibrary 3 (metrics.initial true)
    = (Panic nil_dereference, metrics.initial true).
Proof.
  split.
  - exact (proj1 (proj1 (pool_setters_disabled_or_uninitialised
                           metrics.sampleLibrary 3 (metrics.initial false))
                    eq_refl)).
  - exact (proj2 (proj2 (pool_setters_disabled_or_uninitialised
                           metrics.sampleLibrary 3 (metrics.initial true))
                    eq_refl eq_refl)).
Defined.

(** X23: on a registry that does not hold the name yet,
    [initSourcesPool] registers [eventnative_sources_goroutines_pool]
    and leaves a vector with the label [type] and no gauge; run a second
    time it panics on the registration and leaves the vector and its
    gauges as they were. *)
Theorem initSourcesPool_once L st :
  metrics.registry st !! "eventnative_sources_goroutines_pool" = None ->
  ∃ st1,
    metrics.initSourcesPool L st = (Ret tt, st1)
    ∧ metrics.sourcesGoroutinesPoolSize st1
      = Some {| metrics.fqName := "eventnative_sources_goroutines_pool";
                metrics.labelNames := ["type"]; metrics.gauges := ∅ |}
    ∧ metrics.Enabled st1 = metrics.Enabled st
    ∧ (∀ st2,
         metrics.registry st2 = metrics.registry st1 ->
         metrics.initSourcesPool L st2
         = (Panic "duplicate metrics collector registration attempted", st2)).
Proof.
  intros Hfresh. unfold metrics.initSourcesPool, metrics.NewGaugeVec.
  change (metrics.BuildFQName "eventnative" "sources" "goroutines_pool")
    with "eventnative_sources_goroutines_pool".
  rewrite Hfresh.
  eexists. split; [reflexivity|]. cbn [metrics.sourcesGoroutinesPoolSize
    metrics.Enabled metrics.registry].
  split; [reflexivity|]. split; [reflexivity|].
  intros st2 Hreg. rewrite Hreg, lookup_insert_eq.
  destruct (decide (metrics.sourcesPoolLabels = metrics.sourcesPoolLabels)); done.
Qed.

Lemma initSourcesPool_once_witness :
  ∃ st1,
    metrics.initSourcesPool metrics.sampleLibrary (metrics.initial true) = (Ret tt, st1)
    ∧ metrics.initSourcesPool metrics.sampleLibrary st1
      = (Panic "duplicate metrics collector registration attempted", st1).
Proof.
  destruct (initSourcesPool_once metrics.sampleLibrary (metrics.initial true))
    as (st1 & H1 & _ & _ & H2).
  - reflexivity.
  - exists st1. split; [exact H1|]. by apply H2.
Defined.

Lemma report_spec L r st :
  metrics.Enabled st = true -> metrics.pool_ready st ->
  ∃ st',
    metrics.report L r st = (Ret tt, st')
    ∧ metrics.Enabled st' = true
    ∧ metrics.pool_ready st'
    ∧ metrics.registry st' = metrics.registry st
    ∧ metrics.pool_gauge "free" st'
      = match r with
        | metrics.Free v => Some (metrics.float64_of_int v)
        | metrics.Running _ => metrics.pool_gauge "free" st
        end
    ∧ metrics.pool_gauge "running" st'
      = match r with
        | metrics.Running v => Some (metrics.float64_of_int v)
        | metrics.Free _ => metrics.pool_gauge "running" st
        end.
Proof.
  intros Hen (vec & Hvec & Hlabels).
  destruct r as [v|v]; cbn [metrics.report];
    unfold metrics.FreeSourcesGoroutines, metrics.RunningSourcesGoroutines,
      metrics.set_gauge, metrics.pool_gauge;
    rewrite Hen, Hvec, Hlabels; cbn [length Nat.eqb];
    eexists; (split; [reflexivity|]); cbn;
    (split; [done|]); (split; [by eexists|]); (split; [done|]).
  - by rewrite lookup_insert_eq, lookup_insert_ne.
  - by rewrite lookup_insert_eq, lookup_insert_ne.
Qed.

(** X24: once the gauges exist and metrics are enabled, no sequence of
    reports panics, and after it each of the two gauges shows the value
    of the last report of its own kind, converted to a float, or what it
    showed before when there was none: the two gauges do not interfere. *)
Theorem pool_gauges_show_last_report L rs st :
  metrics.Enabled st = true -> metrics.pool_ready st ->
  ∃ st',
    metrics.reports L rs st = (Ret tt, st')
    ∧ metrics.pool_gauge "free" st'
      = match metrics.last_free rs with
        | Some v => Some (metrics.float64_of_int v)
        | None => metrics.pool_gauge "free" st
        end
    ∧ metrics.pool_gauge "running" st'
      = match metrics.last_running rs with
        | Some v => Some (metrics.float64_of_int v)
        | None => metrics.pool_gauge "running" st
        end.
Proof.
  revert st. induction rs as [|r rs IH]; intros st Hen Hready.
  - exists st. by repeat split.
  - destruct (report_spec L r st Hen Hready)
      as (st1 & Hr & Hen1 & Hready1 & _ & Hfree1 & Hrun1).
    destruct (IH st1 Hen1 Hready1) as (st' & Hrs & Hfree & Hrun).
    exists st'. cbn [metrics.reports]. rewrite Hr. split; [exact Hrs|].
    rewrite Hfree, Hrun, Hfree1, Hrun1.
    cbn [metrics.last_free metrics.last_running].
    destruct (metrics.last_free rs), (metrics.last_running rs), r; done.
Qed.

Lemma pool_gauges_show_last_report_witness :
  ∃ st st',
    metrics.initSourcesPool metrics.sampleLibrary (metrics.initial true) = (Ret tt, st)
    ∧ metrics.reports metrics.sampleLibrary
        [metrics.Free 3; metrics.Running 5; metrics.Free 2] st
      = (Ret tt, st')
    ∧ metrics.pool_gauge "free" st' = Some 2
    ∧ metrics.pool_gauge "running" st' = Some 5.
Proof.
  eexists. 
  destruct (pool_gauges_show_last_report metrics.sampleLibrary
              [metrics.Free 3; metrics.Running 5; metrics.Free 2]
              (metrics.initSourcesPool metrics.sampleLibrary (metrics.initial true)).2)
    as (st' & Hrs & Hfree & Hrun).
  - reflexivity.
  - eexists. split; reflexivity.
  - exists st'. split; [reflexivity|]. split; [exact Hrs|].
    split; [exact Hfree | exact Hrun].
Defined.
